(** * The VRM importer's loader: container demuxer, accessor decoder,
      license gate, legacy UV repair and document diff

    A shallow embedding of [io_scene_vrm/importer/vrm_load.py].  Python
    values are a tagged union ([json]), exceptions are the [Raise] branch of
    [result], the byte reader is a cursor threaded through the reads, and
    the objects that the source mutates in place (the decoded accessor
    arrays) live in an explicit store addressed by accessor index. *)

From Stdlib Require Import ZArith NArith String Ascii Bool Lia List.
From Stdlib.Strings Require Import Byte.
From Stdlib Require Import PrimFloat FloatOps SpecFloat DecimalString.
From Stdlib Require Uint63 DecimalPos DecimalZ Finite FloatAxioms.
Import ListNotations.
Set Warnings "-register-all".
Local Open Scope string_scope.
Local Open Scope list_scope.
Local Open Scope Z_scope.

(* ===================================================================== *)
(** ** Python values and exceptions *)
(* ===================================================================== *)

Module Py.

(** What [json.loads] produces and what the decoder builds: [None], [bool],
    [int], [float], [str], [list], and [dict] with string keys in insertion
    order (every key once). A [str] is held as its UTF-8 encoding. *)
Inductive json : Type :=
| JNull
| JBool (b : bool)
| JInt (z : Z)
| JFloat (f : float)
| JStr (s : string)
| JList (l : list json)
| JDict (d : list (string * json)).

(** [LicenseConfirmationRequiredProp]: [message] is what
    [vrm_helper.lang_support] chose between the two given texts. *)
Record LicenseConfirmationRequiredProp : Type := mkProp {
  url : option string;
  json_key : option string;
  message : string
}.

(** [type(v)] as the messages of the diff print it. *)
Inductive pytype : Type :=
| TNone | TBool | TInt | TFloat | TStr | TList | TDict.

(** The exceptions the loader can end with. The ones raised by the source
    as [Exception(text)] carry the values its text is formatted from. *)
Inductive exn : Type :=
| KeyError (key : json)
| IndexError
| TypeError
| AttributeError
| OverflowError
| UnicodeDecodeError
| JSONDecodeError
| ReshapeError                        (* numpy.reshape: size not a multiple *)
| OutOfBounds                         (* reader: read past the buffer *)
| UnsupportedDataType (t : json)      (* reader: unknown component type *)
| SignatureNotFound (magic : string)
| UnsupportedVersion (version : json)
| MultipleChunks
| UnknownChunkType (chunk_type : string)
| FailedToReadJsonChunk
| InvalidJson (v : json)
| DracoCompression
| UnsupportedPolygonType (mode : json)
| UnexpectedType (path : string) (left right : pytype)
| LicenseConfirmationRequired (props : list LicenseConfirmationRequiredProp)
| Diverged.                           (* a bounded loop of the model ran dry *)

Inductive result (A : Type) : Type :=
| Ok (a : A)
| Raise (e : exn).
Arguments Ok {A} a.
Arguments Raise {A} e.

Definition bind {A B} (m : result A) (k : A -> result B) : result B :=
  match m with
  | Ok a => k a
  | Raise e => Raise e
  end.

Definition is_ok {A} (m : result A) : bool :=
  match m with Ok _ => true | Raise _ => false end.

Declare Scope py_scope.
Delimit Scope py_scope with py.
Notation "x <- m ;; k" := (bind m (fun x => k))
  (at level 61, m at next level, right associativity) : py_scope.
Notation "' p <- m ;; k" := (bind m (fun x => let p := x in k))
  (at level 61, p pattern, m at next level, right associativity) : py_scope.
Local Open Scope py_scope.

(** A loop that computes one value per member and stops at the first
    exception. *)
Fixpoint map_result {A B} (f : A -> result B) (l : list A) : result (list B) :=
  match l with
  | [] => Ok []
  | a :: l' => b <- f a ;; bs <- map_result f l' ;; Ok (b :: bs)
  end.


Definition type_of (v : json) : pytype :=
  match v with
  | JNull => TNone
  | JBool _ => TBool
  | JInt _ => TInt
  | JFloat _ => TFloat
  | JStr _ => TStr
  | JList _ => TList
  | JDict _ => TDict
  end.

(** *** Dictionaries *)

Fixpoint dict_get {V} (d : list (string * V)) (k : string) : option V :=
  match d with
  | [] => None
  | (k', v) :: d' => if String.eqb k k' then Some v else dict_get d' k
  end.

Definition dict_mem {V} (d : list (string * V)) (k : string) : bool :=
  match dict_get d k with Some _ => true | None => false end.

(** [d[k] = v]: an existing key keeps its place, a new one goes last. *)
Fixpoint dict_set {V} (d : list (string * V)) (k : string) (v : V)
  : list (string * V) :=
  match d with
  | [] => [(k, v)]
  | (k', v') :: d' =>
      if String.eqb k k' then (k, v) :: d' else (k', v') :: dict_set d' k v
  end.

(** [dict(pairs)]: a later pair overrides an earlier one. *)
Definition dict_of_pairs {V} (pairs : list (string * V)) : list (string * V) :=
  fold_left (fun d kv => dict_set d (fst kv) (snd kv)) pairs [].

(** *** Integers, indices, subscripts *)

(** Python's [int] view of a value ([__index__]): ints, and bools as 0/1. *)
Definition as_index (v : json) : result Z :=
  match v with
  | JInt z => Ok z
  | JBool b => Ok (if b then 1 else 0)
  | _ => Raise TypeError
  end.

(** [l[i]] on a list: a negative index counts from the end. *)
Definition list_index {A} (l : list A) (i : Z) : result A :=
  let n := Z.of_nat (length l) in
  let j := if i <? 0 then i + n else i in
  if (j <? 0) || (n <=? j) then Raise IndexError
  else match nth_error l (Z.to_nat j) with
       | Some a => Ok a
       | None => Raise IndexError
       end.

(** A byte that continues a UTF-8 sequence. *)
Definition is_continuation (c : ascii) : bool :=
  let n := nat_of_ascii c in ((128 <=? n) && (n <=? 191))%nat.

(** The characters of a [str]: each lead byte with the bytes that
    continue it. *)
Fixpoint code_points (s : string) : list string :=
  match s with
  | EmptyString => []
  | String c s' =>
      match code_points s' with
      | p :: ps =>
          match s' with
          | String c' _ =>
              if is_continuation c' then String c p :: ps
              else String c EmptyString :: p :: ps
          | EmptyString => String c EmptyString :: p :: ps
          end
      | [] => [String c EmptyString]
      end
  end.

(** [target[key]]. A dict raises [KeyError] for an absent key, also for a
    number or [None] (hashable, never a key of a parsed document), and
    [TypeError] for an unhashable list or dict; a list takes an index; a
    [str] takes an index too and gives the character there, a [str] of
    length one. Nothing else can be subscripted. *)
Definition getitem (target key : json) : result json :=
  match target with
  | JDict d =>
      match key with
      | JStr k => match dict_get d k with
                  | Some v => Ok v
                  | None => Raise (KeyError key)
                  end
      | JList _ | JDict _ => Raise TypeError
      | _ => Raise (KeyError key)
      end
  | JList l => i <- as_index key ;; list_index l i
  | JStr s =>
      i <- as_index key ;;
      c <- list_index (code_points s) i ;;
      Ok (JStr c)
  | _ => Raise TypeError
  end.

Definition getkey (target : json) (k : string) : result json :=
  getitem target (JStr k).

(** [l[i]] resolved to the position it names. *)
Definition list_position {A} (l : list A) (i : Z) : result nat :=
  let n := Z.of_nat (List.length l) in
  let j := if i <? 0 then i + n else i in
  if (j <? 0) || (n <=? j) then Raise IndexError else Ok (Z.to_nat j).

(** [key in target] for a dict. *)
Definition contains (target : json) (k : string) : result bool :=
  match target with
  | JDict d => Ok (dict_mem d k)
  | _ => Raise TypeError
  end.

(** [target.get(k, default)]: only a dict has the method. *)
Definition dict_get_default (target : json) (k : string) (default : json)
  : result json :=
  match target with
  | JDict d => Ok (match dict_get d k with Some v => v | None => default end)
  | _ => Raise AttributeError
  end.

(** [v == n] for an int literal [n]: numbers compare by value, and a bool
    is the int 0 or 1. *)
Definition eq_int (v : json) (n : Z) : bool :=
  match v with
  | JInt z => z =? n
  | JBool b => (if b then 1 else 0) =? n
  | JFloat f =>
      match Prim2SF f with
      | S754_zero _ => n =? 0
      | S754_finite s m e =>
          let z := if s then Z.neg m else Z.pos m in
          (0 <=? e) && (Z.shiftl z e =? n)
          || (e <? 0) && (Z.shiftl (Z.shiftr z (- e)) (- e) =? z)
             && (Z.shiftr z (- e) =? n)
      | _ => false
      end
  | _ => false
  end.

(** *** Slices and iteration *)

(** [s[-n:]] *)
Definition last_chars (n : nat) (s : string) : string :=
  let cps := code_points s in
  String.concat "" (skipn (List.length cps - n) cps).

(** [for x in v]: a list yields its elements, a dict its keys, a [str] its
    characters; nothing else is iterable. *)
Definition iter_values (v : json) : result (list json) :=
  match v with
  | JList l => Ok l
  | JDict d => Ok (map (fun kv => JStr (fst kv)) d)
  | JStr s => Ok (map JStr (code_points s))
  | _ => Raise TypeError
  end.

(** [range(v)]: the number of rounds; none for a negative bound. *)
Definition range_len (v : json) : result nat :=
  n <- as_index v ;; Ok (Z.to_nat n).

(** *** Decimal text of an integer ([str(int)]) *)

Definition str_of_Z (z : Z) : string :=
  DecimalString.NilZero.string_of_int (Z.to_int z).

Definition str_of_nat (n : nat) : string := str_of_Z (Z.of_nat n).

(** *** The library functions the loader calls

    [json.loads], [urllib.parse.urlparse] and [parse_qsl], [repr] of floats
    and containers, the add-on's language switch, [numpy.reshape] and the
    tables of the Unicode database that [float] consults are not part of
    [vrm_load.py]; the model takes them as an interface. *)

(** The fields of a [ParseResult] the license gate reads. *)
Record ParseResult : Type := mkUrl {
  hostname : option string;
  path : string;
  query : string;
  geturl : string
}.

Class Runtime : Type := {
  (** [json.loads(s, object_pairs_hook=OrderedDict)] *)
  json_loads : string -> result json;
  (** [urlparse(s)]; [None] when it raises [ValueError] *)
  urlparse : string -> option ParseResult;
  (** [parse_qsl(query)] *)
  parse_qsl : string -> list (string * string);
  (** [str(v)] for a float, a list or a dict *)
  repr_other : json -> string;
  (** [vrm_helper.lang_support(message_en, message_ja)] *)
  lang_support : string -> string -> string;
  (** [numpy.reshape(a, (-1, 3))] for an [a] that is not a list of
      numbers of one kind or of equally long rows of them: the rows of the
      array it gives, [None] when it raises *)
  numpy_reshape_other : json -> option (list (list json));
  (** the Unicode database, for a character outside ASCII: its value as
      a decimal digit, if it is one, and whether it is a blank *)
  unicode_decimal : string -> option nat;
  unicode_isspace : string -> bool
}.

(** [str(v)] *)
Definition str `{Runtime} (v : json) : string :=
  match v with
  | JStr s => s
  | JNull => "None"
  | JBool true => "True"
  | JBool false => "False"
  | JInt z => str_of_Z z
  | _ => repr_other v
  end.

(** Modelled from the spec: [vrm_types.nested_json_value_getter] is not in
    the sources. The spec describes it as a path lookup that returns the
    default when any path segment is absent or of the wrong kind and never
    raises for a missing field. *)
Fixpoint json_get (target : json) (attr : list string) (default : json) : json :=
  match attr with
  | [] => target
  | k :: rest =>
      match target with
      | JDict d =>
          match dict_get d k with
          | Some v => json_get v rest default
          | None => default
          end
      | _ => default
      end
  end.

End Py.
Export Py.
Local Open Scope py_scope.

(* ===================================================================== *)
(** ** Bytes, text and the cursor over the buffer *)
(* ===================================================================== *)

Module Bytes.

Definition bytes := list byte.

Definition b2z (b : byte) : Z := Z.of_N (Byte.to_N b).

(** Little-endian unsigned value of a byte string. *)
Fixpoint le_uint (bs : bytes) : Z :=
  match bs with
  | [] => 0
  | b :: bs' => b2z b + 256 * le_uint bs'
  end.

(** Two's-complement reading of a [width]-byte little-endian value. *)
Definition le_sint (width : Z) (bs : bytes) : Z :=
  let v := le_uint bs in
  if 2 ^ (8 * width - 1) <=? v then v - 2 ^ (8 * width) else v.

(** The value of an IEEE 754 binary32 bit pattern, as the double Python
    holds it (every binary32 value is a double). *)
Definition float_of_bits32 (w : Z) : float :=
  let e := Z.land (Z.shiftr w 23) 255 in
  let m := Z.land w (2 ^ 23 - 1) in
  let mag :=
    if e =? 255 then (if m =? 0 then infinity else nan)
    else if e =? 0 then Z.ldexp (of_uint63 (Uint63.of_Z m)) (-149)
    else Z.ldexp (of_uint63 (Uint63.of_Z (m + 2 ^ 23))) (e - 150) in
  if Z.testbit w 31 then (- mag)%float else mag.

Definition continuation (b : Z) : bool := (128 <=? b) && (b <=? 191).

(** Well-formed UTF-8, as [bytes.decode("utf-8")] accepts it: shortest
    forms only, no surrogates, nothing above U+10FFFF. *)
Fixpoint utf8_valid (l : list Z) : bool :=
  match l with
  | [] => true
  | b0 :: t0 =>
      if b0 <? 128 then utf8_valid t0
      else if (194 <=? b0) && (b0 <=? 223) then
        match t0 with
        | b1 :: t1 => continuation b1 && utf8_valid t1
        | _ => false
        end
      else if (224 <=? b0) && (b0 <=? 239) then
        match t0 with
        | b1 :: b2 :: t2 =>
            continuation b1 && continuation b2
            && (if b0 =? 224 then 160 <=? b1 else true)
            && (if b0 =? 237 then b1 <=? 159 else true)
            && utf8_valid t2
        | _ => false
        end
      else if (240 <=? b0) && (b0 <=? 244) then
        match t0 with
        | b1 :: b2 :: b3 :: t3 =>
            continuation b1 && continuation b2 && continuation b3
            && (if b0 =? 240 then 144 <=? b1 else true)
            && (if b0 =? 244 then b1 <=? 143 else true)
            && utf8_valid t3
        | _ => false
        end
      else false
  end.

(** [bs.decode("utf-8")] *)
Definition decode_utf8 (bs : bytes) : result string :=
  if utf8_valid (map b2z bs) then Ok (string_of_list_byte bs)
  else Raise UnicodeDecodeError.

End Bytes.
Export Bytes.

(** Modelled from the spec: [gl_constants.GlConstants] is not in the
    sources. The spec names the component types (signed and unsigned 8, 16
    and 32-bit integers, 32-bit float) and the triangle-list topology; the
    numbers are those of the OpenGL enumeration the format borrows. *)
Module GlConstants.
Definition BYTE : Z := 5120.
Definition UNSIGNED_BYTE : Z := 5121.
Definition SHORT : Z := 5122.
Definition UNSIGNED_SHORT : Z := 5123.
Definition INT : Z := 5124.
Definition UNSIGNED_INT : Z := 5125.
Definition FLOAT : Z := 5126.
Definition TRIANGLES : Z := 4.
End GlConstants.

(** Modelled from the spec: [importer/binary_reader.BinaryReader] is not in
    the sources. The spec (section 4.1) gives its contract: positioned
    reads over an immutable buffer that advance the cursor; a fixed-length
    string read that decodes its bytes as text and fails when they are not
    valid text; a scalar read of the width the component type implies; a
    raw read that returns a slice; an absolute seek; and every read beyond
    the end of the buffer fails. Scalars are little-endian (section 6). *)
Module BinaryReader.

Record t : Type := mk { data : bytes; pos : Z }.

Definition init (data : bytes) : t := mk data 0.

Definition set_pos (br : t) (p : Z) : t := mk (data br) p.

Definition read_binary (br : t) (size : Z) : result (bytes * t) :=
  if (pos br <? 0) || (size <? 0)
     || (Z.of_nat (List.length (data br)) <? pos br + size)
  then Raise OutOfBounds
  else Ok (firstn (Z.to_nat size) (skipn (Z.to_nat (pos br)) (data br)),
           set_pos br (pos br + size)).

Definition read_str (br : t) (size : Z) : result (string * t) :=
  '(bs, br') <- read_binary br size ;;
  s <- decode_utf8 bs ;;
  Ok (s, br').

Definition read_uint (br : t) (width : Z) : result (Z * t) :=
  '(bs, br') <- read_binary br width ;;
  Ok (le_uint bs, br').

Definition read_sint (br : t) (width : Z) : result (Z * t) :=
  '(bs, br') <- read_binary br width ;;
  Ok (le_sint width bs, br').

Definition read_unsigned_int (br : t) : result (Z * t) := read_uint br 4.

(** Byte width a component type implies; [None] for an unknown one. *)
Definition width_of (data_type : json) : option Z :=
  match data_type with
  | JInt c =>
      if (c =? GlConstants.BYTE) || (c =? GlConstants.UNSIGNED_BYTE) then Some 1
      else if (c =? GlConstants.SHORT) || (c =? GlConstants.UNSIGNED_SHORT)
      then Some 2
      else if (c =? GlConstants.INT) || (c =? GlConstants.UNSIGNED_INT)
              || (c =? GlConstants.FLOAT) then Some 4
      else None
  | _ => None
  end.

Definition read_as_data_type (br : t) (data_type : json) : result (json * t) :=
  match data_type with
  | JInt c =>
      if c =? GlConstants.UNSIGNED_INT then
        '(v, br') <- read_uint br 4 ;; Ok (JInt v, br')
      else if c =? GlConstants.INT then
        '(v, br') <- read_sint br 4 ;; Ok (JInt v, br')
      else if c =? GlConstants.UNSIGNED_SHORT then
        '(v, br') <- read_uint br 2 ;; Ok (JInt v, br')
      else if c =? GlConstants.SHORT then
        '(v, br') <- read_sint br 2 ;; Ok (JInt v, br')
      else if c =? GlConstants.UNSIGNED_BYTE then
        '(v, br') <- read_uint br 1 ;; Ok (JInt v, br')
      else if c =? GlConstants.BYTE then
        '(v, br') <- read_sint br 1 ;; Ok (JInt v, br')
      else if c =? GlConstants.FLOAT then
        '(v, br') <- read_uint br 4 ;; Ok (JFloat (float_of_bits32 v), br')
      else Raise (UnsupportedDataType data_type)
  | _ => Raise (UnsupportedDataType data_type)
  end.

End BinaryReader.

(* ===================================================================== *)
(** ** The container demuxer: [parse_glb] *)
(* ===================================================================== *)

Module Glb.
Import BinaryReader.

Definition NUL : string := String Ascii.zero EmptyString.
Definition BIN_tag : string := ("BIN" ++ NUL)%string.

Definition is_some {A} (o : option A) : bool :=
  match o with Some _ => true | None => false end.

(** The [while size > 0] loop. Each round reads at least eight bytes, so
    the rounds are bounded by the buffer; [fuel] is that bound. *)
Fixpoint read_chunks (fuel : nat) (reader : t) (size : Z)
    (json_str : option string) (body : option bytes)
  : result (option string * option bytes) :=
  if size >? 0 then
    match fuel with
    | O => Raise Diverged
    | S fuel' =>
        if is_some json_str && is_some body then Raise MultipleChunks
        else
          '(chunk_size, reader) <- read_unsigned_int reader ;;
          let size := size - 4 in
          '(chunk_type, reader) <- read_str reader 4 ;;
          let size := size - 4 in
          '(chunk_data, reader) <- read_binary reader chunk_size ;;
          let size := size - chunk_size in
          if String.eqb chunk_type BIN_tag then
            read_chunks fuel' reader size json_str (Some chunk_data)
          else if String.eqb chunk_type "JSON" then
            s <- decode_utf8 chunk_data ;;
            read_chunks fuel' reader size (Some s) body
          else Raise (UnknownChunkType chunk_type)
    end
  else Ok (json_str, body).

(** The statements after the loop. *)
Definition load_json `{Runtime} (json_str : option string) (body : option bytes)
  : result (json * bytes) :=
  match json_str with
  | None | Some EmptyString => Raise FailedToReadJsonChunk
  | Some json_str =>
      json_obj <- json_loads json_str ;;
      match json_obj with
      | JDict _ =>
          Ok (json_obj, match body with Some b => b | None => [] end)
      | _ => Raise (InvalidJson json_obj)
      end
  end.

Definition parse_glb `{Runtime} (data : bytes) : result (json * bytes) :=
  let reader := init data in
  '(magic, reader) <- read_str reader 4 ;;
  if negb (String.eqb magic "glTF") then Raise (SignatureNotFound magic)
  else
    '(version, reader) <- read_as_data_type reader (JInt GlConstants.UNSIGNED_INT) ;;
    if negb (eq_int version 2) then Raise (UnsupportedVersion version)
    else
      '(size, reader) <- read_as_data_type reader (JInt GlConstants.UNSIGNED_INT) ;;
      size <- as_index size ;;
      let size := size - 12 in
      '(json_str, body) <- read_chunks (S (List.length data)) reader size None None ;;
      load_json json_str body.

End Glb.

(* ===================================================================== *)
(** ** Text helpers: suffixes and the two patterns given to [re.match] *)
(* ===================================================================== *)

Module Text.

Definition nl : ascii := ascii_of_nat 10.
Definition NL : string := String nl EmptyString.
Definition DQ : string := String (ascii_of_nat 34) EmptyString.

Fixpoint startswith (s p : string) : bool :=
  match p with
  | EmptyString => true
  | String c p' =>
      match s with
      | String c' s' => Ascii.eqb c' c && startswith s' p'
      | EmptyString => false
      end
  end.

Fixpoint drop (n : nat) (s : string) : string :=
  match n, s with
  | S n', String _ s' => drop n' s'
  | _, _ => s
  end.

(** [s.endswith(p)] *)
Definition endswith (s p : string) : bool :=
  (String.length p <=? String.length s)%nat
  && String.eqb (drop (String.length s - String.length p) s) p.

(** The regular expressions of the source use literal characters and the
    greedy any-characters group only. A group does not change whether a pattern matches. *)
Inductive re_item : Type :=
| Chr (c : ascii)
| AnyStar.

Definition re_lit (s : string) : list re_item :=
  map Chr (list_ascii_of_string s).

(** [re.match(p, s) is not None]: the pattern matches a prefix of [s];
    [.] stands for any character but a newline, and backtracks. *)
Fixpoint re_match (p : list re_item) : string -> bool :=
  match p with
  | [] => fun _ => true
  | Chr c :: p' =>
      fun s =>
        match s with
        | String c' s' => Ascii.eqb c' c && re_match p' s'
        | EmptyString => false
        end
  | AnyStar :: p' =>
      fix star (s : string) : bool :=
        re_match p' s
        || match s with
           | String c s' => negb (Ascii.eqb c nl) && star s'
           | EmptyString => false
           end
  end.

(** The license pattern: CC, any characters, ND, any characters. *)
Definition re_CC_ND : list re_item :=
  re_lit "CC" ++ [AnyStar] ++ re_lit "ND" ++ [AnyStar].

(** ["UniGLTF"] *)
Definition re_UniGLTF : list re_item := re_lit "UniGLTF".

End Text.
Export Text.

(* ===================================================================== *)
(** ** The license gate *)
(* ===================================================================== *)

Module License.
Section Gate.
Context `{Runtime}.

Definition Props : Type := list LicenseConfirmationRequiredProp.

(** [LicenseConfirmationRequiredProp(url, json_key, message_en, message_ja)] *)
Definition new_prop (url json_key : option string) (message_en message_ja : string)
  : LicenseConfirmationRequiredProp :=
  mkProp url json_key (lang_support message_en message_ja).

Definition opt_eqb (o : option string) (s : string) : bool :=
  match o with Some s' => String.eqb s' s | None => false end.

Definition vroid_hub_prop (url : ParseResult) (json_key : string) :=
  new_prop (Some (geturl url)) (Some json_key)
    ("This VRM is licensed by VRoid Hub License " ++ DQ ++ "Alterations: No" ++ DQ ++ ".")%string
    "このVRMにはVRoid Hubの「改変: NG」ライセンスが設定されています。".

Definition uv_license_prop (url : ParseResult) (json_key : string) :=
  new_prop (Some (geturl url)) (Some json_key)
    ("This VRM is licensed by UV License with " ++ DQ ++ "Remarks" ++ DQ ++ ".")%string
    "このVRMには特記事項(Remarks)付きのUVライセンスが設定されています。".

Definition custom_license_prop (url_str json_key : string) :=
  new_prop (Some url_str) (Some json_key)
    "Is this VRM allowed to edited? Please check its copyright license."
    "独自のライセンスが記載されています。".

(** The message is not an f-string in the source: the braces stay. *)
Definition no_derivatives_prop (license_name : string) :=
  new_prop None None
    ("The VRM is licensed by " ++ DQ ++ "{license_name}" ++ DQ ++ "." ++ NL
       ++ "No derivative works are allowed.")%string
    ("指定されたVRMは改変不可ライセンス「" ++ license_name
       ++ "」が設定されています。" ++ NL ++ "改変することはできません。")%string.

Definition no_url_prop :=
  new_prop None None
    ("The VRM selects " ++ DQ ++ "Other" ++ DQ ++ " license but no license url is found.")%string
    "このVRMには「Other」ライセンスが指定されていますが、URLが設定されていません。".

(** The list [props] is appended to in place; the model returns it. *)
Definition validate_vroid_hub_license_url (url : ParseResult)
    (query_dict : list (string * string)) (json_key : string) (props : Props)
    : bool * Props :=
  if negb (opt_eqb (hostname url) "hub.vroid.com")
     || negb (endswith (path url) "/license")
  then (false, props)
  else if opt_eqb (dict_get query_dict "modification") "disallow"
  then (true, props ++ [vroid_hub_prop url json_key])
  else (true, props).

Definition validate_uni_virtual_license_url (url : ParseResult)
    (query_dict : list (string * string)) (json_key : string) (props : Props)
    : bool * Props :=
  if negb (opt_eqb (hostname url) "uv-license.com")
     || negb (endswith (path url) "/license")
  then (false, props)
  else if opt_eqb (dict_get query_dict "remarks") "true"
  then (true, props ++ [uv_license_prop url json_key])
  else (true, props).

Definition validate_license_url (url_str json_key : string) (props : Props)
  : Props :=
  if String.eqb url_str "" then props
  else
    match urlparse url_str with
    | Some url =>
        let query_dict := dict_of_pairs (parse_qsl (query url)) in
        let '(hit, props) :=
          validate_vroid_hub_license_url url query_dict json_key props in
        if hit then props
        else
          let '(hit, props) :=
            validate_uni_virtual_license_url url query_dict json_key props in
          if hit then props
          else props ++ [custom_license_prop url_str json_key]
    | None => props ++ [custom_license_prop url_str json_key]
    end.

Definition meta_field (doc : json) (field : string) : string :=
  str (json_get doc ["extensions"; "VRM"; "meta"; field] (JStr "")).

(** The three checks of [validate_license], in the order it runs them. *)
Definition license_name_check (license_name : string) (confirmations : Props)
  : Props :=
  if re_match re_CC_ND license_name
  then confirmations ++ [no_derivatives_prop license_name]
  else confirmations.

Definition other_permission_check (doc : json) (confirmations : Props) : Props :=
  validate_license_url (meta_field doc "otherPermissionUrl")
    "otherPermissionUrl" confirmations.

Definition other_license_check (doc : json) (license_name : string)
    (confirmations : Props) : Props :=
  if String.eqb license_name "Other" then
    let other_license_url_str := meta_field doc "otherLicenseUrl" in
    if String.eqb other_license_url_str "" then confirmations ++ [no_url_prop]
    else validate_license_url other_license_url_str "otherLicenseUrl" confirmations
  else confirmations.

(** What [confirmations] holds when [validate_license] reaches its last
    statement. *)
Definition confirmations_of (doc : json) : Props :=
  let confirmations := [] in
  let license_name := meta_field doc "licenseName" in
  let confirmations := license_name_check license_name confirmations in
  let confirmations := other_permission_check doc confirmations in
  other_license_check doc license_name confirmations.

Definition validate_license (doc : json) : result unit :=
  match confirmations_of doc with
  | [] => Ok tt
  | confirmations => Raise (LicenseConfirmationRequired confirmations)
  end.

End Gate.
End License.

(* ===================================================================== *)
(** ** The typed accessor decoder: [decode_bin] *)
(* ===================================================================== *)

Module Decode.
Import BinaryReader.

Definition type_num_dict : list (string * Z) :=
  [("SCALAR", 1); ("VEC2", 2); ("VEC3", 3); ("VEC4", 4); ("MAT4", 16)].

(** [type_num_dict[key]] *)
Definition type_num_of (key : json) : result Z :=
  match key with
  | JStr k =>
      match dict_get type_num_dict k with
      | Some n => Ok n
      | None => Raise (KeyError key)
      end
  | JList _ | JDict _ => Raise TypeError
  | _ => Raise (KeyError key)
  end.

(** [br.set_pos(offset)]: the cursor is a byte position, so the offset has
    to be an integer. *)
Definition seek (br : t) (offset : json) : result t :=
  p <- as_index offset ;; Ok (set_pos br p).

(** [br.read_as_data_type(accessor["componentType"])] *)
Definition read_component (br : t) (accessor : json) : result (json * t) :=
  component_type <- getkey accessor "componentType" ;;
  read_as_data_type br component_type.

(** The inner [for _ in range(type_num)] loop. *)
Fixpoint read_group (n : nat) (br : t) (accessor : json)
  : result (list json * t) :=
  match n with
  | O => Ok ([], br)
  | S n' =>
      '(v, br) <- read_component br accessor ;;
      '(vs, br) <- read_group n' br accessor ;;
      Ok (v :: vs, br)
  end.

(** One round of [for _ in range(accessor["count"])]. *)
Definition read_data (type_num : Z) (br : t) (accessor : json)
  : result (json * t) :=
  if type_num =? 1 then read_component br accessor
  else
    '(data, br) <- read_group (Z.to_nat type_num) br accessor ;;
    Ok (JList data, br).

Fixpoint read_data_list (count : nat) (type_num : Z) (br : t) (accessor : json)
  : result (list json * t) :=
  match count with
  | O => Ok ([], br)
  | S count' =>
      '(data, br) <- read_data type_num br accessor ;;
      '(rest, br) <- read_data_list count' type_num br accessor ;;
      Ok (data :: rest, br)
  end.

(** The body of the loop over the accessors: what is appended to
    [decoded_binary], and the reader after it. *)
Definition decode_accessor (buffer_views : json) (br : t) (accessor : json)
  : result (json * t) :=
  type_tag <- getkey accessor "type" ;;
  type_num <- type_num_of type_tag ;;
  has_view <- contains accessor "bufferView" ;;
  if negb has_view then Ok (JList [], br)
  else
    view_index <- getkey accessor "bufferView" ;;
    view <- getitem buffer_views view_index ;;
    offset <- getkey view "byteOffset" ;;
    br <- seek br offset ;;
    count <- getkey accessor "count" ;;
    count <- range_len count ;;
    '(data_list, br) <- read_data_list count type_num br accessor ;;
    Ok (JList data_list, br).

Fixpoint decode_accessors (buffer_views : json) (br : t) (accessors : list json)
  : result (list json) :=
  match accessors with
  | [] => Ok []
  | accessor :: rest =>
      '(decoded, br) <- decode_accessor buffer_views br accessor ;;
      decoded_rest <- decode_accessors buffer_views br rest ;;
      Ok (decoded :: decoded_rest)
  end.

Definition decode_bin (json_data : json) (binary : bytes) : result (list json) :=
  let br := init binary in
  buffer_views <- getkey json_data "bufferViews" ;;
  accessors <- getkey json_data "accessors" ;;
  accessors <- iter_values accessors ;;
  decode_accessors buffer_views br accessors.

(** The number of scalars in one member of a decoded array. *)
Definition data_size (data : json) : nat :=
  match data with
  | JList group => List.length group
  | _ => 1%nat
  end.

(** The number of scalars in a decoded array, flattened. *)
Definition flat_count (decoded : json) : nat :=
  match decoded with
  | JList data_list => list_sum (map data_size data_list)
  | _ => 0%nat
  end.

End Decode.

(* ===================================================================== *)
(** ** [float(text)] and its comparison with the literal 1.16 *)
(* ===================================================================== *)

Module PyFloat.

(** What a float literal denotes, before rounding: not a number, an
    infinity, or the decimal [(-1)^neg * m * 10^e]. *)
Inductive literal : Type :=
| LNan
| LInf (neg : bool)
| LDec (neg : bool) (m : N) (e : Z).

(** The blanks [float] strips from the ends of the text: space, tab, line
    feed, vertical tab, form feed, carriage return. *)
Definition is_space (c : ascii) : bool :=
  let n := nat_of_ascii c in (((9 <=? n) && (n <=? 13)) || (n =? 32))%nat.

Definition is_digit (c : ascii) : bool :=
  let n := nat_of_ascii c in ((48 <=? n) && (n <=? 57))%nat.

Definition digit_of (c : ascii) : N := N.of_nat (nat_of_ascii c - 48).

Definition lower (c : ascii) : ascii :=
  let n := nat_of_ascii c in
  if ((65 <=? n) && (n <=? 90))%nat then ascii_of_nat (n + 32) else c.

Fixpoint lstrip (l : list ascii) : list ascii :=
  match l with
  | c :: l' => if is_space c then lstrip l' else l
  | [] => []
  end.

Definition strip (l : list ascii) : list ascii :=
  rev (lstrip (rev (lstrip l))).

(** After a first digit: digits, each optionally led by one underscore. *)
Fixpoint digits_tail (l : list ascii) : list N * list ascii :=
  match l with
  | c :: l' =>
      if is_digit c then
        let '(ds, r) := digits_tail l' in (digit_of c :: ds, r)
      else if Ascii.eqb c "_" then
        match l' with
        | c' :: l'' =>
            if is_digit c' then
              let '(ds, r) := digits_tail l'' in (digit_of c' :: ds, r)
            else ([], l)
        | [] => ([], l)
        end
      else ([], l)
  | [] => ([], [])
  end.

(** A digit part, or no digit and the text untouched. *)
Definition digitpart (l : list ascii) : list N * list ascii :=
  match l with
  | c :: l' =>
      if is_digit c then
        let '(ds, r) := digits_tail l' in (digit_of c :: ds, r)
      else ([], l)
  | [] => ([], [])
  end.

Definition number_of (ds : list N) : N :=
  fold_left (fun acc d => (10 * acc + d)%N) ds 0%N.

Definition sign_of (l : list ascii) : bool * list ascii :=
  match l with
  | c :: l' =>
      if Ascii.eqb c "-" then (true, l')
      else if Ascii.eqb c "+" then (false, l')
      else (false, l)
  | [] => (false, [])
  end.

(** The exponent part, which has to end the text. *)
Definition exponent_of (l : list ascii) : option Z :=
  match l with
  | [] => Some 0
  | c :: l' =>
      if Ascii.eqb (lower c) "e" then
        let '(neg, l'') := sign_of l' in
        match digitpart l'' with
        | ((_ :: _) as ds, []) =>
            let x := Z.of_N (number_of ds) in
            Some (if neg then - x else x)
        | _ => None
        end
      else None
  end.

(** The number [float] reads in a text of ASCII; [None] stands for its
    [ValueError]. *)
Definition parse_ascii (text : list ascii) : option literal :=
  let '(neg, l) := sign_of (strip text) in
  let word := string_of_list_ascii (map lower l) in
  if String.eqb word "inf" || String.eqb word "infinity" then Some (LInf neg)
  else if String.eqb word "nan" then Some LNan
  else
    let '(ip, r) := digitpart l in
    let '(fp, r, dotted) :=
      match r with
      | c :: r' =>
          if Ascii.eqb c "." then
            let '(fp, r'') := digitpart r' in (fp, r'', true)
          else ([], r, false)
      | [] => ([], r, false)
      end in
    match ip, fp with
    | [], [] => None
    | _, _ =>
        match exponent_of r with
        | Some x =>
            Some (LDec neg (number_of (ip ++ fp))
                    (x - Z.of_nat (List.length fp)))
        | None => None
        end
    end.

Section Unicode.
Context `{Runtime}.

(** What [float] makes of a character before it reads the text: a
    character of ASCII stays, a blank outside ASCII becomes a space, a
    decimal digit outside ASCII becomes the ASCII digit of its value, and
    any other character a question mark, with which no number is read. *)
Definition to_ascii (c : string) : ascii :=
  match c with
  | String a EmptyString => if (nat_of_ascii a <? 128)%nat then a else "?"%char
  | _ =>
      if unicode_isspace c then " "%char
      else match unicode_decimal c with
           | Some d => if (d <=? 9)%nat then ascii_of_nat (48 + d) else "?"%char
           | None => "?"%char
           end
  end.

(** [float(s)]; [None] stands for its [ValueError]. *)
Definition parse_float (s : string) : option literal :=
  parse_ascii (map to_ascii (code_points s)).

End Unicode.

(** The double the literal [1.16] of the source denotes is
    [5224175567749775 / 2^52]. Its significand is odd, so a decimal rounds
    to a double below it exactly when it is at most the midpoint between
    it and its predecessor, [10448351135499549 / 2^53]. *)
Definition bound_num : Z := 10448351135499549.
Definition bound_exp : Z := 53.

(** [float(text) < 1.16] for the literal the text denotes. *)
Definition lt_1_16 (v : literal) : bool :=
  match v with
  | LNan => false
  | LInf neg => neg
  | LDec neg m e =>
      if neg || (m =? 0)%N then true
      else if 0 <=? e
      then Z.of_N m * 10 ^ e * 2 ^ bound_exp <=? bound_num
      else Z.of_N m * 2 ^ bound_exp <=? bound_num * 10 ^ (- e)
  end.

End PyFloat.

(* ===================================================================== *)
(** ** The scene materializer: [mesh_read] *)
(* ===================================================================== *)

Module Mesh.

(** What an attribute of a [vrm_types.Mesh] instance holds: a plain value;
    the list object at a position of [vrm_pydata.decoded_binary], shared
    with every other holder of that position; the array that
    [numpy.reshape] built; or the morph-target dictionary, each entry a
    position of the decoded position array and the accessor index given. *)
Inductive field : Type :=
| FVal (v : json)
| FRef (k : nat)
| FArray (rows : list (list json))
| FMorph (targets : list (string * (nat * json))).

(** Modelled from the spec: [vrm_types.Mesh] is not in the sources. The
    spec describes the primitive record as a face-index array, a mapping
    from attribute name to decoded array, an optional morph-target mapping
    and a material index; the instance is its attribute dictionary, which
    the constructor starts with [object_id] and which has no texture
    coordinate until the primitive gives one. *)
Definition obj : Type := list (string * field).

Definition new_mesh (object_id : nat) : obj :=
  [("object_id", FVal (JInt (Z.of_nat object_id)))].

(** The decoded arrays, by accessor index. Distinct positions hold distinct
    list objects, as [decode_bin] builds them. *)
Definition store : Type := list json.

(** An integer that fits 64 bits: numpy keeps it as it is. *)
Definition is_int64 (v : json) : bool :=
  match v with
  | JInt z => (- 2 ^ 63 <=? z) && (z <? 2 ^ 63)
  | _ => false
  end.

Definition is_float (v : json) : bool :=
  match v with JFloat _ => true | _ => false end.

(** Numbers of one kind: numpy keeps each as it is. *)
Definition uniform (l : list json) : bool :=
  forallb is_int64 l || forallb is_float l.

Definition is_row (width : nat) (v : json) : bool :=
  match v with
  | JList g => (List.length g =? width)%nat
  | _ => false
  end.

Definition row_of (v : json) : list json :=
  match v with JList g => g | _ => [] end.

(** The members in order, three to a row; numpy's error when they do not
    divide by three. *)
Fixpoint triples (l : list json) : result (list (list json)) :=
  match l with
  | [] => Ok []
  | a :: b :: c :: r => rest <- triples r ;; Ok ([a; b; c] :: rest)
  | _ => Raise ReshapeError
  end.

(** [1 + v] *)
Definition add_one (v : json) : result json :=
  match v with
  | JInt z => Ok (JInt (1 + z))
  | JBool b => Ok (JInt (1 + (if b then 1 else 0)))
  | JFloat f => Ok (JFloat (1 + f)%float)
  | _ => Raise TypeError
  end.

(** [name + str(j)] *)
Definition add_str (v : json) (s : string) : result json :=
  match v with
  | JStr a => Ok (JStr (a ++ s)%string)
  | _ => Raise TypeError
  end.

Definition replace_nth {A} (k : nat) (a : A) (l : list A) : list A :=
  firstn k l ++ match skipn k l with [] => [] | _ :: r => a :: r end.

(** [uv[1] = 1 + uv[1]], on the list object [uv]. *)
Definition fix_uv (uv : json) : result json :=
  v <- getitem uv (JInt 1) ;;
  v' <- add_one v ;;
  match uv with
  | JList l => Ok (JList (replace_nth 1 v' l))
  | _ => Raise TypeError
  end.

(** [for uv in texcoord: uv[1] = 1 + uv[1]] where [texcoord] is the object
    at position [k] of the store: the members change in place, for every
    holder of that position. *)
Definition fix_texcoord (decoded_binary : store) (k : nat) : result store :=
  match nth_error decoded_binary k with
  | Some (JList uvs) =>
      uvs' <- map_result fix_uv uvs ;;
      Ok (replace_nth k (JList uvs') decoded_binary)
  | Some texcoord =>
      uvs <- iter_values texcoord ;;
      _ <- map_result fix_uv uvs ;;
      Ok decoded_binary
  | None => Raise IndexError
  end.

(** The [while True] loop over [TEXCOORD_0], [TEXCOORD_1], ...: it ends at
    the first name the mesh does not have, so its rounds are bounded by the
    number of attributes; [fuel] is that bound. Only the attributes copied
    from the primitive can have such a name, and they are references. *)
Fixpoint texcoord_loop (fuel : nat) (vrm_mesh : obj) (legacy_uv_flag : bool)
    (uv_count : nat) (decoded_binary : store) : result store :=
  match fuel with
  | O => Raise Diverged
  | S fuel' =>
      let texcoord_name := ("TEXCOORD_" ++ str_of_nat uv_count)%string in
      match dict_get vrm_mesh texcoord_name with
      | Some texcoord =>
          decoded_binary <-
            (if legacy_uv_flag then
               match texcoord with
               | FRef k => fix_texcoord decoded_binary k
               | _ => Raise TypeError
               end
             else Ok decoded_binary) ;;
          texcoord_loop fuel' vrm_mesh legacy_uv_flag (S uv_count) decoded_binary
      | None => Ok decoded_binary
      end
  end.

Section Materializer.
Context `{Runtime}.

(** What numpy makes of any other array. *)
Definition reshape_other (a : json) : result (list (list json)) :=
  match numpy_reshape_other a with
  | Some rows => Ok rows
  | None => Raise ReshapeError
  end.

(** [numpy.reshape(a, (-1, 3))]. A list of 64-bit integers or of floats,
    or of equally long rows of them, which is what a decoded array is,
    becomes an array of that kind: the numbers in order, three to a row,
    or an error when they do not divide by three. Any other array, numbers
    of mixed kinds among them, is left to the library. *)
Definition numpy_reshape_3 (a : json) : result (list (list json)) :=
  match a with
  | JList l =>
      if uniform l then triples l
      else
        match l with
        | JList g :: _ =>
            if forallb (is_row (List.length g)) l
               && uniform (concat (map row_of l))
            then triples (concat (map row_of l))
            else reshape_other a
        | _ => reshape_other a
        end
  | _ => reshape_other a
  end.

(** The flag the source calls [legacy_uv_flag]. *)
Definition legacy_uv_flag (doc : json) : bool :=
  let gen := str (json_get doc ["assets"; "generator"] (JStr "")) in
  if re_match re_UniGLTF gen then
    match PyFloat.parse_float (last_chars 4 gen) with
    | Some v => PyFloat.lt_1_16 v
    | None => false
    end
  else false.

(** [vrm_mesh.__setattr__(attr, decoded_binary[vertex_attributes[attr]])]
    for every key of [vertex_attributes]. *)
Fixpoint set_attributes (decoded_binary : store) (vertex_attributes : json)
    (attrs : list string) (vrm_mesh : obj) : result obj :=
  match attrs with
  | [] => Ok vrm_mesh
  | attr :: rest =>
      index <- getkey vertex_attributes attr ;;
      index <- as_index index ;;
      k <- list_position decoded_binary index ;;
      set_attributes decoded_binary vertex_attributes rest
        (dict_set vrm_mesh attr (FRef k))
  end.

(** [vertex_attributes.keys()] *)
Definition keys_of (v : json) : result (list string) :=
  match v with
  | JDict d => Ok (map fst d)
  | _ => Raise AttributeError
  end.

(** The loop over [primitive["targets"]], from target [i] on. *)
Fixpoint read_targets (decoded_binary : store) (primitive : json)
    (targets : list json) (i : nat) (acc : list (string * (nat * json)))
  : result (list (string * (nat * json))) :=
  match targets with
  | [] => Ok acc
  | morph_target :: rest =>
      position <- getkey morph_target "POSITION" ;;
      index <- as_index position ;;
      pos_array <- list_position decoded_binary index ;;
      has_extra <- contains morph_target "extra" ;;
      all_targets <- getkey primitive "targets" ;;
      this_target <- getitem all_targets (JInt (Z.of_nat i)) ;;
      morph_name <-
        (if has_extra then
           extra <- getkey this_target "extra" ;;
           name <- getkey extra "name" ;;
           Ok (str name)
         else
           extras <- getkey primitive "extras" ;;
           target_names <- getkey extras "targetNames" ;;
           name <- getitem target_names (JInt (Z.of_nat i)) ;;
           Ok (str name)) ;;
      accessor_index <- getkey this_target "POSITION" ;;
      read_targets decoded_binary primitive rest (S i)
        (dict_set acc morph_name (pos_array, accessor_index))
  end.

(** The body of the loop over the primitives of mesh [n]: the mesh built
    for primitive [j], and the store after the repair. *)
Definition read_primitive (doc : json) (decoded_binary : store) (n j : nat)
    (mesh primitive : json) : result (obj * store) :=
  let vrm_mesh := new_mesh n in
  name <- getkey mesh "name" ;;
  name <- (if (j =? 0)%nat then Ok name else add_str name (str_of_nat j)) ;;
  let vrm_mesh := dict_set vrm_mesh "name" (FVal name) in
  mode <- dict_get_default primitive "mode" (JInt 4) ;;
  if negb (eq_int mode GlConstants.TRIANGLES) then
    mode <- getkey primitive "mode" ;;
    Raise (UnsupportedPolygonType mode)
  else
    indices <- getkey primitive "indices" ;;
    face_indices <- getitem (JList decoded_binary) indices ;;
    rows <- numpy_reshape_3 face_indices ;;
    let vrm_mesh := dict_set vrm_mesh "face_indices" (FArray rows) in
    vertex_attributes <- dict_get_default primitive "attributes" (JDict []) ;;
    attrs <- keys_of vertex_attributes ;;
    vrm_mesh <- set_attributes decoded_binary vertex_attributes attrs vrm_mesh ;;
    let legacy := legacy_uv_flag doc in
    decoded_binary <-
      texcoord_loop (S (List.length vrm_mesh)) vrm_mesh legacy 0 decoded_binary ;;
    material <- getkey primitive "material" ;;
    let vrm_mesh := dict_set vrm_mesh "material_index" (FVal material) in
    attributes <- dict_get_default primitive "attributes" (JDict []) ;;
    position <- dict_get_default attributes "POSITION" JNull ;;
    let vrm_mesh := dict_set vrm_mesh "POSITION_accessor" (FVal position) in
    has_targets <- contains primitive "targets" ;;
    vrm_mesh <-
      (if has_targets then
         targets <- getkey primitive "targets" ;;
         targets <- iter_values targets ;;
         morphs <- read_targets decoded_binary primitive targets 0 [] ;;
         Ok (dict_set vrm_mesh
               "morph_target_point_list_and_accessor_index_dict" (FMorph morphs))
       else Ok vrm_mesh) ;;
    Ok (vrm_mesh, decoded_binary).

Fixpoint read_primitives (doc : json) (decoded_binary : store) (n j : nat)
    (mesh : json) (primitives : list json) : result (list obj * store) :=
  match primitives with
  | [] => Ok ([], decoded_binary)
  | primitive :: rest =>
      '(vrm_mesh, decoded_binary) <-
        read_primitive doc decoded_binary n j mesh primitive ;;
      '(others, decoded_binary) <-
        read_primitives doc decoded_binary n (S j) mesh rest ;;
      Ok (vrm_mesh :: others, decoded_binary)
  end.

Fixpoint read_meshes (doc : json) (decoded_binary : store) (n : nat)
    (meshes : list json) : result (list (list obj) * store) :=
  match meshes with
  | [] => Ok ([], decoded_binary)
  | mesh :: rest =>
      primitives <- dict_get_default mesh "primitives" (JList []) ;;
      primitives <- iter_values primitives ;;
      '(built, decoded_binary) <-
        read_primitives doc decoded_binary n 0 mesh primitives ;;
      '(others, decoded_binary) <- read_meshes doc decoded_binary (S n) rest ;;
      Ok (built :: others, decoded_binary)
  end.

(** [mesh_read]: what it appends to [vrm_pydata.meshes], and
    [vrm_pydata.decoded_binary] as it leaves it. *)
Definition mesh_read (doc : json) (decoded_binary : store)
  : result (list (list obj) * store) :=
  meshes <- dict_get_default doc "meshes" (JList []) ;;
  meshes <- iter_values meshes ;;
  read_meshes doc decoded_binary 0 meshes.

(** The array an attribute of a built mesh denotes in a store. *)
Definition attribute (vrm_mesh : obj) (decoded_binary : store) (attr : string)
  : option json :=
  match dict_get vrm_mesh attr with
  | Some (FRef k) => nth_error decoded_binary k
  | _ => None
  end.

End Materializer.
End Mesh.

(* ===================================================================== *)
(** ** The diff utility: [vrm_dict_diff] *)
(* ===================================================================== *)

Module Diff.

(** One line of the report; each constructor is one of the f-strings of
    the source, with the values it prints. *)
Inductive difference : Type :=
| TypeDiffers (path : string) (left right : pytype)
    (* "{path}: left is list but right is {type(right)}" and the like *)
| LengthDiffers (path : string) (left right : nat)
| NotInLeft (path key : string)
| NotInRight (path key : string)
| ValueDiffers (path : string) (left right : json)
| NumberDiffers (path : string) (left right error : float).

Definition path_of (d : difference) : string :=
  match d with
  | TypeDiffers p _ _ | LengthDiffers p _ _ | NotInLeft p _ | NotInRight p _
  | ValueDiffers p _ _ | NumberDiffers p _ _ _ => p
  end.

Fixpoint insert_key (k : string) (l : list string) : list string :=
  match l with
  | [] => [k]
  | k' :: l' =>
      match String.compare k k' with
      | Lt => k :: l
      | Eq => l
      | Gt => k' :: insert_key k l'
      end
  end.

(** [sorted(set(keys))] *)
Definition sorted_set (keys : list string) : list string :=
  fold_right insert_key [] keys.

Definition is_none (v : json) : bool :=
  match v with JNull => true | _ => false end.

(** [isinstance(v, int)]: a bool is an int. *)
Definition is_int (v : json) : bool :=
  match v with JInt _ | JBool _ => true | _ => false end.

(** [isinstance(v, (int, float))] *)
Definition is_int_or_float (v : json) : bool :=
  match v with JInt _ | JBool _ | JFloat _ => true | _ => false end.

Definition int_value (v : json) : Z :=
  match v with
  | JInt z => z
  | JBool true => 1
  | _ => 0
  end.

(** [float(v)]: an int rounds to the nearest double, and one too large
    for a double raises [OverflowError]. *)
Definition to_float (v : json) : result float :=
  match v with
  | JFloat f => Ok f
  | JBool b => Ok (if b then 1 else 0)%float
  | JInt z =>
      match binary_normalize prec emax z 0 false with
      | S754_infinity _ => Raise OverflowError
      | sf => Ok (SF2Prim sf)
      end
  | _ => Raise TypeError
  end.

Definition index_path (path : string) (i : nat) : string :=
  (path ++ "[" ++ str_of_nat i ++ "]")%string.

Definition key_path (path key : string) : string :=
  (path ++ "[" ++ DQ ++ key ++ DQ ++ "]")%string.

(** The part of [vrm_dict_diff] below the list, dict, bool and str cases. *)
Definition leaf_diff (left right : json) (path : string) (float_tolerance : float)
  : result (list difference) :=
  if is_none left && negb (is_none right)
  then Ok [TypeDiffers path TNone (type_of right)]
  else if is_int left && is_int right then
    if negb (int_value left =? int_value right)
    then Ok [ValueDiffers path left right]
    else Ok []
  else if is_int_or_float left && is_int_or_float right then
    l <- to_float left ;;
    r <- to_float right ;;
    let error := abs (l - r)%float in
    if (float_tolerance <? error)%float
    then Ok [NumberDiffers path l r error]
    else Ok []
  else Raise (UnexpectedType path (type_of left) (type_of right)).

(** [vrm_dict_diff(left, right, path, float_tolerance)]. The recursion is
    on [left]: a list is walked together with [right], and for a dict the
    calls on its values are prepared per entry and looked up by key. *)
Fixpoint vrm_dict_diff (left : json)
  : json -> string -> float -> result (list difference) :=
  fun right path float_tolerance =>
    match left with
    | JList l =>
        match right with
        | JList r =>
            if negb (List.length l =? List.length r)%nat
            then Ok [LengthDiffers path (List.length l) (List.length r)]
            else
              (fix items (l r : list json) (i : nat) {struct l}
                 : result (list difference) :=
                 match l, r with
                 | a :: l', b :: r' =>
                     d <- vrm_dict_diff a b (index_path path i) float_tolerance ;;
                     ds <- items l' r' (S i) ;;
                     Ok (d ++ ds)
                 | _, _ => Ok []
                 end) l r 0%nat
        | _ => Ok [TypeDiffers path TList (type_of right)]
        end
    | JDict d =>
        match right with
        | JDict rd =>
            let calls :=
              (fix prepare (d : list (string * json)) :=
                 match d with
                 | [] => []
                 | (k, v) :: d' => (k, vrm_dict_diff v) :: prepare d'
                 end) d in
            (fix keys (ks : list string) : result (list difference) :=
               match ks with
               | [] => Ok []
               | key :: ks' =>
                   match dict_get calls key with
                   | None =>
                       ds <- keys ks' ;; Ok (NotInLeft path key :: ds)
                   | Some call =>
                       match dict_get rd key with
                       | None =>
                           ds <- keys ks' ;; Ok (NotInRight path key :: ds)
                       | Some rv =>
                           d' <- call rv (key_path path key) float_tolerance ;;
                           ds <- keys ks' ;;
                           Ok (d' ++ ds)
                       end
                   end
               end) (sorted_set (map fst d ++ map fst rd))
        | _ => Ok [TypeDiffers path TDict (type_of right)]
        end
    | JBool b =>
        match right with
        | JBool b' =>
            if negb (Bool.eqb b b') then Ok [ValueDiffers path left right]
            else Ok []
        | _ => Ok [TypeDiffers path TBool (type_of right)]
        end
    | JStr s =>
        match right with
        | JStr s' =>
            if negb (String.eqb s s') then Ok [ValueDiffers path left right]
            else Ok []
        | _ => Ok [TypeDiffers path TStr (type_of right)]
        end
    | _ => leaf_diff left right path float_tolerance
    end.

Section WithRuntime.
Context `{Runtime}.

Definition create_vrm_dict (data : bytes) : result json :=
  '(vrm_json, binary_chunk) <- Glb.parse_glb data ;;
  decoded <- Decode.decode_bin vrm_json binary_chunk ;;
  match vrm_json with
  | JDict d => Ok (JDict (dict_set d "~accessors_decoded" (JList decoded)))
  | _ => Raise TypeError
  end.

Definition vrm_diff (before after : bytes) (float_tolerance : float)
  : result (list difference) :=
  l <- create_vrm_dict before ;;
  r <- create_vrm_dict after ;;
  vrm_dict_diff l r "" float_tolerance.

End WithRuntime.
End Diff.

(* ===================================================================== *)
(** ** File names, confirmations for the dialog, and the rest of the scene *)
(* ===================================================================== *)

Module Path.

(** The keys of [unsafe_chars]: the control characters, and the
    punctuation a path cannot hold. *)
Definition unsafe_chars : list nat :=
  [0; 1; 2; 3; 4; 5; 6; 7; 8; 9; 10; 11; 12; 13; 14; 15; 16; 17; 18; 19; 20;
   21; 22; 23; 24; 25; 26; 27; 28; 29; 30; 31;
   34; 42; 47; 58; 60; 62; 63; 92; 124]%nat.

(** A character of [remove_table]. *)
Definition is_unsafe (c : ascii) : bool :=
  existsb (Nat.eqb (nat_of_ascii c)) unsafe_chars.

(** [filename.translate(remove_table)]: the characters of the table are
    deleted. All of them are ASCII, and no byte of a longer UTF-8 sequence
    is, so deleting them byte by byte deletes them character by
    character. *)
Fixpoint remove_unsafe_path_chars (filename : string) : string :=
  match filename with
  | EmptyString => EmptyString
  | String c rest =>
      if is_unsafe c then remove_unsafe_path_chars rest
      else String c (remove_unsafe_path_chars rest)
  end.

End Path.

Module Confirmations.

Definition or_empty (o : option string) : string :=
  match o with
  | Some s => s
  | None => EmptyString
  end.

(** One entry of [license_confirmations]: the four keys and their texts. *)
Definition confirmation (index : nat) (prop : LicenseConfirmationRequiredProp)
  : list (string * string) :=
  [("name", ("LicenseConfirmation" ++ str_of_nat index)%string);
   ("url", or_empty (url prop));
   ("json_key", or_empty (json_key prop));
   ("message", message prop)].

Fixpoint enumerate_from {A} (index : nat) (l : list A) : list (nat * A) :=
  match l with
  | [] => []
  | a :: l' => (index, a) :: enumerate_from (S index) l'
  end.

(** [LicenseConfirmationRequired.license_confirmations] *)
Definition license_confirmations (props : list LicenseConfirmationRequiredProp)
  : list (list (string * string)) :=
  map (fun ip => confirmation (fst ip) (snd ip)) (enumerate_from 0 props).

End Confirmations.

Module Scene.

(** [vrm2pydata_factory] is not in the sources: its two functions, which
    build a bone from a node and a material from a glTF material and its
    VRM properties (or nothing), are taken as an interface. *)
Class Factory : Type := {
  Bone : Type;
  Material : Type;
  bone : json -> result Bone;
  material : json -> json -> result (option Material)
}.

(** A dictionary with integer keys, in insertion order. *)
Fixpoint idict_set {V} (d : list (nat * V)) (k : nat) (v : V) : list (nat * V) :=
  match d with
  | [] => [(k, v)]
  | (k', v') :: d' =>
      if (k =? k')%nat then (k, v) :: d' else (k', v') :: idict_set d' k v
  end.

Fixpoint idict_get {V} (d : list (nat * V)) (k : nat) : option V :=
  match d with
  | [] => None
  | (k', v) :: d' => if (k =? k')%nat then Some v else idict_get d' k
  end.

(** [len(v)] *)
Definition py_len (v : json) : result nat :=
  match v with
  | JList l => Ok (List.length l)
  | JDict d => Ok (List.length d)
  | JStr s => Ok (List.length (code_points s))
  | _ => Raise TypeError
  end.

Fixpoint is_infix (needle s : string) : bool :=
  startswith s needle
  || match s with
     | String _ s' => is_infix needle s'
     | EmptyString => false
     end.

(** [needle in container] for a text [needle]: an equal member of a list,
    a key of a dict, a part of a [str]. *)
Definition str_in (needle : string) (container : json) : result bool :=
  match container with
  | JList l =>
      Ok (existsb (fun v => match v with
                            | JStr s => String.eqb s needle
                            | _ => false
                            end) l)
  | JDict d => Ok (dict_mem d needle)
  | JStr s => Ok (is_infix needle s)
  | _ => Raise TypeError
  end.

(** The loop of [skin_read]; the two lists are those of [vrm_pydata], and
    grow at their ends. *)
Fixpoint skin_read_loop (skins : list json)
    (skins_joints_list skins_root_node_list : list json)
  : result (list json * list json) :=
  match skins with
  | [] => Ok (skins_joints_list, skins_root_node_list)
  | skin :: rest =>
      joints <- getkey skin "joints" ;;
      let skins_joints_list := skins_joints_list ++ [joints] in
      keys <- Mesh.keys_of skin ;;
      if existsb (String.eqb "skeleton") keys then
        skeleton <- getkey skin "skeleton" ;;
        skin_read_loop rest skins_joints_list (skins_root_node_list ++ [skeleton])
      else skin_read_loop rest skins_joints_list skins_root_node_list
  end.

Definition skin_read (doc : json)
    (skins_joints_list skins_root_node_list : list json)
  : result (list json * list json) :=
  skins <- dict_get_default doc "skins" (JList []) ;;
  skins <- iter_values skins ;;
  skin_read_loop skins skins_joints_list skins_root_node_list.

Section WithFactory.
Context `{Factory}.

(** An entry of [origin_nodes_dict]: the bone, the mesh index, and the skin
    index when the node has one. *)
Definition origin : Type := (Bone * json * option json)%type.

(** The loop of [node_read], from node [i] on. The text given to [print]
    is computed, and can fail, before anything is printed. *)
Fixpoint node_read_loop (nodes : list json) (i : nat)
    (nodes_dict : list (nat * Bone)) (origin_nodes_dict : list (nat * origin))
  : result (list (nat * Bone) * list (nat * origin)) :=
  match nodes with
  | [] => Ok (nodes_dict, origin_nodes_dict)
  | node :: rest =>
      b <- bone node ;;
      let nodes_dict := idict_set nodes_dict i b in
      keys <- Mesh.keys_of node ;;
      if existsb (String.eqb "mesh") keys then
        mesh <- getkey node "mesh" ;;
        keys <- Mesh.keys_of node ;;
        if existsb (String.eqb "skin") keys then
          skin <- getkey node "skin" ;;
          node_read_loop rest (S i) nodes_dict
            (idict_set origin_nodes_dict i (b, mesh, Some skin))
        else
          name <- getkey node "name" ;;
          _ <- Mesh.add_str name "is not have skin" ;;
          node_read_loop rest (S i) nodes_dict
            (idict_set origin_nodes_dict i (b, mesh, None))
      else node_read_loop rest (S i) nodes_dict origin_nodes_dict
  end.

Definition node_read (doc : json)
    (nodes_dict : list (nat * Bone)) (origin_nodes_dict : list (nat * origin))
  : result (list (nat * Bone) * list (nat * origin)) :=
  nodes <- getkey doc "nodes" ;;
  nodes <- iter_values nodes ;;
  node_read_loop nodes 0 nodes_dict origin_nodes_dict.

(** The marker every material gets when the document has no VRM material
    properties. *)
Definition gltf_shader : json := JDict [("shader", JStr "VRM_USE_GLTFSHADER")].

(** The loop over [zip(json_materials, vrm_extension_material_properties)]:
    it ends with the shorter of the two. *)
Fixpoint material_read_loop (mats ext_mats : list json) (materials : list Material)
  : result (list Material) :=
  match mats, ext_mats with
  | mat :: mats', ext_mat :: ext_mats' =>
      built <- material mat ext_mat ;;
      material_read_loop mats' ext_mats'
        (match built with
         | Some m => materials ++ [m]
         | None => materials
         end)
  | _, _ => Ok materials
  end.

(** [material_read]; [materials] is the list of [vrm_pydata]. The default
    given to the getter is built, and the length taken, before the
    document is searched. *)
Definition material_read (doc : json) (materials : list Material)
  : result (list Material) :=
  json_materials <- dict_get_default doc "materials" (JList []) ;;
  n <- py_len json_materials ;;
  let vrm_extension_material_properties :=
    json_get doc ["extensions"; "VRM"; "materialProperties"]
      (JList (repeat gltf_shader n)) in
  match vrm_extension_material_properties with
  | JList ext_mats =>
      mats <- iter_values json_materials ;;
      material_read_loop mats ext_mats materials
  | _ => Ok materials
  end.

Context `{Runtime}.

(** The test on [extensionsRequired] in [read_vrm]. *)
Definition requires_draco (doc : json) : result bool :=
  has <- str_in "extensionsRequired" doc ;;
  if has then
    required <- getkey doc "extensionsRequired" ;;
    str_in "KHR_DRACO_MESH_COMPRESSION" required
  else Ok false.

(** [read_vrm], from the bytes that [open(model_path, "rb").read()] gave:
    the document and the materials of the [VrmPydata] it returns. *)
Definition read_vrm (data : bytes) (license_check : bool)
  : result (json * list Material) :=
  '(json_dict, body_binary) <- Glb.parse_glb data ;;
  draco <- requires_draco json_dict ;;
  if draco then Raise DracoCompression
  else
    _ <- (if license_check then License.validate_license json_dict else Ok tt) ;;
    materials <- material_read json_dict [] ;;
    Ok (json_dict, materials).

End WithFactory.
End Scene.

(* ===================================================================== *)
(** ** Well-formed containers and one concrete runtime *)
(* ===================================================================== *)

Module Container.

Definition byte_of_Z (z : Z) : byte :=
  match Byte.of_N (Z.to_N z) with
  | Some b => b
  | None => x00
  end.

(** The four little-endian bytes of an unsigned 32-bit number. *)
Definition u32 (n : Z) : bytes :=
  [byte_of_Z (n mod 256); byte_of_Z ((n / 256) mod 256);
   byte_of_Z ((n / 65536) mod 256); byte_of_Z ((n / 16777216) mod 256)].

(** A chunk is its type tag and its payload. *)
Definition chunk : Type := (string * bytes)%type.

Definition encode_chunk (c : chunk) : bytes :=
  u32 (Z.of_nat (List.length (snd c))) ++ list_byte_of_string (fst c) ++ snd c.

Definition encode_chunks (cs : list chunk) : bytes :=
  concat (map encode_chunk cs).

(** The container the format describes: signature, version 2, the total
    length, then the chunks. *)
Definition encode_glb (cs : list chunk) : bytes :=
  list_byte_of_string "glTF" ++ u32 2
    ++ u32 (12 + Z.of_nat (List.length (encode_chunks cs)))
    ++ encode_chunks cs.

(** A tag of four bytes of text, a payload whose length fits 32 bits. *)
Definition chunk_ok (c : chunk) : bool :=
  (List.length (list_byte_of_string (fst c)) =? 4)%nat
  && utf8_valid (map b2z (list_byte_of_string (fst c)))
  && (Z.of_nat (List.length (snd c)) <? 2 ^ 32).

Definition glb_ok (cs : list chunk) : bool :=
  forallb chunk_ok cs
  && (12 + Z.of_nat (List.length (encode_chunks cs)) <? 2 ^ 32).

(** What the chunk loop does, chunk by chunk. *)
Fixpoint demux (cs : list chunk) (json_str : option string) (body : option bytes)
  : result (option string * option bytes) :=
  match cs with
  | [] => Ok (json_str, body)
  | (tag, payload) :: rest =>
      if Glb.is_some json_str && Glb.is_some body then Raise MultipleChunks
      else if String.eqb tag Glb.BIN_tag then demux rest json_str (Some payload)
      else if String.eqb tag "JSON" then
        s <- decode_utf8 payload ;; demux rest (Some s) body
      else Raise (UnknownChunkType tag)
  end.

Definition json_chunk (text : string) : chunk := ("JSON", list_byte_of_string text).
Definition bin_chunk (payload : bytes) : chunk := (Glb.BIN_tag, payload).

End Container.

(** A runtime to run the model on: it reads the two empty JSON documents,
    splits plain [scheme://host/path?query] addresses, answers in English,
    reshapes nothing but arrays of numbers, and knows the fullwidth digits
    and the ideographic space. *)
Module Sample.

Fixpoint split_at (sep : ascii) (s : string) : string * option string :=
  match s with
  | EmptyString => (EmptyString, None)
  | String c s' =>
      if Ascii.eqb c sep then (EmptyString, Some s')
      else let '(a, b) := split_at sep s' in (String c a, b)
  end.

Fixpoint split_all (fuel : nat) (sep : ascii) (s : string) : list string :=
  match fuel with
  | O => [s]
  | S fuel' =>
      match split_at sep s with
      | (a, Some b) => a :: split_all fuel' sep b
      | (a, None) => [a]
      end
  end.

Definition after_scheme (s : string) : option string :=
  match split_at ":" s with
  | (_, Some rest) =>
      if startswith rest "//" then Some (Text.drop 2 rest) else None
  | _ => None
  end.

Definition sample_urlparse (s : string) : option ParseResult :=
  let '(no_fragment, _) := split_at "#" s in
  let '(front, q) := split_at "?" no_fragment in
  let query := match q with Some q => q | None => EmptyString end in
  match after_scheme front with
  | Some rest =>
      let '(netloc, p) := split_at "/" rest in
      let host := fst (split_at ":" netloc) in
      Some (mkUrl (if String.eqb host "" then None else Some host)
              (match p with Some p => String "/" p | None => EmptyString end)
              query s)
  | None => Some (mkUrl None front query s)
  end.

Definition sample_parse_qsl (q : string) : list (string * string) :=
  flat_map (fun kv => match split_at "=" kv with
                      | (k, Some v) => if String.eqb v "" then [] else [(k, v)]
                      | _ => []
                      end)
           (split_all (String.length q) "&" q).

Definition sample_json_loads (s : string) : result json :=
  if String.eqb s "{}" then Ok (JDict [])
  else if String.eqb s "[]" then Ok (JList [])
  else Raise JSONDecodeError.

(** The fullwidth digits, U+FF10 to U+FF19, in UTF-8. *)
Definition sample_decimal (c : string) : option nat :=
  match c with
  | String a (String b (String d EmptyString)) =>
      if ((nat_of_ascii a =? 239) && (nat_of_ascii b =? 188)
          && (144 <=? nat_of_ascii d) && (nat_of_ascii d <=? 153))%nat
      then Some (nat_of_ascii d - 144)%nat
      else None
  | _ => None
  end.

(** The ideographic space, U+3000, in UTF-8. *)
Definition sample_isspace (c : string) : bool :=
  String.eqb c
    (String (ascii_of_nat 227)
       (String (ascii_of_nat 128) (String (ascii_of_nat 128) EmptyString))).

#[export] Instance runtime : Runtime := {
  json_loads := sample_json_loads;
  urlparse := sample_urlparse;
  parse_qsl := sample_parse_qsl;
  repr_other := fun _ => "<object>";
  lang_support := fun message_en _ => message_en;
  numpy_reshape_other := fun _ => None;
  unicode_decimal := sample_decimal;
  unicode_isspace := sample_isspace
}.

End Sample.

(* ===================================================================== *)
(** ** The vocabulary of the statements *)
(* ===================================================================== *)

Module Notions.
Import BinaryReader Decode Mesh.

(** *** Readers *)

(** The reader standing after [pre] in the buffer [pre ++ rest]. *)
Definition standing (pre rest : bytes) : t :=
  mk (pre ++ rest) (Z.of_nat (List.length pre)).

(** A result that is not the model's own "ran dry" marker. *)
Definition bounded {A} (m : result A) : Prop := m <> Raise Diverged.

(** The same, as a test. *)
Definition ran_dry {A} (m : result A) : bool :=
  match m with
  | Raise Diverged => true
  | _ => false
  end.

(** *** Licenses *)

(** No line feed in the text. *)
Fixpoint no_newline (s : string) : bool :=
  match s with
  | EmptyString => true
  | String c s' => negb (Ascii.eqb c nl) && no_newline s'
  end.

(** What the license pattern accepts: the name starts with CC, and ND
    follows later on the same line. Upper case only. *)
Definition no_derivatives_name (name : string) : Prop :=
  exists mid rest,
    name = ("CC" ++ mid ++ "ND" ++ rest)%string /\ no_newline mid = true.

(** A document that carries the given [meta] fields of the VRM extension. *)
Definition doc_with_meta (fields : list (string * json)) : json :=
  JDict [("extensions", JDict [("VRM", JDict [("meta", JDict fields)])])].

(** The query parameter the provider checks read: the value of the last
    pair with that name. *)
Definition query_param `{Runtime} (u : ParseResult) (name : string) : option string :=
  dict_get (dict_of_pairs (parse_qsl (query u))) name.

(** *** Accessors *)

(** What one accessor decodes to on its own, from a fresh reader over the
    payload. *)
Definition decode_value (buffer_views : json) (binary : bytes) (accessor : json)
  : result json :=
  '(decoded, _) <- decode_accessor buffer_views (init binary) accessor ;;
  Ok decoded.

(** The declared count as the loop reads it. *)
Definition declared_count (accessor : json) : result Z :=
  count <- getkey accessor "count" ;; as_index count.

(** The arity the type tag names. *)
Definition arity_of (accessor : json) : result Z :=
  type_tag <- getkey accessor "type" ;; type_num_of type_tag.

(** The byte offset the accessor's buffer view gives. *)
Definition view_offset (buffer_views accessor : json) : result Z :=
  view_index <- getkey accessor "bufferView" ;;
  view <- getitem buffer_views view_index ;;
  offset <- getkey view "byteOffset" ;;
  as_index offset.

(** The width of the accessor's component type. *)
Definition component_width (accessor : json) : option Z :=
  match getkey accessor "componentType" with
  | Ok component_type => width_of component_type
  | Raise _ => None
  end.

(** The accessor names a known type and, if it has a buffer view, a view
    with an integer offset and an integer count whose components, of a
    known type, lie inside the payload. *)
Definition accessor_fits (buffer_views : json) (binary : bytes) (accessor : json)
  : bool :=
  match arity_of accessor, contains accessor "bufferView" with
  | Ok _, Ok false => true
  | Ok arity, Ok true =>
      match view_offset buffer_views accessor, declared_count accessor with
      | Ok offset, Ok count =>
          (count <=? 0)
          || match component_width accessor with
             | Some width =>
                 (0 <=? offset)
                 && (offset + count * arity * width
                     <=? Z.of_nat (List.length binary))
             | None => false
             end
      | _, _ => false
      end
  | _, _ => false
  end.

(** *** Meshes *)

(** The name the loop asks the mesh for in round [uv_count]. *)
Definition texcoord_name (uv_count : nat) : string :=
  ("TEXCOORD_" ++ str_of_nat uv_count)%string.

(** The texture coordinates of every mesh that [mesh_read] built, read in
    the store it left. *)
Definition texcoords_after (out : result (list (list obj) * store))
  : result (list (option json)) :=
  '(meshes, decoded_binary) <- out ;;
  Ok (map (fun vrm_mesh => attribute vrm_mesh decoded_binary "TEXCOORD_0")
        (concat meshes)).

(** *** A payload and documents to run the model on *)

(** A payload and a document to run the decoder on: three unsigned-short
    indices at offset 0 and one pair of 32-bit floats, 0.2 and -0.3, at
    offset 8. *)
Definition sample_binary : bytes :=
  [x00; x00; x01; x00; x02; x00; x00; x00;
   xcd; xcc; x4c; x3e; x9a; x99; x99; xbe].

Definition sample_buffer_views : json :=
  JList [JDict [("buffer", JInt 0); ("byteOffset", JInt 0); ("byteLength", JInt 6)];
         JDict [("buffer", JInt 0); ("byteOffset", JInt 8); ("byteLength", JInt 8)]].

Definition sample_accessors : list json :=
  [JDict [("bufferView", JInt 0); ("componentType", JInt 5123);
          ("count", JInt 3); ("type", JStr "SCALAR")];
   JDict [("bufferView", JInt 1); ("componentType", JInt 5126);
          ("count", JInt 1); ("type", JStr "VEC2")]].

Definition sample_json_data : json :=
  JDict [("bufferViews", sample_buffer_views);
         ("accessors", JList sample_accessors)].

(** An accessor with no buffer view, as some producers emit. *)
Definition placeholder_accessor : json :=
  JDict [("componentType", JInt 5126); ("count", JInt 4); ("type", JStr "VEC3")].

Definition json_data_with_placeholder : json :=
  JDict [("bufferViews", sample_buffer_views);
         ("accessors",
          JList (firstn 1 sample_accessors ++ placeholder_accessor
                   :: skipn 1 sample_accessors))].

(** A document whose one mesh has the given primitives, produced by the
    given generator, over the sample accessors. *)
Definition mesh_document (generator : string) (primitives : list json) : json :=
  JDict [("assets", JDict [("generator", JStr generator)]);
         ("bufferViews", sample_buffer_views);
         ("accessors", JList sample_accessors);
         ("meshes",
          JList [JDict [("name", JStr "Body"); ("primitives", JList primitives)]])].

(** A primitive that takes its indices from accessor 0 and its texture
    coordinates from accessor 1. *)
Definition sample_primitive : json :=
  JDict [("attributes", JDict [("TEXCOORD_0", JInt 1)]);
         ("indices", JInt 0); ("material", JInt 0)].

(** The single precision values nearest 0.2 and -0.3, as decoded. *)
Definition u_02 : float := float_of_bits32 1045220557.
Definition v_m03 : float := float_of_bits32 3197737370.

End Notions.
Export Notions.

(* ===================================================================== *)
(** ** The vocabulary of the further properties *)
(* ===================================================================== *)

Module Further.
Import BinaryReader Decode Mesh Diff Scene Container.

(** *** Scenes *)

(** The values the members of a list give for a field, in order; a member
    without the field gives none. *)
Definition fields (k : string) (members : list json) : list json :=
  flat_map (fun member => match getkey member k with
                          | Ok v => [v]
                          | Raise _ => []
                          end) members.

Section WithFactory.
Context `{Factory}.

(** What [origin_nodes_dict] gets for node [i] with bone [b]: an entry if
    the node names a mesh, with the skin if it names one. *)
Definition origin_of (i : nat) (node : json) (b : Bone) : list (nat * origin) :=
  match getkey node "mesh" with
  | Ok mesh =>
      [(i, (b, mesh, match getkey node "skin" with
                     | Ok skin => Some skin
                     | Raise _ => None
                     end))]
  | Raise _ => []
  end.

Fixpoint origins (i : nat) (nodes : list json) (bones : list Bone)
  : list (nat * origin) :=
  match nodes, bones with
  | node :: nodes', b :: bones' => origin_of i node b ++ origins (S i) nodes' bones'
  | _, _ => []
  end.

(** The materials among what the factory gave. *)
Definition somes (built : list (option Material)) : list Material :=
  flat_map (fun o => match o with Some m => [m] | None => [] end) built.

End WithFactory.

(** A factory to run the model with: a bone is the node's name field, a
    material is the pair it was asked for. *)
#[local] Instance sample_factory : Factory := {
  Bone := json;
  Material := (json * json)%type;
  bone := fun node => Ok (json_get node ["name"] JNull);
  material := fun mat ext_mat => Ok (Some (mat, ext_mat))
}.

(** *** Containers to run the model on *)

(** Two documents, their texts, and a runtime whose [json.loads] reads
    those texts: a document that requires Draco compression, and the
    sample document of the two accessors. *)
Definition quoted (s : string) : string := (Text.DQ ++ s ++ Text.DQ)%string.

Definition draco_document : json :=
  JDict [("extensionsRequired", JList [JStr "KHR_DRACO_MESH_COMPRESSION"])].

Definition draco_text : string :=
  ("{" ++ quoted "extensionsRequired" ++ ": ["
   ++ quoted "KHR_DRACO_MESH_COMPRESSION" ++ "]}")%string.

Definition sample_text : string :=
  ("{" ++ quoted "bufferViews" ++ ": [{" ++ quoted "buffer" ++ ": 0, "
   ++ quoted "byteOffset" ++ ": 0, " ++ quoted "byteLength" ++ ": 6}, {"
   ++ quoted "buffer" ++ ": 0, " ++ quoted "byteOffset" ++ ": 8, "
   ++ quoted "byteLength" ++ ": 8}], " ++ quoted "accessors" ++ ": [{"
   ++ quoted "bufferView" ++ ": 0, " ++ quoted "componentType" ++ ": 5123, "
   ++ quoted "count" ++ ": 3, " ++ quoted "type" ++ ": " ++ quoted "SCALAR"
   ++ "}, {" ++ quoted "bufferView" ++ ": 1, " ++ quoted "componentType"
   ++ ": 5126, " ++ quoted "count" ++ ": 1, " ++ quoted "type" ++ ": "
   ++ quoted "VEC2" ++ "}]}")%string.

#[local] Instance fixture_runtime : Runtime := {
  json_loads := fun s =>
    if String.eqb s draco_text then Ok draco_document
    else if String.eqb s sample_text then Ok sample_json_data
    else Sample.sample_json_loads s;
  urlparse := Sample.sample_urlparse;
  parse_qsl := Sample.sample_parse_qsl;
  repr_other := fun _ => "<object>";
  lang_support := fun message_en _ => message_en;
  numpy_reshape_other := fun _ => None;
  unicode_decimal := Sample.sample_decimal;
  unicode_isspace := Sample.sample_isspace
}.

(** *** Differences *)

(** The two loops of [vrm_dict_diff], by name. *)
Fixpoint diff_items (path : string) (float_tolerance : float)
    (l r : list json) (i : nat) : result (list difference) :=
  match l, r with
  | a :: l', b :: r' =>
      d <- vrm_dict_diff a b (index_path path i) float_tolerance ;;
      ds <- diff_items path float_tolerance l' r' (S i) ;;
      Ok (d ++ ds)
  | _, _ => Ok []
  end.

Fixpoint diff_keys
    (calls : list (string * (json -> string -> float -> result (list difference))))
    (rd : list (string * json)) (path : string) (float_tolerance : float)
    (ks : list string) : result (list difference) :=
  match ks with
  | [] => Ok []
  | key :: ks' =>
      match dict_get calls key with
      | None =>
          ds <- diff_keys calls rd path float_tolerance ks' ;;
          Ok (NotInLeft path key :: ds)
      | Some call =>
          match dict_get rd key with
          | None =>
              ds <- diff_keys calls rd path float_tolerance ks' ;;
              Ok (NotInRight path key :: ds)
          | Some rv =>
              d' <- call rv (key_path path key) float_tolerance ;;
              ds <- diff_keys calls rd path float_tolerance ks' ;;
              Ok (d' ++ ds)
          end
      end
  end.

(** The differences are about [path] or a place below it. *)
Definition under (path : string) (ds : list difference) : Prop :=
  Forall (fun d => Text.startswith (path_of d) path = true) ds.

(** No [None] anywhere in the document. *)
Fixpoint null_free (v : json) : bool :=
  match v with
  | JNull => false
  | JList l => forallb null_free l
  | JDict d => forallb (fun kv => null_free (snd kv)) d
  | _ => true
  end.

(** *** Accessors *)

(** What a reader has to give for one component of the accessor. *)
Definition component_read (accessor : json) (width : Z) : Prop :=
  exists component_type,
    getkey accessor "componentType" = Ok component_type
    /\ width_of component_type = Some width /\ 0 < width.

(** A document with one buffer view at [offset] and one accessor over it:
    [count] unsigned 32-bit scalars. *)
Definition scalar_accessor (count : Z) : json :=
  JDict [("bufferView", JInt 0); ("componentType", JInt GlConstants.UNSIGNED_INT);
         ("count", JInt count); ("type", JStr "SCALAR")].

Definition scalar_document (offset count : Z) : json :=
  JDict [("bufferViews", JList [JDict [("byteOffset", JInt offset)]]);
         ("accessors", JList [scalar_accessor count])].

(** The bytes of the numbers, four little-endian bytes each. *)
Definition encode_scalars (values : list Z) : bytes := concat (map u32 values).

(** The fields of an accessor that the decoder reads. *)
Definition decoded_fields : list string :=
  ["type"; "bufferView"; "count"; "componentType"].

(** The two accessors give the same for each of these fields. *)
Definition same_fields (a a' : json) : Prop :=
  forall k, In k decoded_fields -> getkey a k = getkey a' k.

(** *** Primitives *)

(** What the code looks up for [POSITION_accessor]. *)
Definition position_of (primitive : json) : result json :=
  attributes <- dict_get_default primitive "attributes" (JDict []) ;;
  dict_get_default attributes "POSITION" JNull.

(** The object built for a primitive carries the primitive's material and
    the accessor of its positions. *)
Definition built_from (primitive : json) (vrm_mesh : obj) : Prop :=
  exists material position,
    getkey primitive "material" = Ok material
    /\ position_of primitive = Ok position
    /\ dict_get vrm_mesh "material_index" = Some (FVal material)
    /\ dict_get vrm_mesh "POSITION_accessor" = Some (FVal position).

(** The primitives of a mesh, as the loop walks them. *)
Definition primitives_of (mesh : json) : result (list json) :=
  primitives <- dict_get_default mesh "primitives" (JList []) ;;
  iter_values primitives.

(** The objects built for a mesh, one for each of its primitives. *)
Definition mesh_built (mesh : json) (built : list obj) : Prop :=
  exists primitives,
    primitives_of mesh = Ok primitives /\ Forall2 built_from primitives built.

End Further.
Export Further.

(* ===================================================================== *)
(** * Properties *)
(* ===================================================================== *)

(** ** The reader on a buffer split at its cursor *)

Module ReaderFacts.
Import BinaryReader Container.

Lemma standing_app pre x post :
  mk (pre ++ x ++ post) (Z.of_nat (List.length pre) + Z.of_nat (List.length x))
  = standing (pre ++ x) post.
Proof.
  unfold standing. rewrite <- app_assoc, length_app, Nat2Z.inj_add. reflexivity.
Qed.

Lemma read_binary_standing pre x post :
  read_binary (standing pre (x ++ post)) (Z.of_nat (List.length x))
  = Ok (x, standing (pre ++ x) post).
Proof.
  unfold read_binary, standing; cbn [data pos].
  assert (Hlen : (Z.of_nat (List.length (pre ++ x ++ post))
                  <? Z.of_nat (List.length pre) + Z.of_nat (List.length x)) = false).
  { apply Z.ltb_ge. rewrite !length_app. lia. }
  rewrite Hlen.
  replace (Z.of_nat (List.length pre) <? 0) with false by (symmetry; apply Z.ltb_ge; lia).
  replace (Z.of_nat (List.length x) <? 0) with false by (symmetry; apply Z.ltb_ge; lia).
  cbn [orb]. rewrite !Nat2Z.id.
  rewrite skipn_app, skipn_all, Nat.sub_diag. cbn [skipn app].
  rewrite firstn_app, firstn_all, Nat.sub_diag. cbn [firstn].
  rewrite app_nil_r. unfold set_pos; cbn [data pos].
  rewrite standing_app. reflexivity.
Qed.

Lemma b2z_byte_of_Z z : 0 <= z < 256 -> b2z (byte_of_Z z) = z.
Proof.
  intros Hz. unfold b2z, byte_of_Z.
  destruct (Byte.of_N (Z.to_N z)) as [b|] eqn:E.
  - apply Byte.to_of_N in E. rewrite E. lia.
  - apply Byte.of_N_None_iff in E. lia.
Qed.

Lemma le_uint_u32 n : 0 <= n < 2 ^ 32 -> le_uint (u32 n) = n.
Proof.
  intros Hn. unfold u32. cbn [le_uint].
  rewrite !b2z_byte_of_Z by (apply Z.mod_pos_bound; lia).
  change (2 ^ 32) with 4294967296 in Hn.
  assert (n / 16777216 < 256) by (apply Z.div_lt_upper_bound; lia).
  assert (0 <= n / 16777216) by (apply Z.div_pos; lia).
  rewrite (Z.mod_small (n / 16777216)) by lia.
  pose proof (Z.div_mod n 256 ltac:(lia)).
  pose proof (Z.div_mod (n / 256) 256 ltac:(lia)).
  pose proof (Z.div_mod (n / 256 / 256) 256 ltac:(lia)).
  rewrite !Z.div_div in * by lia.
  change (256 * 256) with 65536 in *. change (65536 * 256) with 16777216 in *.
  lia.
Qed.

Lemma length_u32 n : List.length (u32 n) = 4%nat.
Proof. reflexivity. Qed.

Lemma read_unsigned_int_standing pre n post :
  0 <= n < 2 ^ 32 ->
  read_unsigned_int (standing pre (u32 n ++ post)) = Ok (n, standing (pre ++ u32 n) post).
Proof.
  intros Hn. unfold read_unsigned_int, read_uint.
  change 4 with (Z.of_nat (List.length (u32 n))).
  rewrite read_binary_standing. cbn [bind]. rewrite le_uint_u32 by assumption.
  reflexivity.
Qed.

Lemma read_str_standing pre tag post :
  Z.of_nat (List.length (list_byte_of_string tag)) = 4 ->
  utf8_valid (map b2z (list_byte_of_string tag)) = true ->
  read_str (standing pre (list_byte_of_string tag ++ post)) 4
  = Ok (tag, standing (pre ++ list_byte_of_string tag) post).
Proof.
  intros Hlen Hutf. unfold read_str. rewrite <- Hlen.
  rewrite read_binary_standing. cbn [bind]. unfold decode_utf8.
  rewrite Hutf. cbn [bind]. rewrite string_of_list_byte_of_string. reflexivity.
Qed.

End ReaderFacts.

(** ** The demuxer on well-formed containers *)

Module GlbFacts.
Import BinaryReader Container ReaderFacts Glb.

Lemma length_encode_chunk c :
  List.length (encode_chunk c)
  = (4 + List.length (list_byte_of_string (fst c)) + List.length (snd c))%nat.
Proof. unfold encode_chunk. rewrite !length_app, length_u32. lia. Qed.

Lemma length_encode_chunks cs :
  (List.length cs <= List.length (encode_chunks cs))%nat.
Proof.
  induction cs as [|c cs IH]; cbn [encode_chunks concat map List.length]; [lia|].
  rewrite length_app, length_encode_chunk. fold (encode_chunks cs). lia.
Qed.

(** On the encoding of well-formed chunks the loop is [demux]. *)
Lemma read_chunks_encoded cs : forall fuel pre json_str body,
  forallb chunk_ok cs = true ->
  (List.length cs <= fuel)%nat ->
  read_chunks fuel (standing pre (encode_chunks cs))
    (Z.of_nat (List.length (encode_chunks cs))) json_str body
  = demux cs json_str body.
Proof.
  induction cs as [|[tag payload] cs IH]; intros fuel pre json_str body Hok Hfuel.
  - destruct fuel; reflexivity.
  - cbn [forallb] in Hok. apply andb_prop in Hok as [Hc Hcs].
    unfold chunk_ok in Hc; cbn [fst snd] in Hc.
    apply andb_prop in Hc as [Hc Hsize]. apply andb_prop in Hc as [Hlen Hutf].
    apply Nat.eqb_eq in Hlen. apply Z.ltb_lt in Hsize.
    destruct fuel as [|fuel]; [cbn [List.length] in Hfuel; lia|].
    cbn [List.length] in Hfuel.
    cbn [encode_chunks concat map]. fold (encode_chunks cs).
    cbn [read_chunks demux].
    assert (Hpos : (Z.of_nat (List.length (encode_chunk (tag, payload) ++ encode_chunks cs)) >? 0) = true).
    { apply Z.gtb_lt. rewrite length_app, length_encode_chunk. lia. }
    rewrite Hpos.
    destruct (is_some json_str && is_some body); [reflexivity|].
    unfold encode_chunk; cbn [fst snd]. rewrite <- !app_assoc.
    rewrite read_unsigned_int_standing by lia. cbn [bind].
    rewrite read_str_standing by (assumption || lia). cbn [bind].
    rewrite read_binary_standing. cbn [bind].
    replace (Z.of_nat (List.length (u32 (Z.of_nat (List.length payload))
               ++ list_byte_of_string tag ++ payload ++ encode_chunks cs))
             - 4 - 4 - Z.of_nat (List.length payload))
      with (Z.of_nat (List.length (encode_chunks cs)))
      by (rewrite !length_app, length_u32, Hlen; lia).
    destruct (String.eqb tag BIN_tag); [apply IH; [assumption|lia]|].
    destruct (String.eqb tag "JSON"); [|reflexivity].
    destruct (decode_utf8 payload); cbn [bind]; [|reflexivity].
    apply IH; [assumption|lia].
Qed.

(** On a well-formed container [parse_glb] is [demux] and the statements
    after the loop. *)
Lemma parse_glb_encoded `{Runtime} cs :
  glb_ok cs = true ->
  parse_glb (encode_glb cs)
  = ('(json_str, body) <- demux cs None None ;; load_json json_str body).
Proof.
  intros Hok. unfold glb_ok in Hok. apply andb_prop in Hok as [Hcs Htotal].
  apply Z.ltb_lt in Htotal.
  unfold parse_glb, encode_glb.
  change (init ?d) with (standing [] d).
  rewrite read_str_standing by reflexivity. cbn [bind negb String.eqb].
  change (negb (String.eqb "glTF" "glTF")) with false. cbv iota.
  unfold read_as_data_type.
  change (GlConstants.UNSIGNED_INT =? GlConstants.UNSIGNED_INT) with true. cbv iota.
  fold (read_unsigned_int (standing ([] ++ list_byte_of_string "glTF")
          (u32 2 ++ u32 (12 + Z.of_nat (List.length (encode_chunks cs)))
             ++ encode_chunks cs))).
  rewrite read_unsigned_int_standing by lia. cbn [bind eq_int].
  change (negb (2 =? 2)) with false. cbv iota.
  fold (read_unsigned_int (standing (([] ++ list_byte_of_string "glTF") ++ u32 2)
          (u32 (12 + Z.of_nat (List.length (encode_chunks cs)))
             ++ encode_chunks cs))).
  rewrite read_unsigned_int_standing by lia. cbn [bind as_index].
  replace (12 + Z.of_nat (List.length (encode_chunks cs)) - 12)
    with (Z.of_nat (List.length (encode_chunks cs))) by lia.
  rewrite read_chunks_encoded; [reflexivity|assumption|].
  pose proof (length_encode_chunks cs). rewrite !length_app. lia.
Qed.

(** *** The bound on the chunk loop is never reached *)

Lemma read_binary_ok br size bs br' :
  read_binary br size = Ok (bs, br') ->
  data br' = data br /\ pos br' = pos br + size
  /\ 0 <= pos br /\ 0 <= size
  /\ pos br + size <= Z.of_nat (List.length (data br)).
Proof.
  unfold read_binary.
  destruct (pos br <? 0) eqn:E1; [discriminate|].
  destruct (size <? 0) eqn:E2; [discriminate|].
  destruct (Z.of_nat (List.length (data br)) <? pos br + size) eqn:E3; [discriminate|].
  cbn [orb]. intros [= <- <-]. cbn [data pos set_pos].
  apply Z.ltb_ge in E1, E2, E3. repeat split; lia.
Qed.

Lemma read_uint_ok br width v br' :
  read_uint br width = Ok (v, br') ->
  data br' = data br /\ pos br' = pos br + width
  /\ 0 <= pos br /\ pos br + width <= Z.of_nat (List.length (data br)).
Proof.
  unfold read_uint. destruct (read_binary br width) as [[bs br1]|] eqn:E; [|discriminate].
  cbn [bind]. intros [= <- <-]. apply read_binary_ok in E. intuition.
Qed.

Lemma read_str_ok br size v br' :
  read_str br size = Ok (v, br') ->
  data br' = data br /\ pos br' = pos br + size
  /\ 0 <= pos br /\ pos br + size <= Z.of_nat (List.length (data br)).
Proof.
  unfold read_str. destruct (read_binary br size) as [[bs br1]|] eqn:E; [|discriminate].
  cbn [bind]. destruct (decode_utf8 bs); [|discriminate].
  cbn [bind]. intros [= <- <-]. apply read_binary_ok in E. intuition.
Qed.

Lemma read_binary_raise br size e :
  read_binary br size = Raise e -> e = OutOfBounds.
Proof.
  unfold read_binary.
  destruct (_ || _); [intros [= <-]; reflexivity|discriminate].
Qed.

Lemma decode_utf8_raise bs e :
  decode_utf8 bs = Raise e -> e = UnicodeDecodeError.
Proof.
  unfold decode_utf8. destruct (utf8_valid _); [discriminate|intros [= <-]; reflexivity].
Qed.

Lemma read_uint_raise br width e :
  read_uint br width = Raise e -> e = OutOfBounds.
Proof.
  unfold read_uint. destruct (read_binary br width) as [[bs br1]|e'] eqn:E; cbn [bind].
  - discriminate.
  - intros [= <-]. eapply read_binary_raise; eassumption.
Qed.

Lemma read_str_raise br size e :
  read_str br size = Raise e -> e = OutOfBounds \/ e = UnicodeDecodeError.
Proof.
  unfold read_str. destruct (read_binary br size) as [[bs br1]|e'] eqn:E; cbn [bind].
  - destruct (decode_utf8 bs) eqn:E'; cbn [bind]; [discriminate|].
    intros [= <-]. right. eapply decode_utf8_raise; eassumption.
  - intros [= <-]. left. eapply read_binary_raise; eassumption.
Qed.

Lemma read_chunks_bounded : forall fuel reader size json_str body,
  Z.max 0 (Z.of_nat (List.length (data reader)) - pos reader) < Z.of_nat fuel ->
  read_chunks fuel reader size json_str body <> Raise Diverged.
Proof.
  induction fuel as [|fuel IH]; intros reader size json_str body Hfuel; [lia|].
  cbn [read_chunks].
  destruct (size >? 0); [|discriminate].
  destruct (is_some json_str && is_some body); [discriminate|].
  unfold read_unsigned_int.
  destruct (read_uint reader 4) as [[chunk_size r1]|] eqn:E1; cbn [bind];
    [|apply read_uint_raise in E1; subst; discriminate].
  destruct (read_str r1 4) as [[chunk_type r2]|] eqn:E2; cbn [bind];
    [|apply read_str_raise in E2 as [-> | ->]; discriminate].
  destruct (read_binary r2 chunk_size) as [[chunk_data r3]|] eqn:E3; cbn [bind];
    [|apply read_binary_raise in E3; subst; discriminate].
  apply read_uint_ok in E1 as (D1 & P1 & ? & ?).
  apply read_str_ok in E2 as (D2 & P2 & ? & ?).
  apply read_binary_ok in E3 as (D3 & P3 & ? & ? & ?).
  assert (Hnext : Z.max 0 (Z.of_nat (List.length (data r3)) - pos r3) < Z.of_nat fuel).
  { rewrite D3, D2, D1 in *. lia. }
  destruct (String.eqb chunk_type BIN_tag); [apply IH; assumption|].
  destruct (String.eqb chunk_type "JSON"); [|discriminate].
  destruct (decode_utf8 chunk_data) eqn:E4; cbn [bind];
    [|apply decode_utf8_raise in E4; subst; discriminate].
  apply IH; assumption.
Qed.

(** [parse_glb] ends within the bound of its loop, whatever the bytes. *)
Lemma parse_glb_bounded `{Runtime} (file : bytes) :
  (forall s, json_loads s <> Raise Diverged) ->
  parse_glb file <> Raise Diverged.
Proof.
  intros Hloads. unfold parse_glb.
  destruct (read_str (init file) 4) as [[magic r1]|] eqn:E1; cbn [bind];
    [|apply read_str_raise in E1 as [-> | ->]; discriminate].
  destruct (negb (String.eqb magic "glTF")); [discriminate|].
  unfold read_as_data_type.
  change (GlConstants.UNSIGNED_INT =? GlConstants.UNSIGNED_INT) with true. cbv iota.
  destruct (read_uint r1 4) as [[version r2]|] eqn:E2; cbn [bind];
    [|apply read_uint_raise in E2; subst; discriminate].
  destruct (negb (eq_int (JInt version) 2)); [discriminate|].
  destruct (read_uint r2 4) as [[size r3]|] eqn:E3; cbn [bind];
    [|apply read_uint_raise in E3; subst; discriminate].
  apply read_str_ok in E1 as (D1 & P1 & ? & ?).
  apply read_uint_ok in E2 as (D2 & P2 & ? & ?).
  apply read_uint_ok in E3 as (D3 & P3 & ? & ?).
  cbn [init data pos] in *. cbn [as_index bind].
  destruct (read_chunks (S (List.length file)) r3 (size - 12) None None)
    as [[json_str body]|e] eqn:E4; cbn [bind].
  - unfold load_json. destruct json_str as [[|c s]|]; cbv beta iota;
      [discriminate| |discriminate].
    specialize (Hloads (String c s)).
    destruct (json_loads (String c s)) as [[]|]; cbn [bind]; congruence.
  - intros [= ->]. revert E4. apply read_chunks_bounded.
    rewrite D3, D2, D1. lia.
Qed.

(** *** Chunks of the two known kinds *)

Lemma demux_json_then (text : string) (rest : list chunk) json_str body :
  utf8_valid (map b2z (list_byte_of_string text)) = true ->
  is_some json_str && is_some body = false ->
  demux (json_chunk text :: rest) json_str body = demux rest (Some text) body.
Proof.
  intros Hutf Hfree. unfold json_chunk. cbn [demux].
  rewrite Hfree.
  change (String.eqb "JSON" BIN_tag) with false.
  change (String.eqb "JSON" "JSON") with true. cbv iota.
  unfold decode_utf8. rewrite Hutf. cbn [bind].
  rewrite string_of_list_byte_of_string. reflexivity.
Qed.

Lemma demux_bin_then (payload : bytes) (rest : list chunk) json_str body :
  is_some json_str && is_some body = false ->
  demux (bin_chunk payload :: rest) json_str body = demux rest json_str (Some payload).
Proof.
  intros Hfree. unfold bin_chunk. cbn [demux]. rewrite Hfree.
  change (String.eqb BIN_tag BIN_tag) with true. reflexivity.
Qed.

Lemma chunk_ok_json text :
  chunk_ok (json_chunk text)
  = (Z.of_nat (List.length (list_byte_of_string text)) <? 2 ^ 32).
Proof. reflexivity. Qed.

Lemma chunk_ok_bin payload :
  chunk_ok (bin_chunk payload) = (Z.of_nat (List.length payload) <? 2 ^ 32).
Proof. reflexivity. Qed.

Lemma length_encode_json text :
  List.length (encode_chunk (json_chunk text))
  = (8 + List.length (list_byte_of_string text))%nat.
Proof. rewrite length_encode_chunk. reflexivity. Qed.

Lemma length_encode_bin payload :
  List.length (encode_chunk (bin_chunk payload)) = (8 + List.length payload)%nat.
Proof. rewrite length_encode_chunk. reflexivity. Qed.

Lemma length_list_byte_of_string s :
  List.length (list_byte_of_string s) = String.length s.
Proof.
  unfold list_byte_of_string. rewrite length_map.
  induction s; cbn [list_ascii_of_string List.length String.length]; congruence.
Qed.





Ltac glb_ok_tac :=
  unfold glb_ok; cbn [forallb encode_chunks concat map];
  rewrite ?chunk_ok_json, ?chunk_ok_bin, ?length_app, ?length_encode_json,
    ?length_encode_bin, ?length_list_byte_of_string;
  cbn [List.length String.length];
  repeat (apply andb_true_intro; split);
  try reflexivity; apply Z.ltb_lt; lia.

End GlbFacts.

(** ** The texture-coordinate loop *)

Module MeshFacts.
Import Mesh.

Lemma str_of_Z_inj a b : str_of_Z a = str_of_Z b -> a = b.
Proof.
  unfold str_of_Z. intros E.
  assert (Hnn : forall z, Z.to_int z <> Decimal.Pos Decimal.Nil
                          /\ Z.to_int z <> Decimal.Neg Decimal.Nil).
  { intros [|q|q]; cbn [Z.to_int]; split; try discriminate;
      intros [= Hq]; exact (DecimalPos.Unsigned.to_uint_nonnil q Hq). }
  apply (f_equal DecimalString.NilZero.int_of_string) in E.
  rewrite !DecimalString.NilZero.isi in E by apply Hnn.
  injection E as E. apply (f_equal Z.of_int) in E.
  rewrite !DecimalZ.of_to in E. exact E.
Qed.

Lemma texcoord_name_inj i j : texcoord_name i = texcoord_name j -> i = j.
Proof.
  unfold texcoord_name, str_of_nat. cbn [String.append]. intros [= E].
  apply str_of_Z_inj in E. lia.
Qed.

Lemma dict_get_In {V} (d : list (string * V)) k v :
  dict_get d k = Some v -> In k (map fst d).
Proof.
  induction d as [|[k' v'] d IH]; cbn [dict_get map fst]; [discriminate|].
  destruct (String.eqb k k') eqn:E.
  - apply String.eqb_eq in E. subst. intros _. left. reflexivity.
  - intros H. right. auto.
Qed.

(** A mesh that has the first [k] texture-coordinate names has at least
    [k] attributes. *)
Lemma texcoord_names_bounded (vrm_mesh : obj) k :
  (forall j, (j < k)%nat -> dict_get vrm_mesh (texcoord_name j) <> None) ->
  (k <= List.length vrm_mesh)%nat.
Proof.
  intros Hall.
  enough (Hle : (List.length (map texcoord_name (seq 0 k))
                 <= List.length (map fst vrm_mesh))%nat)
    by (rewrite !length_map, length_seq in Hle; exact Hle).
  apply NoDup_incl_length.
  - apply Finite.Injective_map_NoDup; [|apply seq_NoDup].
    intros i j. apply texcoord_name_inj.
  - intros name Hin. apply in_map_iff in Hin as (j & <- & Hj).
    apply in_seq in Hj.
    destruct (dict_get vrm_mesh (texcoord_name j)) as [f|] eqn:E.
    + eapply dict_get_In; eassumption.
    + exfalso. apply (Hall j); [lia|assumption].
Qed.

Lemma map_result_raise {A B} (f : A -> result B) l e :
  map_result f l = Raise e -> exists a, In a l /\ f a = Raise e.
Proof.
  induction l as [|a l IH]; cbn [map_result]; [discriminate|].
  destruct (f a) as [b|e'] eqn:Ea; cbn [bind].
  - destruct (map_result f l) as [bs|e'] eqn:El; cbn [bind]; [discriminate|].
    intros [= <-]. destruct (IH eq_refl) as (a' & Hin & Ha'). exists a'. split;
      [right; assumption|assumption].
  - intros [= <-]. exists a. split; [left; reflexivity|assumption].
Qed.

Lemma list_index_raise {A} (l : list A) i e :
  list_index l i = Raise e -> e = IndexError.
Proof.
  unfold list_index. destruct (_ || _); [intros [= <-]; reflexivity|].
  destruct (nth_error _ _); [discriminate|intros [= <-]; reflexivity].
Qed.

Lemma fix_uv_bounded uv : fix_uv uv <> Raise Diverged.
Proof.
  unfold fix_uv.
  destruct (getitem uv (JInt 1)) as [v|e] eqn:E; cbn [bind].
  - destruct (add_one v) as [v'|e] eqn:Ea; cbn [bind].
    + destruct uv; discriminate.
    + destruct v; cbn [add_one] in Ea; congruence.
  - unfold getitem in E.
    destruct uv as [| | | |s|l|d]; cbn [as_index bind] in E; try congruence.
    + destruct (list_index (code_points s) 1) as [c|e'] eqn:E1; cbn [bind] in E;
        [discriminate|].
      apply list_index_raise in E1. congruence.
    + apply list_index_raise in E. congruence.
Qed.

Lemma fix_texcoord_bounded decoded_binary k :
  fix_texcoord decoded_binary k <> Raise Diverged.
Proof.
  unfold fix_texcoord.
  assert (Hmap : forall uvs, map_result fix_uv uvs <> Raise Diverged).
  { intros uvs E. apply map_result_raise in E as (uv & _ & E).
    exact (fix_uv_bounded uv E). }
  destruct (nth_error decoded_binary k) as [texcoord|]; [|discriminate].
  destruct texcoord; cbn [iter_values bind]; try discriminate;
    match goal with
    | |- context [map_result fix_uv ?l] =>
        specialize (Hmap l); destruct (map_result fix_uv l); cbn [bind];
        [discriminate|congruence]
    end.
Qed.

(** The bound on the loop over the texture-coordinate names is never
    reached. *)
Lemma texcoord_loop_bounded_from (vrm_mesh : obj) legacy : forall fuel k decoded_binary,
  (forall j, (j < k)%nat -> dict_get vrm_mesh (texcoord_name j) <> None) ->
  (List.length vrm_mesh < fuel + k)%nat ->
  texcoord_loop fuel vrm_mesh legacy k decoded_binary <> Raise Diverged.
Proof.
  induction fuel as [|fuel IH]; intros k decoded_binary Hall Hfuel.
  - apply texcoord_names_bounded in Hall. lia.
  - cbn [texcoord_loop]. fold (texcoord_name k).
    destruct (dict_get vrm_mesh (texcoord_name k)) as [texcoord|] eqn:E; [|discriminate].
    assert (Hnext : forall store',
               texcoord_loop fuel vrm_mesh legacy (S k) store' <> Raise Diverged).
    { intros store'. apply IH; [|lia].
      intros j Hj. destruct (Nat.eq_dec j k) as [->|Hne]; [congruence|].
      apply Hall. lia. }
    destruct legacy; cbn [bind]; [|apply Hnext].
    destruct texcoord; try discriminate.
    pose proof (fix_texcoord_bounded decoded_binary k0) as Hfix.
    destruct (fix_texcoord decoded_binary k0); cbn [bind]; [apply Hnext|congruence].
Qed.

Lemma texcoord_loop_bounded (vrm_mesh : obj) legacy decoded_binary :
  texcoord_loop (S (List.length vrm_mesh)) vrm_mesh legacy 0 decoded_binary
  <> Raise Diverged.
Proof. apply texcoord_loop_bounded_from; [intros j Hj; lia|lia]. Qed.

(** Without the legacy flag the loop changes nothing. *)
Lemma texcoord_loop_not_legacy (vrm_mesh : obj) : forall fuel k decoded_binary out,
  texcoord_loop fuel vrm_mesh false k decoded_binary = Ok out ->
  out = decoded_binary.
Proof.
  induction fuel as [|fuel IH]; intros k decoded_binary out; cbn [texcoord_loop];
    [discriminate|].
  destruct (dict_get vrm_mesh _); cbn [bind]; [apply IH|].
  intros [= <-]. reflexivity.
Qed.

Section NotLegacy.
Context `{Runtime}.

Lemma read_primitive_not_legacy doc decoded_binary n j mesh primitive vrm_mesh out :
  legacy_uv_flag doc = false ->
  read_primitive doc decoded_binary n j mesh primitive = Ok (vrm_mesh, out) ->
  out = decoded_binary.
Proof.
  intros Hflag. unfold read_primitive. rewrite Hflag.
  repeat match goal with
         | |- context [bind ?m _] =>
             lazymatch m with
             | texcoord_loop _ _ _ _ _ => fail
             | _ => destruct m; cbn [bind]; [|discriminate]
             end
         | |- context [if ?c then _ else _] => destruct c; cbn [bind]
         | |- Raise _ = _ -> _ => discriminate
         end.
  all: match goal with
       | |- context [texcoord_loop ?f ?m false ?k ?s] =>
           destruct (texcoord_loop f m false k s) as [s'|] eqn:E; cbn [bind];
           [apply texcoord_loop_not_legacy in E; subst s'|discriminate]
       end.
  all: repeat match goal with
         | |- context [bind ?m _] => destruct m; cbn [bind]; [|discriminate]
         | |- context [if ?c then _ else _] => destruct c; cbn [bind]
         | |- Raise _ = _ -> _ => discriminate
         end.
  all: intros [= _ <-]; reflexivity.
Qed.

Lemma read_primitives_not_legacy doc n mesh primitives :
  forall decoded_binary j built out,
    legacy_uv_flag doc = false ->
    read_primitives doc decoded_binary n j mesh primitives = Ok (built, out) ->
    out = decoded_binary.
Proof.
  induction primitives as [|primitive rest IH]; intros decoded_binary j built out Hflag;
    cbn [read_primitives].
  - intros [= _ <-]. reflexivity.
  - destruct (read_primitive doc decoded_binary n j mesh primitive) as [[m s1]|] eqn:E1;
      cbn [bind]; [|discriminate].
    destruct (read_primitives doc s1 n (S j) mesh rest) as [[ms s2]|] eqn:E2;
      cbn [bind]; [|discriminate].
    intros [= _ <-].
    apply read_primitive_not_legacy in E1; [|assumption].
    apply IH in E2; [|assumption]. congruence.
Qed.

Lemma read_meshes_not_legacy doc meshes :
  forall decoded_binary n built out,
    legacy_uv_flag doc = false ->
    read_meshes doc decoded_binary n meshes = Ok (built, out) ->
    out = decoded_binary.
Proof.
  induction meshes as [|mesh rest IH]; intros decoded_binary n built out Hflag;
    cbn [read_meshes].
  - intros [= _ <-]. reflexivity.
  - destruct (dict_get_default mesh "primitives" (JList [])); cbn [bind]; [|discriminate].
    destruct (iter_values _); cbn [bind]; [|discriminate].
    destruct (read_primitives doc decoded_binary n 0 mesh _) as [[ms s1]|] eqn:E1;
      cbn [bind]; [|discriminate].
    destruct (read_meshes doc s1 (S n) rest) as [[mss s2]|] eqn:E2;
      cbn [bind]; [|discriminate].
    intros [= _ <-].
    apply read_primitives_not_legacy in E1; [|assumption].
    apply IH in E2; [|assumption]. congruence.
Qed.

(** When the generator does not make the flag, [mesh_read] leaves every
    decoded array as it was. *)
Lemma mesh_read_not_legacy doc decoded_binary built out :
  legacy_uv_flag doc = false ->
  mesh_read doc decoded_binary = Ok (built, out) ->
  out = decoded_binary.
Proof.
  intros Hflag. unfold mesh_read.
  destruct (dict_get_default doc "meshes" (JList [])); cbn [bind]; [|discriminate].
  destruct (iter_values _); cbn [bind]; [|discriminate].
  apply read_meshes_not_legacy. assumption.
Qed.

End NotLegacy.

(** *** [mesh_read] ends within the bounds of its loops *)

Lemma bounded_bind {A B} (m : result A) (k : A -> result B) :
  bounded m -> (forall a, m = Ok a -> bounded (k a)) -> bounded (bind m k).
Proof.
  unfold bounded. destruct m as [a|e]; cbn [bind]; intros Hm Hk.
  - apply Hk. reflexivity.
  - intros [= ->]. apply Hm. reflexivity.
Qed.

Lemma bounded_ok {A} (a : A) : bounded (Ok a).
Proof. discriminate. Qed.

Lemma as_index_bounded v : bounded (as_index v).
Proof. destruct v; discriminate. Qed.

Lemma list_index_bounded {A} (l : list A) i : bounded (list_index l i).
Proof. intros E. apply list_index_raise in E. discriminate. Qed.

Lemma list_position_bounded {A} (l : list A) i : bounded (list_position l i).
Proof. unfold list_position. destruct (_ || _); discriminate. Qed.

Lemma getitem_bounded target key : bounded (getitem target key).
Proof.
  unfold getitem. destruct target; try discriminate.
  - apply bounded_bind; [apply as_index_bounded|intros].
    apply bounded_bind; [apply list_index_bounded|intros; apply bounded_ok].
  - apply bounded_bind; [apply as_index_bounded|intros; apply list_index_bounded].
  - destruct key; try discriminate. destruct (dict_get d s); discriminate.
Qed.

Lemma getkey_bounded target k : bounded (getkey target k).
Proof. apply getitem_bounded. Qed.

Lemma contains_bounded target k : bounded (contains target k).
Proof. destruct target; discriminate. Qed.

Lemma dict_get_default_bounded target k default :
  bounded (dict_get_default target k default).
Proof. destruct target; discriminate. Qed.

Lemma iter_values_bounded v : bounded (iter_values v).
Proof. destruct v; discriminate. Qed.

Lemma triples_bounded l : bounded (triples l).
Proof.
  assert (H : forall n l, (List.length l <= n)%nat -> bounded (triples l)).
  { induction n as [|n IH]; intros [|a [|b [|c r]]] Hl; cbn [triples];
      try discriminate; cbn [List.length] in Hl; try lia.
    apply bounded_bind; [apply IH; lia|intros; apply bounded_ok]. }
  apply (H (List.length l)). lia.
Qed.

Lemma reshape_other_bounded `{Runtime} a : bounded (reshape_other a).
Proof. unfold reshape_other. destruct (numpy_reshape_other a); discriminate. Qed.

Lemma numpy_reshape_3_bounded `{Runtime} a : bounded (numpy_reshape_3 a).
Proof.
  unfold numpy_reshape_3. destruct a; try apply reshape_other_bounded.
  destruct (uniform l); [apply triples_bounded|].
  destruct l as [|[] ?]; try apply reshape_other_bounded.
  destruct (_ && _); [apply triples_bounded|apply reshape_other_bounded].
Qed.

Lemma add_str_bounded v s : bounded (add_str v s).
Proof. destruct v; discriminate. Qed.

Lemma keys_of_bounded v : bounded (keys_of v).
Proof. destruct v; discriminate. Qed.

Ltac bounded_step :=
  first
    [ apply bounded_ok
    | apply getkey_bounded | apply getitem_bounded | apply contains_bounded
    | apply dict_get_default_bounded | apply iter_values_bounded
    | apply as_index_bounded | apply list_position_bounded
    | apply numpy_reshape_3_bounded | apply add_str_bounded | apply keys_of_bounded
    | apply texcoord_loop_bounded
    | discriminate
    | apply bounded_bind; [|intros ? _]
    | match goal with
      | |- bounded (if ?c then _ else _) => destruct c
      | |- bounded (let '(_, _) := ?p in _) => destruct p
      end ].

Section Bounded.
Context `{Runtime}.

Lemma set_attributes_bounded decoded_binary vertex_attributes attrs :
  forall vrm_mesh,
    bounded (set_attributes decoded_binary vertex_attributes attrs vrm_mesh).
Proof.
  induction attrs as [|attr rest IH]; intros vrm_mesh; cbn [set_attributes].
  - apply bounded_ok.
  - repeat bounded_step. apply IH.
Qed.

Lemma read_targets_bounded decoded_binary primitive targets :
  forall i acc, bounded (read_targets decoded_binary primitive targets i acc).
Proof.
  induction targets as [|morph_target rest IH]; intros i acc; cbn [read_targets].
  - apply bounded_ok.
  - repeat bounded_step; apply IH.
Qed.

Lemma read_primitive_bounded doc decoded_binary n j mesh primitive :
  bounded (read_primitive doc decoded_binary n j mesh primitive).
Proof.
  unfold read_primitive.
  repeat first [ apply set_attributes_bounded | apply read_targets_bounded
               | bounded_step ].
Qed.

Lemma read_primitives_bounded doc n mesh primitives :
  forall decoded_binary j,
    bounded (read_primitives doc decoded_binary n j mesh primitives).
Proof.
  induction primitives as [|primitive rest IH]; intros decoded_binary j;
    cbn [read_primitives].
  - apply bounded_ok.
  - apply bounded_bind; [apply read_primitive_bounded|intros [? ?] _].
    apply bounded_bind; [apply IH|intros [? ?] _]. apply bounded_ok.
Qed.

Lemma read_meshes_bounded doc meshes :
  forall decoded_binary n, bounded (read_meshes doc decoded_binary n meshes).
Proof.
  induction meshes as [|mesh rest IH]; intros decoded_binary n; cbn [read_meshes].
  - apply bounded_ok.
  - apply bounded_bind; [apply dict_get_default_bounded|intros ? _].
    apply bounded_bind; [apply iter_values_bounded|intros ? _].
    apply bounded_bind; [apply read_primitives_bounded|intros [? ?] _].
    apply bounded_bind; [apply IH|intros [? ?] _]. apply bounded_ok.
Qed.

(** [mesh_read] returns or raises a Python exception: the bound of the
    texture-coordinate loop is never what stops it. *)
Lemma mesh_read_bounded doc decoded_binary :
  mesh_read doc decoded_binary <> Raise Diverged.
Proof.
  unfold mesh_read.
  apply bounded_bind; [apply dict_get_default_bounded|intros ? _].
  apply bounded_bind; [apply iter_values_bounded|intros ? _].
  apply read_meshes_bounded.
Qed.

End Bounded.
End MeshFacts.

(** ** The license gate *)

Module LicenseFacts.
Import License.

Lemma re_match_chr c p s :
  re_match (Chr c :: p) s = true <-> exists s', s = String c s' /\ re_match p s' = true.
Proof.
  cbn [re_match]. destruct s as [|c' s'].
  - split; [discriminate|intros (? & ? & _); discriminate].
  - split.
    + intros H. apply andb_prop in H as [Hc Hp]. apply Ascii.eqb_eq in Hc. subst.
      eauto.
    + intros (s'' & [= -> ->] & Hp). rewrite Ascii.eqb_refl. exact Hp.
Qed.

Lemma re_match_star p s :
  re_match (AnyStar :: p) s = true
  <-> exists mid rest,
        s = (mid ++ rest)%string /\ no_newline mid = true /\ re_match p rest = true.
Proof.
  cbn [re_match]. induction s as [|c s IH].
  - split.
    + intros H. apply orb_prop in H as [H|H]; [|discriminate].
      exists EmptyString, EmptyString. auto.
    + intros (mid & rest & Hs & _ & Hp).
      destruct mid; [|discriminate]. cbn in Hs. subst rest. rewrite Hp. reflexivity.
  - split.
    + intros H. apply orb_prop in H as [H|H].
      * exists EmptyString, (String c s). auto.
      * apply andb_prop in H as [Hc Hs]. apply IH in Hs as (mid & rest & -> & Hm & Hp).
        exists (String c mid), rest. cbn [no_newline String.append].
        rewrite Hc, Hm. auto.
    + intros (mid & rest & Hs & Hm & Hp). destruct mid as [|c' mid].
      * cbn in Hs. subst rest. rewrite Hp. reflexivity.
      * cbn [String.append] in Hs. injection Hs as -> ->.
        cbn [no_newline] in Hm. apply andb_prop in Hm as [Hc Hm].
        apply orb_true_intro. right. rewrite Hc. cbn [andb].
        apply IH. eauto.
Qed.

Lemma re_CC_ND_spec name :
  re_match re_CC_ND name = true <-> no_derivatives_name name.
Proof.
  unfold re_CC_ND, no_derivatives_name. cbn [re_lit list_ascii_of_string map app].
  split.
  - intros H.
    apply re_match_chr in H as (s1 & -> & H).
    apply re_match_chr in H as (s2 & -> & H).
    apply re_match_star in H as (mid & r & -> & Hm & H).
    apply re_match_chr in H as (s3 & -> & H).
    apply re_match_chr in H as (s4 & -> & H).
    exists mid, s4. auto.
  - intros (mid & rest & -> & Hm).
    apply re_match_chr. eexists; split; [reflexivity|].
    apply re_match_chr. eexists; split; [reflexivity|].
    apply re_match_star. exists mid, ("ND" ++ rest)%string. repeat split; [assumption|].
    apply re_match_chr. eexists; split; [reflexivity|].
    apply re_match_chr. eexists; split; [reflexivity|].
    apply re_match_star. exists EmptyString, rest. auto.
Qed.

Section Frame.
Context `{Runtime}.

(** The URL validation only appends: what it adds does not depend on
    what the list held. *)
Lemma validate_license_url_frame url_str json_key props :
  validate_license_url url_str json_key props
  = props ++ validate_license_url url_str json_key [].
Proof.
  unfold validate_license_url.
  destruct (String.eqb url_str ""); [symmetry; apply app_nil_r|].
  destruct (urlparse url_str) as [u|]; [|reflexivity].
  unfold validate_vroid_hub_license_url, validate_uni_virtual_license_url.
  destruct (negb (opt_eqb (hostname u) "hub.vroid.com")
            || negb (endswith (path u) "/license")).
  - destruct (negb (opt_eqb (hostname u) "uv-license.com")
              || negb (endswith (path u) "/license")); [reflexivity|].
    destruct (opt_eqb _ "true"); [reflexivity|symmetry; apply app_nil_r].
  - destruct (opt_eqb _ "disallow"); [reflexivity|symmetry; apply app_nil_r].
Qed.

Lemma license_name_check_frame name props :
  license_name_check name props = props ++ license_name_check name [].
Proof.
  unfold license_name_check.
  destruct (re_match re_CC_ND name); [reflexivity|symmetry; apply app_nil_r].
Qed.

Lemma other_permission_check_frame doc props :
  other_permission_check doc props = props ++ other_permission_check doc [].
Proof. apply validate_license_url_frame. Qed.

Lemma other_license_check_frame doc name props :
  other_license_check doc name props = props ++ other_license_check doc name [].
Proof.
  unfold other_license_check.
  destruct (String.eqb name "Other"); [|symmetry; apply app_nil_r].
  destruct (String.eqb _ ""); [reflexivity|apply validate_license_url_frame].
Qed.

(** The aggregated list is the findings of the three checks, in order. *)
Lemma confirmations_of_split doc :
  confirmations_of doc
  = license_name_check (meta_field doc "licenseName") []
      ++ other_permission_check doc []
      ++ other_license_check doc (meta_field doc "licenseName") [].
Proof.
  unfold confirmations_of.
  rewrite other_license_check_frame, other_permission_check_frame.
  rewrite <- app_assoc. reflexivity.
Qed.

End Frame.
End LicenseFacts.

(** ** The accessor decoder *)

Module DecodeFacts.
Import BinaryReader Decode GlbFacts.

Lemma Forall2_nth_error {A B} (P : A -> B -> Prop) l1 l2 :
  Forall2 P l1 l2 ->
  forall i a, nth_error l1 i = Some a ->
              exists b, nth_error l2 i = Some b /\ P a b.
Proof.
  induction 1 as [|x y l1 l2 Hxy _ IH]; intros i a Hi.
  - destruct i; discriminate.
  - destruct i as [|i]; cbn [nth_error] in *.
    + injection Hi as <-. eauto.
    + eauto.
Qed.

Lemma Forall2_length_eq {A B} (P : A -> B -> Prop) l1 l2 :
  Forall2 P l1 l2 -> List.length l2 = List.length l1.
Proof. induction 1; cbn [List.length]; congruence. Qed.

Lemma read_uint_data br width v br' :
  read_uint br width = Ok (v, br') -> data br' = data br.
Proof. intros E. apply read_uint_ok in E. tauto. Qed.

Lemma read_sint_data br width v br' :
  read_sint br width = Ok (v, br') -> data br' = data br.
Proof.
  unfold read_sint. destruct (read_binary br width) as [[bs br1]|] eqn:E; [|discriminate].
  cbn [bind]. intros [= <- <-]. apply read_binary_ok in E. tauto.
Qed.

Lemma read_as_data_type_ok br data_type v br' :
  read_as_data_type br data_type = Ok (v, br') ->
  data br' = data br /\ data_size v = 1%nat.
Proof.
  unfold read_as_data_type. destruct data_type; try discriminate.
  repeat match goal with
         | |- context [if ?c then _ else _] => destruct c
         end; try discriminate.
  all: match goal with
       | |- context [read_uint ?b ?w] =>
           destruct (read_uint b w) as [[x b1]|] eqn:E; [|discriminate];
           apply read_uint_data in E
       | |- context [read_sint ?b ?w] =>
           destruct (read_sint b w) as [[x b1]|] eqn:E; [|discriminate];
           apply read_sint_data in E
       end; cbn [bind]; intros [= <- <-]; auto.
Qed.

Lemma read_component_ok br accessor v br' :
  read_component br accessor = Ok (v, br') ->
  data br' = data br /\ data_size v = 1%nat.
Proof.
  unfold read_component.
  destruct (getkey accessor "componentType"); cbn [bind]; [|discriminate].
  apply read_as_data_type_ok.
Qed.

Lemma read_group_ok n : forall br accessor vs br',
  read_group n br accessor = Ok (vs, br') ->
  data br' = data br /\ List.length vs = n.
Proof.
  induction n as [|n IH]; intros br accessor vs br'; cbn [read_group].
  - intros [= <- <-]. auto.
  - destruct (read_component br accessor) as [[v b1]|] eqn:E1; cbn [bind]; [|discriminate].
    destruct (read_group n b1 accessor) as [[vs' b2]|] eqn:E2; cbn [bind]; [|discriminate].
    intros [= <- <-]. apply read_component_ok in E1 as [D1 _].
    apply IH in E2 as [D2 L]. cbn [List.length]. split; congruence.
Qed.

Lemma read_data_ok type_num br accessor d br' :
  0 < type_num ->
  read_data type_num br accessor = Ok (d, br') ->
  data br' = data br /\ data_size d = Z.to_nat type_num.
Proof.
  intros Hpos. unfold read_data. destruct (type_num =? 1) eqn:E.
  - apply Z.eqb_eq in E. subst. apply read_component_ok.
  - destruct (read_group (Z.to_nat type_num) br accessor) as [[vs b1]|] eqn:E1;
      cbn [bind]; [|discriminate].
    intros [= <- <-]. apply read_group_ok in E1 as [D L]. auto.
Qed.

Lemma read_data_list_ok type_num accessor count : forall br l br',
  0 < type_num ->
  read_data_list count type_num br accessor = Ok (l, br') ->
  data br' = data br
  /\ flat_count (JList l) = (count * Z.to_nat type_num)%nat.
Proof.
  unfold flat_count.
  induction count as [|count IH]; intros br l br' Hpos; cbn [read_data_list].
  - intros [= <- <-]. auto.
  - destruct (read_data type_num br accessor) as [[d b1]|] eqn:E1; cbn [bind]; [|discriminate].
    destruct (read_data_list count type_num b1 accessor) as [[l' b2]|] eqn:E2;
      cbn [bind]; [|discriminate].
    intros [= <- <-]. apply read_data_ok in E1 as [D1 S1]; [|assumption].
    apply IH in E2 as [D2 F]; [|assumption].
    split; [congruence|]. unfold list_sum in *. cbn [map fold_right].
    rewrite S1, F. lia.
Qed.

Lemma type_num_of_pos key n : type_num_of key = Ok n -> 0 < n.
Proof.
  unfold type_num_of. destruct key; try discriminate.
  unfold type_num_dict. cbn [dict_get].
  repeat match goal with
         | |- context [if ?c then _ else _] => destruct c
         end; intros [= <-]; lia.
Qed.

(** An accessor is decoded from where its buffer view starts, wherever the
    reader stood; one without a buffer view leaves the reader alone. *)
Lemma decode_accessor_value buffer_views br accessor :
  match decode_accessor buffer_views br accessor with
  | Ok (decoded, br') =>
      decode_value buffer_views (data br) accessor = Ok decoded
      /\ data br' = data br
  | Raise e => decode_value buffer_views (data br) accessor = Raise e
  end.
Proof.
  unfold decode_value, decode_accessor.
  destruct (getkey accessor "type") as [type_tag|]; cbn [bind]; [|reflexivity].
  destruct (type_num_of type_tag) as [type_num|] eqn:Et; cbn [bind]; [|reflexivity].
  destruct (contains accessor "bufferView") as [[|]|]; cbn [bind negb]; auto.
  destruct (getkey accessor "bufferView") as [view_index|]; cbn [bind]; [|reflexivity].
  destruct (getitem buffer_views view_index) as [view|]; cbn [bind]; [|reflexivity].
  destruct (getkey view "byteOffset") as [offset|]; cbn [bind]; [|reflexivity].
  unfold seek.
  destruct (as_index offset) as [p|]; cbn [bind]; [|reflexivity].
  destruct (getkey accessor "count") as [count|]; cbn [bind]; [|reflexivity].
  destruct (range_len count) as [n|]; cbn [bind]; [|reflexivity].
  unfold set_pos, init. cbn [data].
  destruct (read_data_list n type_num {| data := data br; pos := p |} accessor)
    as [[l b1]|] eqn:E; cbn [bind]; [|reflexivity].
  apply read_data_list_ok in E as [D _]; [|eapply type_num_of_pos; eassumption].
  auto.
Qed.

(** For an accessor with a buffer view, the flattened size of what it
    decodes to is the declared count (none if negative) times the arity. *)
Lemma decode_value_count buffer_views binary accessor decoded :
  decode_value buffer_views binary accessor = Ok decoded ->
  contains accessor "bufferView" = Ok true ->
  exists count arity,
    declared_count accessor = Ok count /\ arity_of accessor = Ok arity
    /\ flat_count decoded = (Z.to_nat count * Z.to_nat arity)%nat.
Proof.
  unfold decode_value, decode_accessor, declared_count, arity_of.
  intros H Hview. rewrite Hview in H. cbn [negb] in H.
  destruct (getkey accessor "type") as [type_tag|]; cbn [bind] in *; [|discriminate].
  destruct (type_num_of type_tag) as [type_num|] eqn:Et; cbn [bind] in *; [|discriminate].
  destruct (getkey accessor "bufferView") as [view_index|]; cbn [bind] in *; [|discriminate].
  destruct (getitem buffer_views view_index) as [view|]; cbn [bind] in *; [|discriminate].
  destruct (getkey view "byteOffset") as [offset|]; cbn [bind] in *; [|discriminate].
  destruct (seek (init binary) offset) as [b0|]; cbn [bind] in *; [|discriminate].
  destruct (getkey accessor "count") as [count|]; cbn [bind] in *; [|discriminate].
  unfold range_len in H.
  destruct (as_index count) as [c|]; cbn [bind] in *; [|discriminate].
  destruct (read_data_list (Z.to_nat c) type_num b0 accessor) as [[l b1]|] eqn:E;
    cbn [bind] in *; [|discriminate].
  injection H as <-.
  apply read_data_list_ok in E as [_ F]; [|eapply type_num_of_pos; eassumption].
  exists c, type_num. auto.
Qed.

(** The loop over the accessors decodes each one on its own. *)
Lemma decode_accessors_each buffer_views accessors : forall br,
  decode_accessors buffer_views br accessors
  = map_result (decode_value buffer_views (data br)) accessors.
Proof.
  induction accessors as [|accessor rest IH]; intros br;
    cbn [decode_accessors map_result]; [reflexivity|].
  pose proof (decode_accessor_value buffer_views br accessor) as Hv.
  destruct (decode_accessor buffer_views br accessor) as [[decoded br']|e].
  - destruct Hv as [-> D]. cbn [bind]. rewrite IH, D. reflexivity.
  - rewrite Hv. reflexivity.
Qed.

Lemma map_result_ok {A B} (f : A -> result B) l : forall out,
  map_result f l = Ok out <-> Forall2 (fun a b => f a = Ok b) l out.
Proof.
  induction l as [|a l IH]; intros out; cbn [map_result].
  - split; [intros [= <-]; constructor|intros H; inversion H; reflexivity].
  - split.
    + destruct (f a) as [b|] eqn:Ea; cbn [bind]; [|discriminate].
      destruct (map_result f l) as [bs|] eqn:El; cbn [bind]; [|discriminate].
      intros [= <-]. constructor; [assumption|]. apply IH. reflexivity.
    + intros H. inversion H as [|a' b l' bs Ha Hl]; subst.
      rewrite Ha. cbn [bind]. apply IH in Hl. rewrite Hl. reflexivity.
Qed.

Lemma map_result_app {A B} (f : A -> result B) l1 l2 :
  map_result f (l1 ++ l2)
  = (o1 <- map_result f l1 ;; o2 <- map_result f l2 ;; Ok (o1 ++ o2)).
Proof.
  induction l1 as [|a l1 IH]; cbn [map_result app bind].
  - destruct (map_result f l2); reflexivity.
  - destruct (f a); cbn [bind]; [|reflexivity].
    rewrite IH. destruct (map_result f l1); cbn [bind]; [|reflexivity].
    destruct (map_result f l2); reflexivity.
Qed.

Lemma map_result_total {A B} (f : A -> result B) l :
  (forall a, In a l -> is_ok (f a) = true) ->
  exists out, map_result f l = Ok out.
Proof.
  induction l as [|a l IH]; intros Hall; cbn [map_result]; [eauto|].
  pose proof (Hall a (or_introl eq_refl)) as Ha.
  destruct (f a) as [b|]; [|discriminate]. cbn [bind].
  destruct IH as [out ->]; [intros; apply Hall; right; assumption|].
  cbn [bind]. eauto.
Qed.

Lemma decode_bin_each json_data binary buffer_views accessors :
  getkey json_data "bufferViews" = Ok buffer_views ->
  getkey json_data "accessors" = Ok (JList accessors) ->
  decode_bin json_data binary
  = map_result (decode_value buffer_views binary) accessors.
Proof.
  intros Hv Ha. unfold decode_bin. rewrite Hv, Ha. cbn [bind iter_values].
  apply decode_accessors_each.
Qed.

(** *** When an accessor decodes *)

Lemma read_binary_fits br size :
  0 <= pos br -> 0 <= size -> pos br + size <= Z.of_nat (List.length (data br)) ->
  exists bs, read_binary br size = Ok (bs, mk (data br) (pos br + size)).
Proof.
  intros H1 H2 H3. unfold read_binary.
  replace (pos br <? 0) with false by (symmetry; apply Z.ltb_ge; lia).
  replace (size <? 0) with false by (symmetry; apply Z.ltb_ge; lia).
  replace (Z.of_nat (List.length (data br)) <? pos br + size) with false
    by (symmetry; apply Z.ltb_ge; lia).
  cbn [orb]. eauto.
Qed.

Lemma read_as_data_type_fits br data_type width :
  width_of data_type = Some width ->
  0 <= pos br -> pos br + width <= Z.of_nat (List.length (data br)) ->
  0 < width
  /\ exists v, read_as_data_type br data_type = Ok (v, mk (data br) (pos br + width)).
Proof.
  unfold width_of, read_as_data_type. destruct data_type; try discriminate.
  unfold GlConstants.BYTE, GlConstants.UNSIGNED_BYTE, GlConstants.SHORT,
    GlConstants.UNSIGNED_SHORT, GlConstants.INT, GlConstants.UNSIGNED_INT,
    GlConstants.FLOAT.
  intros Hw Hp Hl.
  destruct (z =? 5120) eqn:E0; [apply Z.eqb_eq in E0; subst z|];
  [|destruct (z =? 5121) eqn:E1; [apply Z.eqb_eq in E1; subst z|]];
  [| |destruct (z =? 5122) eqn:E2; [apply Z.eqb_eq in E2; subst z|]];
  [| | |destruct (z =? 5123) eqn:E3; [apply Z.eqb_eq in E3; subst z|]];
  [| | | |destruct (z =? 5124) eqn:E4; [apply Z.eqb_eq in E4; subst z|]];
  [| | | | |destruct (z =? 5125) eqn:E5; [apply Z.eqb_eq in E5; subst z|]];
  [| | | | | |destruct (z =? 5126) eqn:E6; [apply Z.eqb_eq in E6; subst z|]];
  cbn [orb Z.eqb Pos.eqb] in Hw |- *; try discriminate;
  injection Hw as <-; (split; [lia|]);
  unfold read_uint, read_sint;
  match type of Hl with
  | pos br + ?w <= _ =>
      destruct (read_binary_fits br w Hp ltac:(lia) Hl) as [bs ->]
  end;
  cbn [bind]; eauto.
Qed.

Lemma read_group_fits accessor component_type width n : forall br,
  getkey accessor "componentType" = Ok component_type ->
  width_of component_type = Some width ->
  0 <= pos br ->
  pos br + Z.of_nat n * width <= Z.of_nat (List.length (data br)) ->
  0 < width
  /\ exists vs,
       read_group n br accessor = Ok (vs, mk (data br) (pos br + Z.of_nat n * width)).
Proof.
  intros br Hc Hw. revert br.
  assert (Hpos : 0 < width).
  { unfold width_of in Hw. destruct component_type; try discriminate.
    repeat match type of Hw with
           | (if ?c then _ else _) = _ => destruct c
           end; try discriminate; injection Hw as <-; lia. }
  induction n as [|n IH]; intros br Hp Hl; (split; [assumption|]); cbn [read_group].
  - exists []. destruct br as [d p]. cbn [data pos]. do 3 f_equal. lia.
  - unfold read_component. rewrite Hc. cbn [bind].
    destruct (read_as_data_type_fits br component_type width Hw Hp ltac:(nia))
      as [_ [v ->]]. cbn [bind].
    destruct (IH (mk (data br) (pos br + width))) as [_ [vs ->]];
      cbn [data pos]; [lia|nia|].
    cbn [bind]. exists (v :: vs). do 3 f_equal. lia.
Qed.

Lemma read_data_fits accessor component_type width type_num br :
  getkey accessor "componentType" = Ok component_type ->
  width_of component_type = Some width ->
  0 < type_num ->
  0 <= pos br ->
  pos br + type_num * width <= Z.of_nat (List.length (data br)) ->
  exists d,
    read_data type_num br accessor = Ok (d, mk (data br) (pos br + type_num * width)).
Proof.
  intros Hc Hw Ht Hp Hl. unfold read_data. destruct (type_num =? 1) eqn:E.
  - apply Z.eqb_eq in E. subst. unfold read_component. rewrite Hc. cbn [bind].
    destruct (read_as_data_type_fits br component_type width Hw Hp ltac:(lia))
      as [_ [v ->]]. exists v. do 3 f_equal. lia.
  - destruct (read_group_fits accessor component_type width (Z.to_nat type_num) br
                Hc Hw Hp ltac:(rewrite Z2Nat.id by lia; lia)) as [_ [vs ->]].
    cbn [bind]. exists (JList vs). rewrite Z2Nat.id by lia. reflexivity.
Qed.

Lemma read_data_list_fits accessor component_type width type_num count : forall br,
  getkey accessor "componentType" = Ok component_type ->
  width_of component_type = Some width ->
  0 < type_num -> 0 < width ->
  0 <= pos br ->
  pos br + Z.of_nat count * type_num * width <= Z.of_nat (List.length (data br)) ->
  exists l br', read_data_list count type_num br accessor = Ok (l, br').
Proof.
  induction count as [|count IH]; intros br Hc Hw Ht Hwp Hp Hl; cbn [read_data_list].
  - eauto.
  - destruct (read_data_fits accessor component_type width type_num br Hc Hw Ht Hp
                ltac:(nia)) as [d ->]. cbn [bind].
    destruct (IH (mk (data br) (pos br + type_num * width)) Hc Hw Ht Hwp)
      as (l & br' & ->); cbn [data pos]; [nia|nia|].
    cbn [bind]. eauto.
Qed.

(** An accessor that fits decodes. *)
Lemma accessor_fits_decodes buffer_views binary accessor :
  accessor_fits buffer_views binary accessor = true ->
  is_ok (decode_value buffer_views binary accessor) = true.
Proof.
  unfold accessor_fits, arity_of, view_offset, declared_count, component_width,
    decode_value, decode_accessor, seek, range_len.
  destruct (getkey accessor "type") as [type_tag|]; cbn [bind]; [|discriminate].
  destruct (type_num_of type_tag) as [type_num|] eqn:Et; cbn [bind]; [|discriminate].
  apply type_num_of_pos in Et.
  destruct (contains accessor "bufferView") as [[|]|]; cbn [bind negb is_ok];
    [|reflexivity|discriminate].
  destruct (getkey accessor "bufferView") as [view_index|]; cbn [bind]; [|discriminate].
  destruct (getitem buffer_views view_index) as [view|]; cbn [bind]; [|discriminate].
  destruct (getkey view "byteOffset") as [offset|]; cbn [bind]; [|discriminate].
  destruct (as_index offset) as [p|]; cbn [bind]; [|discriminate].
  destruct (getkey accessor "count") as [count|]; cbn [bind]; [|discriminate].
  destruct (as_index count) as [c|]; cbn [bind]; [|discriminate].
  intros H. apply orb_prop in H as [H|H].
  - apply Z.leb_le in H. replace (Z.to_nat c) with 0%nat by lia. reflexivity.
  - destruct (getkey accessor "componentType") as [component_type|] eqn:Ec;
      [|discriminate].
    destruct (width_of component_type) as [width|] eqn:Ew; [|discriminate].
    apply andb_prop in H as [H1 H2]. apply Z.leb_le in H1, H2.
    destruct (Z.le_gt_cases c 0) as [Hc|Hc].
    { replace (Z.to_nat c) with 0%nat by lia. reflexivity. }
    assert (Hwp : 0 < width).
    { unfold width_of in Ew. destruct component_type; try discriminate.
      repeat match type of Ew with
             | (if ?c then _ else _) = _ => destruct c
             end; try discriminate; injection Ew as <-; lia. }
    destruct (read_data_list_fits accessor component_type width type_num (Z.to_nat c)
                (set_pos (init binary) p) Ec Ew Et Hwp) as (l & br' & ->);
      cbn [set_pos init data pos]; [lia|rewrite Z2Nat.id by lia; lia|].
    reflexivity.
Qed.

(** *** An accessor that decodes fits *)

Lemma read_binary_moves br size bs br' :
  read_binary br size = Ok (bs, br') ->
  br' = mk (data br) (pos br + size)
  /\ 0 <= pos br /\ pos br + size <= Z.of_nat (List.length (data br)).
Proof.
  intros Hread. pose proof (read_binary_ok _ _ _ _ Hread) as (_ & _ & H1 & _ & H3).
  unfold read_binary in Hread. destruct (_ || _); [discriminate|].
  injection Hread as _ <-. repeat split; assumption.
Qed.

Lemma read_uint_moves br width v br' :
  read_uint br width = Ok (v, br') ->
  br' = mk (data br) (pos br + width)
  /\ 0 <= pos br /\ pos br + width <= Z.of_nat (List.length (data br)).
Proof.
  unfold read_uint. destruct (read_binary br width) as [[bs b1]|] eqn:E; [|discriminate].
  cbn [bind]. intros [= _ <-]. eapply read_binary_moves; eassumption.
Qed.

Lemma read_sint_moves br width v br' :
  read_sint br width = Ok (v, br') ->
  br' = mk (data br) (pos br + width)
  /\ 0 <= pos br /\ pos br + width <= Z.of_nat (List.length (data br)).
Proof.
  unfold read_sint. destruct (read_binary br width) as [[bs b1]|] eqn:E; [|discriminate].
  cbn [bind]. intros [= _ <-]. eapply read_binary_moves; eassumption.
Qed.

Ltac read_of_width w :=
  lazymatch goal with
  | |- bind ?m _ = Ok _ -> _ =>
      let E := fresh "E" in
      destruct m as [[? ?]|] eqn:E; cbn [bind]; [|discriminate];
      intros [= _ <-];
      first [apply read_uint_moves in E | apply read_sint_moves in E];
      destruct E as (-> & ? & ?); exists w;
      split; [reflexivity|]; split; [lia|]; split; [reflexivity|]; split; assumption
  end.

Lemma read_as_data_type_moves br data_type v br' :
  read_as_data_type br data_type = Ok (v, br') ->
  exists width,
    width_of data_type = Some width /\ 0 < width
    /\ br' = mk (data br) (pos br + width)
    /\ 0 <= pos br /\ pos br + width <= Z.of_nat (List.length (data br)).
Proof.
  unfold read_as_data_type. destruct data_type as [| |c| | | |]; try discriminate.
  destruct (c =? GlConstants.UNSIGNED_INT) eqn:E1;
    [apply Z.eqb_eq in E1; subst c; read_of_width 4|].
  destruct (c =? GlConstants.INT) eqn:E2;
    [apply Z.eqb_eq in E2; subst c; read_of_width 4|].
  destruct (c =? GlConstants.UNSIGNED_SHORT) eqn:E3;
    [apply Z.eqb_eq in E3; subst c; read_of_width 2|].
  destruct (c =? GlConstants.SHORT) eqn:E4;
    [apply Z.eqb_eq in E4; subst c; read_of_width 2|].
  destruct (c =? GlConstants.UNSIGNED_BYTE) eqn:E5;
    [apply Z.eqb_eq in E5; subst c; read_of_width 1|].
  destruct (c =? GlConstants.BYTE) eqn:E6;
    [apply Z.eqb_eq in E6; subst c; read_of_width 1|].
  destruct (c =? GlConstants.FLOAT) eqn:E7;
    [apply Z.eqb_eq in E7; subst c; read_of_width 4|discriminate].
Qed.

Lemma component_read_same accessor w w' :
  component_read accessor w -> component_read accessor w' -> w' = w.
Proof. intros (ct & E & Ew & _) (ct' & E' & Ew' & _). congruence. Qed.

Lemma read_component_moves br accessor v br' :
  read_component br accessor = Ok (v, br') ->
  exists width,
    component_read accessor width
    /\ br' = mk (data br) (pos br + width)
    /\ 0 <= pos br /\ pos br + width <= Z.of_nat (List.length (data br)).
Proof.
  unfold read_component, component_read.
  destruct (getkey accessor "componentType") as [ct|]; cbn [bind]; [|discriminate].
  intros Hread. apply read_as_data_type_moves in Hread as (w & Hw & Hp & Hb).
  exists w. split; [exists ct; auto|exact Hb].
Qed.

Lemma read_group_S n br accessor :
  read_group (S n) br accessor
  = ('(v, br) <- read_component br accessor ;;
     '(vs, br) <- read_group n br accessor ;;
     Ok (v :: vs, br)).
Proof. reflexivity. Qed.

Lemma read_data_list_S count type_num br accessor :
  read_data_list (S count) type_num br accessor
  = ('(data, br) <- read_data type_num br accessor ;;
     '(rest, br) <- read_data_list count type_num br accessor ;;
     Ok (data :: rest, br)).
Proof. reflexivity. Qed.

Lemma read_group_moves accessor n : forall br vs br',
  read_group (S n) br accessor = Ok (vs, br') ->
  exists width,
    component_read accessor width
    /\ br' = mk (data br) (pos br + Z.of_nat (S n) * width)
    /\ 0 <= pos br
    /\ pos br + Z.of_nat (S n) * width <= Z.of_nat (List.length (data br)).
Proof.
  induction n as [|n IH]; intros br vs br'; rewrite read_group_S.
  - destruct (read_component br accessor) as [[v b1]|] eqn:E1;
      cbn [bind read_group]; [|discriminate].
    intros [= _ <-]. apply read_component_moves in E1 as (w & Hc & -> & H0 & H1).
    exists w. change (Z.of_nat 1) with 1. rewrite Z.mul_1_l. auto.
  - destruct (read_component br accessor) as [[v b1]|] eqn:E1; cbn [bind];
      [|discriminate].
    apply read_component_moves in E1 as (w & Hc & -> & H0 & H1).
    destruct (read_group (S n) _ accessor) as [[vs' b2]|] eqn:E2; cbn [bind];
      [|discriminate].
    intros [= _ <-]. apply IH in E2 as (w' & Hc' & -> & H2 & H3).
    rewrite (component_read_same _ _ _ Hc Hc') in *.
    cbn [data pos] in *. exists w. split; [exact Hc|].
    rewrite (Nat2Z.inj_succ (S n)). unfold Z.succ.
    rewrite Z.mul_add_distr_r, Z.mul_1_l.
    replace (pos br + (Z.of_nat (S n) * w + w))
      with (pos br + w + Z.of_nat (S n) * w) by lia.
    auto.
Qed.

Lemma read_data_moves type_num br accessor d br' :
  0 < type_num ->
  read_data type_num br accessor = Ok (d, br') ->
  exists width,
    component_read accessor width
    /\ br' = mk (data br) (pos br + type_num * width)
    /\ 0 <= pos br
    /\ pos br + type_num * width <= Z.of_nat (List.length (data br)).
Proof.
  intros Hpos. unfold read_data. destruct (type_num =? 1) eqn:E.
  - apply Z.eqb_eq in E. subst. intros Hread.
    apply read_component_moves in Hread as (w & Hc & Hb).
    exists w. rewrite Z.mul_1_l. auto.
  - destruct (read_group (Z.to_nat type_num) br accessor) as [[vs b1]|] eqn:E1;
      cbn [bind]; [|discriminate].
    intros [= _ <-].
    destruct (Z.to_nat type_num) as [|n] eqn:En; [lia|].
    apply read_group_moves in E1 as (w & Hc & Hb).
    rewrite <- En, Z2Nat.id in Hb by lia. exists w. auto.
Qed.

Lemma read_data_list_moves type_num accessor count : forall br l br',
  0 < type_num ->
  read_data_list (S count) type_num br accessor = Ok (l, br') ->
  exists width,
    component_read accessor width
    /\ br' = mk (data br) (pos br + Z.of_nat (S count) * type_num * width)
    /\ 0 <= pos br
    /\ pos br + Z.of_nat (S count) * type_num * width
       <= Z.of_nat (List.length (data br)).
Proof.
  induction count as [|count IH]; intros br l br' Hpos; rewrite read_data_list_S.
  - destruct (read_data type_num br accessor) as [[d b1]|] eqn:E1;
      cbn [bind read_data_list]; [|discriminate].
    intros [= _ <-]. apply (read_data_moves _ _ _ _ _ Hpos) in E1 as (w & Hc & Hb).
    exists w. change (Z.of_nat 1) with 1. rewrite Z.mul_1_l. auto.
  - destruct (read_data type_num br accessor) as [[d b1]|] eqn:E1; cbn [bind];
      [|discriminate].
    apply (read_data_moves _ _ _ _ _ Hpos) in E1 as (w & Hc & -> & H0 & H1).
    destruct (read_data_list (S count) type_num _ accessor) as [[l' b2]|] eqn:E2;
      cbn [bind]; [|discriminate].
    intros [= _ <-]. apply (IH _ _ _ Hpos) in E2 as (w' & Hc' & -> & H2 & H3).
    rewrite (component_read_same _ _ _ Hc Hc') in *.
    cbn [data pos] in *. exists w. split; [exact Hc|].
    rewrite (Nat2Z.inj_succ (S count)). unfold Z.succ.
    rewrite !Z.mul_add_distr_r, !Z.mul_1_l.
    replace (pos br + (Z.of_nat (S count) * type_num * w + type_num * w))
      with (pos br + type_num * w + Z.of_nat (S count) * type_num * w) by lia.
    auto.
Qed.

(** An accessor that decodes fits. *)
Lemma decodes_accessor_fits buffer_views binary accessor decoded :
  decode_value buffer_views binary accessor = Ok decoded ->
  accessor_fits buffer_views binary accessor = true.
Proof.
  unfold accessor_fits, arity_of, view_offset, declared_count, component_width,
    decode_value, decode_accessor, seek, range_len.
  destruct (getkey accessor "type") as [type_tag|]; cbn [bind]; [|discriminate].
  destruct (type_num_of type_tag) as [type_num|] eqn:Et; cbn [bind]; [|discriminate].
  apply type_num_of_pos in Et.
  destruct (contains accessor "bufferView") as [[|]|]; cbn [bind negb];
    [|reflexivity|discriminate].
  destruct (getkey accessor "bufferView") as [view_index|]; cbn [bind]; [|discriminate].
  destruct (getitem buffer_views view_index) as [view|]; cbn [bind]; [|discriminate].
  destruct (getkey view "byteOffset") as [offset|]; cbn [bind]; [|discriminate].
  destruct (as_index offset) as [p|]; cbn [bind]; [|discriminate].
  destruct (getkey accessor "count") as [count|]; cbn [bind]; [|discriminate].
  destruct (as_index count) as [c|]; cbn [bind]; [|discriminate].
  destruct (read_data_list (Z.to_nat c) type_num _ accessor) as [[l br']|] eqn:El;
    cbn [bind]; [|discriminate].
  intros _. destruct (Z.to_nat c) as [|n] eqn:En.
  - replace (c <=? 0) with true by (symmetry; apply Z.leb_le; lia). reflexivity.
  - apply (read_data_list_moves _ _ _ _ _ _ Et) in El
      as (w & (ct & Ec & Ew & Hw) & _ & H0 & H1).
    rewrite Ec, Ew. cbn [set_pos init data pos] in H0, H1.
    rewrite <- En, Z2Nat.id in H1 by lia.
    replace (0 <=? p) with true by (symmetry; apply Z.leb_le; lia).
    replace (p + c * type_num * w <=? Z.of_nat (List.length binary)) with true
      by (symmetry; apply Z.leb_le; lia).
    apply orb_true_r.
Qed.

End DecodeFacts.

(* ===================================================================== *)
(** * The claims *)
(* ===================================================================== *)

Import BinaryReader Container Glb GlbFacts.
Import License LicenseFacts.
Import Decode DecodeFacts.
Import Diff Mesh.

(** ** The accessor decoder (C1, C9) *)

(** C1, as the code has it. On a document whose [bufferViews] is given and
    whose [accessors] is an array, [decode_bin] returns when every accessor
    fits (a known type tag and, with a buffer view, an integer offset and
    count and components of a known type inside the payload), and raises
    when some accessor does not; and whenever
    it returns, the list has one entry per accessor, the entry at position
    [i] is what accessor [i] decodes to on its own, and for an accessor
    with a buffer view its flattened size is the declared count, or zero
    if that is negative, times the arity of the type tag. *)
Theorem C1_decode_bin_entry_per_accessor :
  forall (json_data : json) (binary : bytes) (buffer_views : json)
         (accessors : list json),
    getkey json_data "bufferViews" = Ok buffer_views ->
    getkey json_data "accessors" = Ok (JList accessors) ->
    (forallb (accessor_fits buffer_views binary) accessors = true ->
     exists decoded, decode_bin json_data binary = Ok decoded)
    /\ (forallb (accessor_fits buffer_views binary) accessors = false ->
        is_ok (decode_bin json_data binary) = false)
    /\ (forall decoded,
          decode_bin json_data binary = Ok decoded ->
          List.length decoded = List.length accessors
          /\ forall i accessor,
               nth_error accessors i = Some accessor ->
               exists entry,
                 nth_error decoded i = Some entry
                 /\ decode_value buffer_views binary accessor = Ok entry
                 /\ (contains accessor "bufferView" = Ok true ->
                     exists count arity,
                       declared_count accessor = Ok count
                       /\ arity_of accessor = Ok arity
                       /\ flat_count entry
                          = (Z.to_nat count * Z.to_nat arity)%nat)).
Proof.
  intros json_data binary buffer_views accessors Hv Ha.
  rewrite (decode_bin_each json_data binary buffer_views accessors Hv Ha).
  split; [|split].
  - intros Hfit. apply map_result_total. intros accessor Hin.
    apply accessor_fits_decodes. rewrite forallb_forall in Hfit. auto.
  - intros Hunfit.
    destruct (map_result (decode_value buffer_views binary) accessors)
      as [decoded|] eqn:Hd; [|reflexivity].
    apply map_result_ok in Hd.
    assert (Hfit : forallb (accessor_fits buffer_views binary) accessors = true).
    { clear Hunfit Ha. induction Hd as [|accessor entry l l' He _ IH];
        cbn [forallb]; [reflexivity|].
      rewrite (decodes_accessor_fits _ _ _ _ He), IH. reflexivity. }
    congruence.
  - intros decoded Hd. apply map_result_ok in Hd. split.
    + eapply Forall2_length_eq; eassumption.
    + intros i accessor Hi.
      destruct (Forall2_nth_error _ _ _ Hd i accessor Hi) as (entry & Hn & He).
      exists entry. repeat split; [assumption|assumption|].
      intros Hview. eapply decode_value_count; eassumption.
Qed.

Lemma C1_witness :
  exists decoded,
    decode_bin sample_json_data sample_binary = Ok decoded
    /\ List.length decoded = 2%nat.
Proof.
  pose proof (C1_decode_bin_entry_per_accessor sample_json_data sample_binary
                sample_buffer_views sample_accessors eq_refl eq_refl)
    as (Hret & _ & Hshape).
  destruct (Hret eq_refl) as [decoded Hd].
  exists decoded. split; [exact Hd|]. exact (proj1 (Hshape decoded Hd)).
Defined.

(** C1, the claim refuted: an accessor of the type MAT3 makes [decode_bin]
    raise instead of returning a list, and an accessor that declares a
    negative count decodes to an empty array. *)
Lemma C1_unknown_type_raises :
  decode_bin
    (JDict [("bufferViews",
             JList [JDict [("buffer", JInt 0); ("byteOffset", JInt 0);
                           ("byteLength", JInt 16)]]);
            ("accessors",
             JList [JDict [("bufferView", JInt 0); ("componentType", JInt 5121);
                           ("count", JInt 1); ("type", JStr "MAT3")]])])
    sample_binary
  = Raise (KeyError (JStr "MAT3"))
  /\ decode_bin
       (JDict [("bufferViews",
                JList [JDict [("buffer", JInt 0); ("byteOffset", JInt 0);
                              ("byteLength", JInt 16)]]);
               ("accessors",
                JList [JDict [("bufferView", JInt 0); ("componentType", JInt 5121);
                              ("count", JInt (-1)); ("type", JStr "VEC2")]])])
       sample_binary
     = Ok [JList []].
Proof. split; vm_compute; reflexivity. Qed.

(** C9, as the code has it. An accessor with a known type tag and no
    buffer view decodes to the empty array, at its own index, and the
    accessors before and after it are decoded as if it were not there: it
    raises nothing itself. The type tag is looked up first. *)
Theorem C9_accessor_without_buffer_view :
  forall (json_data : json) (binary : bytes) (buffer_views : json)
         (before after : list json) (accessor : json) (arity : Z),
    getkey json_data "bufferViews" = Ok buffer_views ->
    getkey json_data "accessors" = Ok (JList (before ++ accessor :: after)) ->
    arity_of accessor = Ok arity ->
    contains accessor "bufferView" = Ok false ->
    decode_bin json_data binary
    = (decoded_before <- map_result (decode_value buffer_views binary) before ;;
       decoded_after <- map_result (decode_value buffer_views binary) after ;;
       Ok (decoded_before ++ JList [] :: decoded_after))
    /\ forall decoded,
         decode_bin json_data binary = Ok decoded ->
         nth_error decoded (List.length before) = Some (JList []).
Proof.
  intros json_data binary buffer_views before after accessor arity Hv Ha Har Hview.
  rewrite (decode_bin_each json_data binary buffer_views _ Hv Ha).
  assert (Hself : decode_value buffer_views binary accessor = Ok (JList [])).
  { unfold decode_value, decode_accessor. unfold arity_of in Har.
    destruct (getkey accessor "type") as [type_tag|]; cbn [bind] in *; [|discriminate].
    rewrite Har, Hview. reflexivity. }
  assert (Heq : map_result (decode_value buffer_views binary) (before ++ accessor :: after)
                = (decoded_before <- map_result (decode_value buffer_views binary) before ;;
                   decoded_after <- map_result (decode_value buffer_views binary) after ;;
                   Ok (decoded_before ++ JList [] :: decoded_after))).
  { rewrite map_result_app. cbn [map_result]. rewrite Hself. cbn [bind].
    destruct (map_result _ before); cbn [bind]; [|reflexivity].
    destruct (map_result _ after); reflexivity. }
  split; [exact Heq|].
  intros decoded Hd. rewrite Heq in Hd.
  destruct (map_result _ before) as [d1|] eqn:E1; cbn [bind] in Hd; [|discriminate].
  destruct (map_result _ after) as [d2|]; cbn [bind] in Hd; [|discriminate].
  injection Hd as <-.
  apply map_result_ok in E1. apply Forall2_length_eq in E1.
  rewrite nth_error_app2 by lia. rewrite E1, Nat.sub_diag. reflexivity.
Qed.

Lemma C9_witness :
  decode_bin json_data_with_placeholder sample_binary
  = Ok [JList [JInt 0; JInt 1; JInt 2]; JList [];
        JList [JList [JFloat (float_of_bits32 1045220557);
                      JFloat (float_of_bits32 3197737370)]]].
Proof.
  refine (eq_trans
            (proj1 (C9_accessor_without_buffer_view json_data_with_placeholder
                      sample_binary sample_buffer_views
                      (firstn 1 sample_accessors) (skipn 1 sample_accessors)
                      placeholder_accessor 3 eq_refl eq_refl eq_refl eq_refl)) _).
  vm_compute. reflexivity.
Defined.

(** C9, the claim refuted: an accessor with no buffer view whose type tag
    is MAT3 makes [decode_bin] raise. *)
Lemma C9_unknown_type_without_view_raises :
  decode_bin
    (JDict [("bufferViews", sample_buffer_views);
            ("accessors",
             JList [JDict [("componentType", JInt 5126); ("count", JInt 4);
                           ("type", JStr "MAT3")]])])
    sample_binary
  = Raise (KeyError (JStr "MAT3")).
Proof. vm_compute. reflexivity. Qed.

(** ** The container demuxer (C2, C10) *)

(** C2 (where the code departs from the claim). On a well-formed container
    a second JSON chunk does not stop [parse_glb]: it replaces the text of
    the first, and the result is that of a container holding the second
    chunk alone. Two binary chunks ahead of the JSON chunk are accepted the
    same way, the later payload being returned. The error for repeated
    chunks is reached only once both a JSON and a binary chunk were read. *)
Theorem C2_repeated_chunk_replaces_earlier :
  forall (R : Runtime) (first second : string) (x y : bytes),
    utf8_valid (map b2z (list_byte_of_string first)) = true ->
    utf8_valid (map b2z (list_byte_of_string second)) = true ->
    Z.of_nat (String.length first + String.length second
              + List.length x + List.length y) + 44 < 2 ^ 32 ->
    parse_glb (encode_glb [json_chunk first; json_chunk second])
    = load_json (Some second) None
    /\ parse_glb (encode_glb [bin_chunk x; bin_chunk y; json_chunk second])
       = load_json (Some second) (Some y)
    /\ parse_glb (encode_glb [json_chunk second]) = load_json (Some second) None
    /\ parse_glb (encode_glb [json_chunk first; bin_chunk x; json_chunk second])
       = Raise MultipleChunks.
Proof.
  intros R first second x y Hfirst Hsecond Hlen.
  repeat split; rewrite parse_glb_encoded by glb_ok_tac.
  - rewrite !demux_json_then by (assumption || reflexivity). reflexivity.
  - rewrite !demux_bin_then by reflexivity.
    rewrite demux_json_then by (assumption || reflexivity). reflexivity.
  - rewrite demux_json_then by (assumption || reflexivity). reflexivity.
  - rewrite demux_json_then by (assumption || reflexivity).
    rewrite demux_bin_then by reflexivity. reflexivity.
Qed.

Lemma C2_witness :
  @parse_glb Sample.runtime (encode_glb [json_chunk "{}"; json_chunk "{}"])
  = Ok (JDict [], []).
Proof.
  refine (eq_trans
            (proj1 (C2_repeated_chunk_replaces_earlier Sample.runtime "{}" "{}" [] []
                      _ _ _)) _).
  - reflexivity.
  - reflexivity.
  - vm_compute; reflexivity.
  - reflexivity.
Defined.




(** ** The license gate (C3, C4, C5, C6) *)

(** C3, as the code has it. The license-name check adds exactly one item,
    with no URL and no field name, when the license name starts with the
    upper-case letters CC and has the upper-case letters ND later on the
    same line, and adds nothing otherwise; the items of the two other
    checks follow. The match is case-sensitive. *)
Theorem C3_license_name_check_case_sensitive :
  forall (R : Runtime) (doc : json),
    let name := meta_field doc "licenseName" in
    let others :=
      other_permission_check doc [] ++ other_license_check doc name [] in
    (no_derivatives_name name
     /\ confirmations_of doc = no_derivatives_prop name :: others
     /\ url (no_derivatives_prop name) = None
     /\ json_key (no_derivatives_prop name) = None)
    \/ (~ no_derivatives_name name /\ confirmations_of doc = others).
Proof.
  intros R doc name others. unfold others.
  rewrite confirmations_of_split. fold name. unfold license_name_check.
  destruct (re_match re_CC_ND name) eqn:E.
  - left. apply re_CC_ND_spec in E. repeat split; assumption.
  - right. split; [|reflexivity].
    intros Hn. apply re_CC_ND_spec in Hn. congruence.
Qed.

(** C3, the claim refuted: the lower-case name "cc-by-nd" adds no item (the
    document passes the gate), while "CC-BY-ND" adds one. *)
Lemma C3_lower_case_name_passes :
  re_match re_CC_ND "cc-by-nd" = false
  /\ @validate_license Sample.runtime
       (doc_with_meta [("licenseName", JStr "cc-by-nd")]) = Ok tt
  /\ @confirmations_of Sample.runtime
       (doc_with_meta [("licenseName", JStr "cc-by-nd")]) = []
  /\ @confirmations_of Sample.runtime
       (doc_with_meta [("licenseName", JStr "CC-BY-ND")])
     = [@no_derivatives_prop Sample.runtime "CC-BY-ND"].
Proof. repeat split; vm_compute; reflexivity. Qed.

(** C4. [validate_license] returns normally exactly when no check found
    anything; otherwise it raises [LicenseConfirmationRequired] once, after
    the three checks, and the exception carries every finding in order:
    those of the license name, then of [otherPermissionUrl], then of the
    "Other" license. *)
Theorem C4_raised_once_with_all_findings :
  forall (R : Runtime) (doc : json),
    let name := meta_field doc "licenseName" in
    let findings :=
      license_name_check name [] ++ other_permission_check doc []
        ++ other_license_check doc name [] in
    (findings = [] /\ validate_license doc = Ok tt)
    \/ (findings <> []
        /\ validate_license doc = Raise (LicenseConfirmationRequired findings)).
Proof.
  intros R doc name findings. unfold validate_license.
  rewrite confirmations_of_split. fold name. fold findings.
  destruct findings as [|p ps]; [left|right]; split; try reflexivity; discriminate.
Qed.

(** C5. For a permission URL that parses with host hub.vroid.com and a path
    ending in /license, the URL validation appends exactly one item when
    the [modification] parameter is "disallow" and nothing for any other
    value or none; no other provider is tried and no custom-license item is
    added. *)
Theorem C5_vroid_hub_license_url :
  forall (R : Runtime) (url_str json_key : string) (props : Props) (u : ParseResult),
    url_str <> "" ->
    urlparse url_str = Some u ->
    hostname u = Some "hub.vroid.com" ->
    endswith (path u) "/license" = true ->
    (query_param u "modification" = Some "disallow" ->
     validate_license_url url_str json_key props
     = props ++ [vroid_hub_prop u json_key])
    /\ (query_param u "modification" <> Some "disallow" ->
        validate_license_url url_str json_key props = props).
Proof.
  intros R url_str json_key props u Hne Hparse Hhost Hpath.
  unfold validate_license_url, query_param.
  apply String.eqb_neq in Hne. rewrite Hne, Hparse.
  unfold validate_vroid_hub_license_url. rewrite Hhost, Hpath.
  cbn [opt_eqb negb orb]. change (String.eqb "hub.vroid.com" "hub.vroid.com") with true.
  cbn [negb orb].
  destruct (dict_get (dict_of_pairs (parse_qsl (query u))) "modification") as [v|] eqn:E;
    cbn [opt_eqb].
  - destruct (String.eqb v "disallow") eqn:Ev.
    + apply String.eqb_eq in Ev. subst v. split; [reflexivity|congruence].
    + apply String.eqb_neq in Ev. split; [intros [= ->]; congruence|reflexivity].
  - split; [discriminate|reflexivity].
Qed.

Lemma C5_witness :
  @validate_license_url Sample.runtime
    "https://hub.vroid.com/en/license?modification=disallow" "otherPermissionUrl" []
  = [@vroid_hub_prop Sample.runtime
       (mkUrl (Some "hub.vroid.com") "/en/license" "modification=disallow"
          "https://hub.vroid.com/en/license?modification=disallow")
       "otherPermissionUrl"]
  /\ @validate_license_url Sample.runtime
       "https://hub.vroid.com/en/license?modification=allow" "otherPermissionUrl" []
     = [].
Proof.
  split.
  - refine (proj1 (C5_vroid_hub_license_url Sample.runtime
                     "https://hub.vroid.com/en/license?modification=disallow"
                     "otherPermissionUrl" [] _ _ _ _ _) _);
      try reflexivity; discriminate.
  - refine (proj2 (C5_vroid_hub_license_url Sample.runtime
                     "https://hub.vroid.com/en/license?modification=allow"
                     "otherPermissionUrl" []
                     (mkUrl (Some "hub.vroid.com") "/en/license" "modification=allow"
                        "https://hub.vroid.com/en/license?modification=allow")
                     _ _ _ _) _);
      try reflexivity; discriminate.
Defined.

(** C6. When the license name is exactly "Other", the third check asks for
    a URL if [otherLicenseUrl] is empty and otherwise validates that URL
    with the procedure used for [otherPermissionUrl]; for any other name it
    adds nothing. Its findings follow those of the first two checks. *)
Theorem C6_other_license_check :
  forall (R : Runtime) (doc : json),
    let name := meta_field doc "licenseName" in
    let other_license_url_str := meta_field doc "otherLicenseUrl" in
    let before :=
      license_name_check name []
        ++ validate_license_url (meta_field doc "otherPermissionUrl")
             "otherPermissionUrl" [] in
    (name = "Other" -> other_license_url_str = "" ->
     confirmations_of doc = before ++ [no_url_prop])
    /\ (name = "Other" -> other_license_url_str <> "" ->
        confirmations_of doc
        = before ++ validate_license_url other_license_url_str "otherLicenseUrl" [])
    /\ (name <> "Other" -> confirmations_of doc = before).
Proof.
  intros R doc name other_license_url_str before. unfold before.
  rewrite confirmations_of_split. fold name.
  unfold other_permission_check, other_license_check.
  fold other_license_url_str. rewrite <- !app_assoc.
  repeat split.
  - intros -> ->. reflexivity.
  - intros -> Hne. apply String.eqb_neq in Hne. rewrite Hne. reflexivity.
  - intros Hne. apply String.eqb_neq in Hne. rewrite Hne.
    rewrite app_nil_r. reflexivity.
Qed.

Lemma C6_witness :
  @confirmations_of Sample.runtime (doc_with_meta [("licenseName", JStr "Other")])
  = [@no_url_prop Sample.runtime]
  /\ @confirmations_of Sample.runtime
       (doc_with_meta [("licenseName", JStr "Other");
                       ("otherLicenseUrl",
                        JStr "https://hub.vroid.com/en/license?modification=allow")])
     = []
  /\ @confirmations_of Sample.runtime (doc_with_meta [("licenseName", JStr "CC0")])
     = [].
Proof.
  pose proof (C6_other_license_check Sample.runtime
                (doc_with_meta [("licenseName", JStr "Other")])) as (H1 & _ & _).
  pose proof (C6_other_license_check Sample.runtime
                (doc_with_meta [("licenseName", JStr "Other");
                                ("otherLicenseUrl",
                                 JStr "https://hub.vroid.com/en/license?modification=allow")]))
    as (_ & H2 & _).
  pose proof (C6_other_license_check Sample.runtime
                (doc_with_meta [("licenseName", JStr "CC0")])) as (_ & _ & H3).
  split; [|split].
  - exact (H1 eq_refl eq_refl).
  - refine (eq_trans (H2 eq_refl _) _); [discriminate|reflexivity].
  - refine (eq_trans (H3 _) _); [discriminate|reflexivity].
Defined.

(** ** The legacy UV repair (C7) *)

(** C7 (where the code departs from the claim). With the generator
    "UniGLTF-1.10" and one primitive, the coordinate [0.2, -0.3] becomes
    [0.2, 1 + -0.3], and with "UniGLTF-1.20" it stays. But two primitives
    that take their coordinates from the same accessor share one decoded
    array, the repair runs once per primitive on it, and both end with
    [0.2, 1 + (1 + -0.3)]. *)
Theorem C7_shared_texcoord_repaired_twice :
  forall (R : Runtime),
    decode_bin (mesh_document "UniGLTF-1.10" [sample_primitive]) sample_binary
    = Ok [JList [JInt 0; JInt 1; JInt 2]; JList [JList [JFloat u_02; JFloat v_m03]]]
    /\ texcoords_after
         (mesh_read (mesh_document "UniGLTF-1.10" [sample_primitive])
            [JList [JInt 0; JInt 1; JInt 2]; JList [JList [JFloat u_02; JFloat v_m03]]])
       = Ok [Some (JList [JList [JFloat u_02; JFloat (1 + v_m03)]])]
    /\ texcoords_after
         (mesh_read (mesh_document "UniGLTF-1.20" [sample_primitive; sample_primitive])
            [JList [JInt 0; JInt 1; JInt 2]; JList [JList [JFloat u_02; JFloat v_m03]]])
       = Ok [Some (JList [JList [JFloat u_02; JFloat v_m03]]);
             Some (JList [JList [JFloat u_02; JFloat v_m03]])]
    /\ texcoords_after
         (mesh_read (mesh_document "UniGLTF-1.10" [sample_primitive; sample_primitive])
            [JList [JInt 0; JInt 1; JInt 2]; JList [JList [JFloat u_02; JFloat v_m03]]])
       = Ok [Some (JList [JList [JFloat u_02; JFloat (1 + (1 + v_m03))]]);
             Some (JList [JList [JFloat u_02; JFloat (1 + (1 + v_m03))]])].
Proof. intros R. repeat split; vm_compute; reflexivity. Qed.

(** ** The diff utility (C8) *)

(** C8 (where the code departs from the claim). A number on the left
    against anything that is not a number on the right is not reported as
    a difference: [vrm_dict_diff] raises its "unexpected type" exception,
    and so it does for [None] against [None]. The opposite pairing, a
    string on the left against a number, is reported. *)
Theorem C8_number_against_other_type_raises :
  forall (left right : json) (path : string) (float_tolerance : float),
    type_of left = TInt \/ type_of left = TFloat ->
    is_int_or_float right = false ->
    vrm_dict_diff left right path float_tolerance
    = Raise (UnexpectedType path (type_of left) (type_of right))
    /\ vrm_dict_diff JNull JNull path float_tolerance
       = Raise (UnexpectedType path TNone TNone)
    /\ vrm_dict_diff right left path float_tolerance
       = Ok [TypeDiffers path (type_of right) (type_of left)].
Proof.
  intros left right path float_tolerance Hleft Hright.
  repeat split.
  - destruct left; cbn [type_of] in Hleft;
      try (destruct Hleft; discriminate);
      destruct right; try discriminate; reflexivity.
  - destruct left; cbn [type_of] in Hleft;
      try (destruct Hleft; discriminate);
      destruct right; try discriminate; reflexivity.
Qed.

Lemma C8_witness :
  vrm_dict_diff (JInt 1) (JStr "a") "" 0%float = Raise (UnexpectedType "" TInt TStr)
  /\ vrm_dict_diff (JStr "a") (JInt 1) "" 0%float = Ok [TypeDiffers "" TStr TInt]
  /\ vrm_dict_diff (JDict [("extras", JNull)]) (JDict [("extras", JNull)]) "" 0%float
     = Raise (UnexpectedType (key_path "" "extras") TNone TNone).
Proof.
  pose proof (C8_number_against_other_type_raises (JInt 1) (JStr "a") "" 0%float
                (or_introl eq_refl) eq_refl) as (H1 & _ & H3).
  split; [exact H1|]. split; [exact H3|]. vm_compute. reflexivity.
Defined.

(* ===================================================================== *)
(** * Further properties of the loader *)
(* ===================================================================== *)

Import MeshFacts.

(** X1. For a URL that parses with host uv-license.com and a path ending
    in /license, the URL validation appends exactly one item when the
    [remarks] parameter is "true" and nothing otherwise; no custom-license
    item is added. *)
Theorem X1_uv_license_url :
  forall (R : Runtime) (url_str json_key : string) (props : Props) (u : ParseResult),
    url_str <> "" ->
    urlparse url_str = Some u ->
    hostname u = Some "uv-license.com" ->
    endswith (path u) "/license" = true ->
    (query_param u "remarks" = Some "true" ->
     validate_license_url url_str json_key props
     = props ++ [uv_license_prop u json_key])
    /\ (query_param u "remarks" <> Some "true" ->
        validate_license_url url_str json_key props = props).
Proof.
  intros R url_str json_key props u Hne Hparse Hhost Hpath.
  unfold validate_license_url, query_param.
  apply String.eqb_neq in Hne. rewrite Hne, Hparse.
  unfold validate_vroid_hub_license_url, validate_uni_virtual_license_url.
  rewrite Hhost, Hpath. cbn [opt_eqb negb orb].
  change (String.eqb "uv-license.com" "hub.vroid.com") with false.
  change (String.eqb "uv-license.com" "uv-license.com") with true.
  cbn [negb orb].
  destruct (dict_get (dict_of_pairs (parse_qsl (query u))) "remarks") as [v|] eqn:E;
    cbn [opt_eqb].
  - destruct (String.eqb v "true") eqn:Ev.
    + apply String.eqb_eq in Ev. subst v. split; [reflexivity|congruence].
    + apply String.eqb_neq in Ev. split; [intros [= ->]; congruence|reflexivity].
  - split; [discriminate|reflexivity].
Qed.

Lemma X1_witness :
  @validate_license_url Sample.runtime
    "https://uv-license.com/en/license?remarks=true" "otherPermissionUrl" []
  = [@uv_license_prop Sample.runtime
       (mkUrl (Some "uv-license.com") "/en/license" "remarks=true"
          "https://uv-license.com/en/license?remarks=true")
       "otherPermissionUrl"]
  /\ @validate_license_url Sample.runtime
       "https://uv-license.com/en/license?utf8=1&pcu=true" "otherPermissionUrl" []
     = [].
Proof.
  split.
  - refine (proj1 (X1_uv_license_url Sample.runtime
                     "https://uv-license.com/en/license?remarks=true"
                     "otherPermissionUrl" [] _ _ _ _ _) _);
      try reflexivity; discriminate.
  - refine (proj2 (X1_uv_license_url Sample.runtime
                     "https://uv-license.com/en/license?utf8=1&pcu=true"
                     "otherPermissionUrl" []
                     (mkUrl (Some "uv-license.com") "/en/license" "utf8=1&pcu=true"
                        "https://uv-license.com/en/license?utf8=1&pcu=true")
                     _ _ _ _) _);
      try reflexivity; discriminate.
Defined.

(** X2. A non-empty URL that does not parse, or that parses to neither
    provider (another host, or a path that does not end in /license), gets
    exactly one item, the custom-license one, carrying the URL as written
    and the name of the field. *)
Theorem X2_custom_license_url :
  forall (R : Runtime) (url_str json_key : string) (props : Props),
    url_str <> "" ->
    match urlparse url_str with
    | None => True
    | Some u =>
        endswith (path u) "/license" = false
        \/ (hostname u <> Some "hub.vroid.com" /\ hostname u <> Some "uv-license.com")
    end ->
    validate_license_url url_str json_key props
    = props ++ [custom_license_prop url_str json_key].
Proof.
  intros R url_str json_key props Hne Hurl.
  unfold validate_license_url.
  apply String.eqb_neq in Hne. rewrite Hne.
  destruct (urlparse url_str) as [u|]; [|reflexivity].
  unfold validate_vroid_hub_license_url, validate_uni_virtual_license_url.
  destruct Hurl as [Hpath|[Hh1 Hh2]].
  - rewrite Hpath. cbn [negb]. rewrite !orb_true_r. reflexivity.
  - assert (E1 : opt_eqb (hostname u) "hub.vroid.com" = false).
    { destruct (hostname u) as [h|]; cbn [opt_eqb]; [|reflexivity].
      apply String.eqb_neq. congruence. }
    assert (E2 : opt_eqb (hostname u) "uv-license.com" = false).
    { destruct (hostname u) as [h|]; cbn [opt_eqb]; [|reflexivity].
      apply String.eqb_neq. congruence. }
    rewrite E1, E2. reflexivity.
Qed.

Lemma X2_witness :
  @validate_license_url Sample.runtime "https://example.com/terms" "otherLicenseUrl" []
  = [@custom_license_prop Sample.runtime "https://example.com/terms" "otherLicenseUrl"].
Proof.
  apply (X2_custom_license_url Sample.runtime "https://example.com/terms"
           "otherLicenseUrl" []).
  - discriminate.
  - left. reflexivity.
Defined.

(** X3. On a well-formed container (every chunk tag is four bytes of text,
    every length fits 32 bits, the declared length is the real one)
    [parse_glb] handles the chunks one by one as [demux] does and then
    loads the JSON text. *)
Theorem X3_parse_glb_chunk_by_chunk :
  forall (R : Runtime) (cs : list chunk),
    glb_ok cs = true ->
    parse_glb (encode_glb cs)
    = ('(json_str, body) <- demux cs None None ;; load_json json_str body).
Proof. intros R cs. apply parse_glb_encoded. Qed.

Lemma X3_witness :
  @parse_glb Sample.runtime (encode_glb [json_chunk "{}"; bin_chunk sample_binary])
  = Ok (JDict [], sample_binary).
Proof.
  refine (eq_trans (X3_parse_glb_chunk_by_chunk Sample.runtime
                      [json_chunk "{}"; bin_chunk sample_binary] _) _);
    vm_compute; reflexivity.
Defined.

(** X4. [parse_glb] ends on every byte string: each round of its loop
    reads at least eight bytes or raises, so the rounds never exceed the
    length of the buffer. *)
Theorem X4_parse_glb_ends :
  forall (R : Runtime) (file : bytes),
    (forall s, ran_dry (json_loads s) = false) ->
    ran_dry (parse_glb file) = false.
Proof.
  intros R file Hloads.
  assert (Hb : parse_glb file <> Raise Diverged).
  { apply parse_glb_bounded. intros s E. specialize (Hloads s).
    rewrite E in Hloads. discriminate. }
  destruct (parse_glb file) as [|[]]; try reflexivity. congruence.
Qed.

Lemma X4_witness :
  ran_dry (@parse_glb Sample.runtime sample_binary) = false.
Proof.
  apply (X4_parse_glb_ends Sample.runtime sample_binary).
  intros s. unfold json_loads, Sample.runtime, Sample.sample_json_loads.
  destruct (String.eqb s "{}"); [reflexivity|].
  destruct (String.eqb s "[]"); reflexivity.
Defined.

(** X5. When the generator does not raise the legacy flag, [mesh_read]
    leaves every decoded array as it found it. *)
Theorem X5_mesh_read_keeps_arrays_without_flag :
  forall (R : Runtime) (doc : json) (decoded_binary : store)
         (built : list (list obj)) (out : store),
    legacy_uv_flag doc = false ->
    mesh_read doc decoded_binary = Ok (built, out) ->
    out = decoded_binary.
Proof. intros R doc decoded_binary built out. apply mesh_read_not_legacy. Qed.

Lemma X5_witness :
  exists built,
    @mesh_read Sample.runtime (mesh_document "UniGLTF-1.20" [sample_primitive])
      [JList [JInt 0; JInt 1; JInt 2]; JList [JList [JFloat u_02; JFloat v_m03]]]
    = Ok (built,
          [JList [JInt 0; JInt 1; JInt 2]; JList [JList [JFloat u_02; JFloat v_m03]]]).
Proof.
  destruct (@mesh_read Sample.runtime (mesh_document "UniGLTF-1.20" [sample_primitive])
              [JList [JInt 0; JInt 1; JInt 2];
               JList [JList [JFloat u_02; JFloat v_m03]]])
    as [[built out]|e] eqn:E.
  - exists built.
    rewrite (X5_mesh_read_keeps_arrays_without_flag Sample.runtime
               (mesh_document "UniGLTF-1.20" [sample_primitive]) _ built out
               eq_refl E).
    reflexivity.
  - exfalso. vm_compute in E. discriminate.
Defined.

(** X6. [mesh_read] ends on every document and store: the loop over the
    texture-coordinate names stops after at most as many rounds as the
    mesh has attributes. *)
Theorem X6_mesh_read_ends :
  forall (R : Runtime) (doc : json) (decoded_binary : store),
    ran_dry (mesh_read doc decoded_binary) = false.
Proof.
  intros R doc decoded_binary.
  pose proof (mesh_read_bounded doc decoded_binary) as Hb.
  destruct (mesh_read doc decoded_binary) as [|[]]; try reflexivity. congruence.
Qed.

(** ** File names *)

Module PathFacts.
Import Path.

Lemma remove_unsafe_clean filename c :
  In c (list_ascii_of_string (remove_unsafe_path_chars filename)) ->
  is_unsafe c = false /\ In c (list_ascii_of_string filename).
Proof.
  induction filename as [|a rest IH]; cbn [remove_unsafe_path_chars list_ascii_of_string];
    [intros []|].
  destruct (is_unsafe a) eqn:E.
  - intros Hin. destruct (IH Hin). split; [assumption|right; assumption].
  - cbn [list_ascii_of_string]. intros [<-|Hin].
    + split; [assumption|left; reflexivity].
    + destruct (IH Hin). split; [assumption|right; assumption].
Qed.

Lemma remove_unsafe_fixed filename :
  (forall c, In c (list_ascii_of_string filename) -> is_unsafe c = false) ->
  remove_unsafe_path_chars filename = filename.
Proof.
  induction filename as [|a rest IH]; cbn [remove_unsafe_path_chars list_ascii_of_string];
    [reflexivity|].
  intros Hall. rewrite (Hall a (or_introl eq_refl)).
  rewrite IH; [reflexivity|]. intros c Hc. apply Hall. right. assumption.
Qed.

Lemma remove_unsafe_app a b :
  remove_unsafe_path_chars (a ++ b)
  = (remove_unsafe_path_chars a ++ remove_unsafe_path_chars b)%string.
Proof.
  induction a as [|c a IH]; cbn [remove_unsafe_path_chars String.append]; [reflexivity|].
  destruct (is_unsafe c); cbn [String.append]; rewrite IH; reflexivity.
Qed.

End PathFacts.

Import Path PathFacts.

(** X7. The cleaned file name holds none of the control characters and
    none of the nine punctuation marks of the table (double quote, asterisk,
    slash, colon, the angle brackets, question mark, backslash, vertical
    bar), and every character it holds comes from the name; a name without such characters is returned as it
    is, so cleaning twice is cleaning once; and cleaning a concatenation is
    concatenating the cleaned parts. *)
Theorem X7_remove_unsafe_path_chars_cleans :
  forall (filename other : string),
    (forall c, In c (list_ascii_of_string (remove_unsafe_path_chars filename)) ->
               is_unsafe c = false /\ In c (list_ascii_of_string filename))
    /\ ((forall c, In c (list_ascii_of_string filename) -> is_unsafe c = false) ->
        remove_unsafe_path_chars filename = filename)
    /\ remove_unsafe_path_chars (remove_unsafe_path_chars filename)
       = remove_unsafe_path_chars filename
    /\ remove_unsafe_path_chars (filename ++ other)
       = (remove_unsafe_path_chars filename ++ remove_unsafe_path_chars other)%string.
Proof.
  intros filename other. repeat split.
  - apply (remove_unsafe_clean filename c). assumption.
  - apply (remove_unsafe_clean filename c). assumption.
  - apply remove_unsafe_fixed.
  - apply remove_unsafe_fixed. intros c Hc.
    apply (remove_unsafe_clean filename c). assumption.
  - apply remove_unsafe_app.
Qed.

(** ** The confirmations handed to the dialog *)

Module ConfirmationFacts.
Import Confirmations.

Lemma confirmations_nth (props : list LicenseConfirmationRequiredProp) :
  forall start i prop,
    nth_error props i = Some prop ->
    nth_error (map (fun ip => confirmation (fst ip) (snd ip))
                 (enumerate_from start props)) i
    = Some (confirmation (start + i) prop).
Proof.
  induction props as [|p props IH]; intros start i prop Hi.
  - destruct i; discriminate.
  - destruct i as [|i]; cbn [nth_error enumerate_from map fst snd] in *.
    + injection Hi as <-. rewrite Nat.add_0_r. reflexivity.
    + rewrite (IH (S start) i prop Hi). f_equal. f_equal. lia.
Qed.

Lemma confirmations_names (props : list LicenseConfirmationRequiredProp) :
  forall start,
    map (fun entry => dict_get entry "name")
      (map (fun ip => confirmation (fst ip) (snd ip)) (enumerate_from start props))
    = map (fun index => Some ("LicenseConfirmation" ++ str_of_nat index)%string)
        (seq start (List.length props)).
Proof.
  induction props as [|p props IH]; intros start; cbn [enumerate_from map seq List.length];
    [reflexivity|].
  rewrite IH. reflexivity.
Qed.

End ConfirmationFacts.

Import Confirmations ConfirmationFacts.

(** X8. [license_confirmations] gives one entry per finding, in order: the
    entry at position [i] is named LicenseConfirmation followed by [i] and
    carries the URL, field name and message of finding [i], an absent URL
    or field name as the empty text. No two entries have the same name. *)
Theorem X8_license_confirmations_entries :
  forall (props : list LicenseConfirmationRequiredProp),
    List.length (license_confirmations props) = List.length props
    /\ NoDup (map (fun entry => dict_get entry "name") (license_confirmations props))
    /\ forall i prop,
         nth_error props i = Some prop ->
         nth_error (license_confirmations props) i
         = Some [("name", ("LicenseConfirmation" ++ str_of_nat i)%string);
                 ("url", or_empty (url prop));
                 ("json_key", or_empty (json_key prop));
                 ("message", message prop)].
Proof.
  intros props. unfold license_confirmations. repeat split.
  - rewrite length_map.
    generalize 0%nat. induction props as [|p props IH]; intros start;
      cbn [enumerate_from List.length]; [reflexivity|]. rewrite IH. reflexivity.
  - rewrite confirmations_names.
    apply Finite.Injective_map_NoDup; [|apply seq_NoDup].
    intros i j [= E]. apply MeshFacts.str_of_Z_inj in E. lia.
  - intros i prop Hi. rewrite (confirmations_nth props 0 i prop Hi). reflexivity.
Qed.

(** ** Skins, nodes and materials *)

Module SceneFacts.
Import Scene.

Lemma existsb_keys {V} (d : list (string * V)) k :
  existsb (String.eqb k) (map fst d) = dict_mem d k.
Proof.
  unfold dict_mem.
  induction d as [|[k' v] d IH]; cbn [map existsb dict_get fst]; [reflexivity|].
  destruct (String.eqb k k'); [reflexivity|exact IH].
Qed.

Lemma getkey_ok_dict target k v :
  getkey target k = Ok v -> exists d, target = JDict d /\ dict_get d k = Some v.
Proof.
  unfold getkey, getitem. destruct target; try discriminate.
  destruct (dict_get d k) eqn:E; [|discriminate]. intros [= <-]. eauto.
Qed.

Lemma getkey_dict d k :
  getkey (JDict d) k
  = match dict_get d k with Some v => Ok v | None => Raise (KeyError (JStr k)) end.
Proof. reflexivity. Qed.

Lemma skin_read_loop_ok skins : forall joints_list root_list,
  forallb (fun skin => is_ok (getkey skin "joints")) skins = true ->
  skin_read_loop skins joints_list root_list
  = Ok (joints_list ++ fields "joints" skins, root_list ++ fields "skeleton" skins).
Proof.
  unfold fields.
  induction skins as [|skin rest IH]; intros joints_list root_list Hall;
    cbn [skin_read_loop flat_map forallb] in *.
  - rewrite !app_nil_r. reflexivity.
  - apply andb_prop in Hall as [Hskin Hrest].
    destruct (getkey skin "joints") as [joints|] eqn:Ej; [|discriminate].
    apply getkey_ok_dict in Ej as (d & -> & Ej). cbn [bind Mesh.keys_of].
    rewrite existsb_keys, getkey_dict. unfold dict_mem.
    destruct (dict_get d "skeleton") as [skeleton|]; cbn [bind].
    + rewrite IH by assumption. rewrite <- !app_assoc. reflexivity.
    + rewrite IH by assumption. rewrite <- !app_assoc. reflexivity.
Qed.

Lemma skin_read_loop_raises skins : forall joints_list root_list,
  forallb (fun skin => is_ok (getkey skin "joints")) skins = false ->
  is_ok (skin_read_loop skins joints_list root_list) = false.
Proof.
  induction skins as [|skin rest IH]; intros joints_list root_list Hall;
    cbn [skin_read_loop forallb] in *; [discriminate|].
  destruct (getkey skin "joints") as [joints|] eqn:Ej; [|reflexivity].
  cbn [is_ok andb] in Hall.
  apply getkey_ok_dict in Ej as (d & -> & Ej). cbn [bind Mesh.keys_of].
  rewrite existsb_keys, getkey_dict. unfold dict_mem.
  destruct (dict_get d "skeleton"); cbn [bind]; apply IH; assumption.
Qed.

Lemma fields_length_le k members :
  (List.length (fields k members) <= List.length members)%nat.
Proof.
  unfold fields. induction members as [|m members IH]; cbn [flat_map List.length];
    [lia|].
  rewrite length_app. destruct (getkey m k); cbn [List.length]; lia.
Qed.

Lemma fields_length_all k members :
  forallb (fun member => is_ok (getkey member k)) members = true ->
  List.length (fields k members) = List.length members.
Proof.
  unfold fields. induction members as [|m members IH]; cbn [flat_map List.length forallb];
    [reflexivity|].
  intros Hall. apply andb_prop in Hall as [Hm Hrest].
  rewrite length_app, IH by assumption.
  destruct (getkey m k); [reflexivity|discriminate].
Qed.

End SceneFacts.

Import Scene SceneFacts.

(** X9. When every skin has a [joints] field, [skin_read] appends the
    joints of every skin, in order, to the first list, and to the second
    the [skeleton] of the skins that name one, so the second list can be
    shorter and its positions are not those of the skins; when a skin
    lacks [joints] it raises. *)
Theorem X9_skin_read_lists :
  forall (doc : json) (skins joints_list root_list : list json),
    dict_get_default doc "skins" (JList []) = Ok (JList skins) ->
    (forallb (fun skin => is_ok (getkey skin "joints")) skins = true ->
     skin_read doc joints_list root_list
     = Ok (joints_list ++ fields "joints" skins,
           root_list ++ fields "skeleton" skins)
     /\ List.length (fields "joints" skins) = List.length skins
     /\ (List.length (fields "skeleton" skins) <= List.length skins)%nat)
    /\ (forallb (fun skin => is_ok (getkey skin "joints")) skins = false ->
        is_ok (skin_read doc joints_list root_list) = false).
Proof.
  intros doc skins joints_list root_list Hskins. unfold skin_read.
  rewrite Hskins. cbn [bind iter_values]. split.
  - intros Hall. repeat split.
    + apply skin_read_loop_ok. assumption.
    + apply fields_length_all. assumption.
    + apply fields_length_le.
  - apply skin_read_loop_raises.
Qed.

Lemma X9_witness :
  skin_read
    (JDict [("skins",
             JList [JDict [("joints", JList [JInt 1; JInt 2])];
                    JDict [("joints", JList [JInt 3]); ("skeleton", JInt 0)]])])
    [] []
  = Ok ([JList [JInt 1; JInt 2]; JList [JInt 3]], [JInt 0]).
Proof.
  refine (proj1 (proj1 (X9_skin_read_lists
                          (JDict [("skins",
                                   JList [JDict [("joints", JList [JInt 1; JInt 2])];
                                          JDict [("joints", JList [JInt 3]);
                                                 ("skeleton", JInt 0)]])])
                          [JDict [("joints", JList [JInt 1; JInt 2])];
                           JDict [("joints", JList [JInt 3]); ("skeleton", JInt 0)]]
                          [] [] eq_refl) eq_refl)).
Defined.

Module NodeFacts.
Import Scene.

Section WithFactory.
Context `{Factory}.

Lemma idict_set_fresh {V} (d : list (nat * V)) k v :
  Forall (fun kv => (fst kv < k)%nat) d -> idict_set d k v = d ++ [(k, v)].
Proof.
  induction 1 as [|[k' v'] d Hk _ IH]; cbn [idict_set app]; [reflexivity|].
  cbn [fst] in Hk. replace (k =? k')%nat with false by (symmetry; apply Nat.eqb_neq; lia).
  rewrite IH. reflexivity.
Qed.

Lemma Forall_keys_weaken {V} (d : list (nat * V)) k :
  Forall (fun kv => (fst kv < k)%nat) d -> Forall (fun kv => (fst kv < S k)%nat) d.
Proof. apply Forall_impl. intros kv Hk. lia. Qed.

Lemma origin_of_keys i node b :
  Forall (fun kv => (fst kv < S i)%nat) (origin_of i node b).
Proof.
  unfold origin_of. destruct (getkey node "mesh"); repeat constructor.
Qed.

(** The loop, when it returns, has added one bone per node under the
    node's index and the origin entries of the nodes with a mesh. *)
Lemma node_read_loop_ok nodes : forall i nodes_dict origin_nodes_dict nd od,
  Forall (fun kv => (fst kv < i)%nat) nodes_dict ->
  Forall (fun kv => (fst kv < i)%nat) origin_nodes_dict ->
  node_read_loop nodes i nodes_dict origin_nodes_dict = Ok (nd, od) ->
  exists bones,
    Forall2 (fun node b => bone node = Ok b) nodes bones
    /\ nd = nodes_dict ++ combine (seq i (List.length nodes)) bones
    /\ od = origin_nodes_dict ++ origins i nodes bones.
Proof.
  induction nodes as [|node rest IH]; intros i nodes_dict origin_nodes_dict nd od Hn Ho;
    cbn [node_read_loop].
  - intros [= <- <-]. exists []. cbn [List.length seq combine origins].
    rewrite !app_nil_r. repeat split. constructor.
  - destruct (bone node) as [b|] eqn:Eb; cbn [bind]; [|discriminate].
    destruct (Mesh.keys_of node) as [keys|] eqn:Ek; cbn [bind]; [|discriminate].
    destruct node as [| | | | | |d]; try discriminate.
    injection Ek as <-. rewrite !SceneFacts.existsb_keys.
    rewrite (idict_set_fresh nodes_dict i b Hn).
    assert (Hn' : Forall (fun kv => (fst kv < S i)%nat) (nodes_dict ++ [(i, b)])).
    { apply Forall_app. split; [apply Forall_keys_weaken; assumption|].
      repeat constructor. }
    unfold dict_mem. rewrite !SceneFacts.getkey_dict.
    destruct (dict_get d "mesh") as [mesh|] eqn:Em; cbn [bind].
    + assert (Ho' : forall skin,
                 Forall (fun kv => (fst kv < S i)%nat)
                   (origin_nodes_dict ++ [(i, (b, mesh, skin))])).
      { intros skin. apply Forall_app. split; [apply Forall_keys_weaken; assumption|].
        repeat constructor. }
      destruct (dict_get d "skin") as [skin|] eqn:Es; cbn [bind].
      * rewrite (idict_set_fresh origin_nodes_dict i _ Ho). intros Hloop.
        apply IH in Hloop as (bones & HF & -> & ->); [|assumption|apply Ho'].
        exists (b :: bones). repeat split.
        -- constructor; assumption.
        -- cbn [List.length seq combine]. rewrite <- app_assoc. reflexivity.
        -- cbn [origins]. unfold origin_of. rewrite !SceneFacts.getkey_dict, Em, Es.
           rewrite <- app_assoc. reflexivity.
      * destruct (dict_get d "name") as [name|]; cbn [bind]; [|discriminate].
        destruct (Mesh.add_str name "is not have skin"); cbn [bind]; [|discriminate].
        rewrite (idict_set_fresh origin_nodes_dict i _ Ho). intros Hloop.
        apply IH in Hloop as (bones & HF & -> & ->); [|assumption|apply Ho'].
        exists (b :: bones). repeat split.
        -- constructor; assumption.
        -- cbn [List.length seq combine]. rewrite <- app_assoc. reflexivity.
        -- cbn [origins]. unfold origin_of. rewrite !SceneFacts.getkey_dict, Em, Es.
           rewrite <- app_assoc. reflexivity.
    + intros Hloop.
      apply IH in Hloop as (bones & HF & -> & ->);
        [|assumption|apply Forall_keys_weaken; assumption].
      exists (b :: bones). repeat split.
      * constructor; assumption.
      * cbn [List.length seq combine]. rewrite <- app_assoc. reflexivity.
      * cbn [origins]. unfold origin_of. rewrite !SceneFacts.getkey_dict, Em.
        reflexivity.
Qed.

(** A node that names a mesh and no skin stops the loop unless its name
    is a text: the message about it is built from the name. *)
Lemma node_read_loop_unnamed before : forall node after d i nodes_dict origin_nodes_dict,
  node = JDict d ->
  dict_get d "mesh" <> None -> dict_get d "skin" = None ->
  (forall s, dict_get d "name" <> Some (JStr s)) ->
  is_ok (node_read_loop (before ++ node :: after) i nodes_dict origin_nodes_dict)
  = false.
Proof.
  induction before as [|other before IH];
    intros node after d i nodes_dict origin_nodes_dict -> Hmesh Hskin Hname;
    cbn [app node_read_loop].
  - destruct (bone (JDict d)); cbn [bind Mesh.keys_of]; [|reflexivity].
    rewrite !SceneFacts.existsb_keys. unfold dict_mem.
    rewrite !SceneFacts.getkey_dict, Hskin.
    destruct (dict_get d "mesh"); [|congruence]. cbn [bind].
    destruct (dict_get d "name") as [name|] eqn:En; cbn [bind]; [|reflexivity].
    destruct name; cbn [Mesh.add_str bind]; try reflexivity.
    exfalso. exact (Hname s eq_refl).
  - destruct (bone other); cbn [bind]; [|reflexivity].
    destruct (Mesh.keys_of other) as [l|]; cbn [bind]; [|reflexivity].
    destruct (existsb (String.eqb "mesh") l).
    + destruct (getkey other "mesh"); cbn [bind]; [|reflexivity].
      destruct (existsb (String.eqb "skin") l).
      * destruct (getkey other "skin"); cbn [bind]; [|reflexivity].
        eapply IH; eauto.
      * destruct (getkey other "name"); cbn [bind]; [|reflexivity].
        destruct (Mesh.add_str _ _); cbn [bind]; [|reflexivity].
        eapply IH; eauto.
    + eapply IH; eauto.
Qed.

End WithFactory.
End NodeFacts.

Import NodeFacts.

(** X10. When [node_read] returns, started on empty dictionaries, the node
    dictionary holds under each index 0, 1, ... the bone built from the
    node of that index, and the origin dictionary holds, in order, an
    entry for every node that names a mesh: its index with the bone, the
    mesh, and the skin if the node names one. *)
Theorem X10_node_read_dictionaries :
  forall (F : Factory) (doc : json) (nodes : list json)
         (nodes_dict : list (nat * Bone)) (origin_nodes_dict : list (nat * origin)),
    getkey doc "nodes" = Ok (JList nodes) ->
    node_read doc [] [] = Ok (nodes_dict, origin_nodes_dict) ->
    exists bones,
      Forall2 (fun node b => bone node = Ok b) nodes bones
      /\ nodes_dict = combine (seq 0 (List.length nodes)) bones
      /\ origin_nodes_dict = origins 0 nodes bones.
Proof.
  intros F doc nodes nodes_dict origin_nodes_dict Hnodes. unfold node_read.
  rewrite Hnodes. cbn [bind iter_values]. intros Hloop.
  apply node_read_loop_ok in Hloop as (bones & HF & -> & ->); [|constructor|constructor].
  exists bones. auto.
Qed.

Lemma X10_witness :
  exists bones,
    Forall2 (fun node b => @bone sample_factory node = Ok b)
      [JDict [("name", JStr "hips")];
       JDict [("name", JStr "body"); ("mesh", JInt 0)]] bones
    /\ [(0%nat, JStr "hips"); (1%nat, JStr "body")]
       = combine (seq 0 2) bones.
Proof.
  destruct (X10_node_read_dictionaries sample_factory
              (JDict [("nodes", JList [JDict [("name", JStr "hips")];
                                       JDict [("name", JStr "body"); ("mesh", JInt 0)]])])
              [JDict [("name", JStr "hips")];
               JDict [("name", JStr "body"); ("mesh", JInt 0)]]
              [(0%nat, JStr "hips"); (1%nat, JStr "body")]
              [(1%nat, (JStr "body", JInt 0, None))]
              eq_refl eq_refl) as (bones & HF & Hn & _).
  exists bones. split; assumption.
Defined.

(** X11. A node that names a mesh and no skin makes [node_read] raise
    unless it has a name that is a text, because the notice printed for it
    is built from the name; the nodes before and after it do not matter. *)
Theorem X11_node_read_unnamed_mesh_node :
  forall (F : Factory) (doc : json) (before after : list json)
         (d : list (string * json))
         (nodes_dict : list (nat * Bone)) (origin_nodes_dict : list (nat * origin)),
    getkey doc "nodes" = Ok (JList (before ++ JDict d :: after)) ->
    dict_get d "mesh" <> None ->
    dict_get d "skin" = None ->
    (forall s, dict_get d "name" <> Some (JStr s)) ->
    is_ok (node_read doc nodes_dict origin_nodes_dict) = false.
Proof.
  intros F doc before after d nodes_dict origin_nodes_dict Hnodes Hmesh Hskin Hname.
  unfold node_read. rewrite Hnodes. cbn [bind iter_values].
  eapply node_read_loop_unnamed; eauto.
Qed.

Lemma X11_witness :
  is_ok (@node_read sample_factory
           (JDict [("nodes", JList [JDict [("mesh", JInt 0)]])]) [] [])
  = false.
Proof.
  apply (X11_node_read_unnamed_mesh_node sample_factory
           (JDict [("nodes", JList [JDict [("mesh", JInt 0)]])])
           [] [] [("mesh", JInt 0)] [] [] eq_refl).
  - discriminate.
  - reflexivity.
  - discriminate.
Defined.

Module MaterialFacts.
Import Scene.

Section WithFactory.
Context `{Factory}.

Lemma material_read_loop_zip mats : forall ext_mats materials,
  material_read_loop mats ext_mats materials
  = (built <- map_result (fun p => material (fst p) (snd p)) (combine mats ext_mats) ;;
     Ok (materials ++ somes built)).
Proof.
  induction mats as [|mat mats IH]; intros [|ext_mat ext_mats] materials;
    cbn [material_read_loop combine map_result bind somes flat_map];
    try (rewrite app_nil_r; reflexivity).
  cbn [fst snd]. destruct (material mat ext_mat) as [built|]; cbn [bind]; [|reflexivity].
  rewrite IH.
  destruct (map_result _ (combine mats ext_mats)) as [rest|]; cbn [bind]; [|reflexivity].
  fold (somes rest). destruct built; cbn [app]; [rewrite <- app_assoc|]; reflexivity.
Qed.

Lemma combine_repeat {A B} (l : list A) (b : B) :
  combine l (repeat b (List.length l)) = map (fun a => (a, b)) l.
Proof. induction l as [|a l IH]; cbn; [|rewrite IH]; reflexivity. Qed.

Lemma map_result_map {A B C} (f : B -> result C) (g : A -> B) l :
  map_result f (map g l) = map_result (fun a => f (g a)) l.
Proof.
  induction l as [|a l IH]; cbn [map map_result]; [reflexivity|].
  rewrite IH. reflexivity.
Qed.

Lemma somes_length built : (List.length (somes built) <= List.length built)%nat.
Proof.
  unfold somes. induction built as [|[m|] rest IH]; cbn [flat_map app List.length];
    lia.
Qed.

Lemma map_result_length {A B} (f : A -> result B) l out :
  map_result f l = Ok out -> List.length out = List.length l.
Proof.
  intros Hout. apply map_result_ok in Hout.
  symmetry. eapply Forall2_length; eauto.
Qed.

Lemma py_len_iter_values v n l :
  py_len v = Ok n -> iter_values v = Ok l -> List.length l = n.
Proof.
  destruct v; cbn [py_len iter_values]; try discriminate;
    intros [= <-] [= <-]; rewrite ?length_map; reflexivity.
Qed.

End WithFactory.
End MaterialFacts.

Import MaterialFacts.

(** X12. In a document without VRM material properties every glTF
    material is handed to the factory with the marker of the glTF shader,
    in order; the materials it gives are appended, and the first failure
    of the factory is the failure of [material_read]. *)
Theorem X12_material_read_without_properties :
  forall (F : Factory) (doc : json) (mats : list json) (materials : list Material),
    dict_get_default doc "materials" (JList []) = Ok (JList mats) ->
    (forall default,
        json_get doc ["extensions"; "VRM"; "materialProperties"] default = default) ->
    material_read doc materials
    = (built <- map_result (fun mat => material mat gltf_shader) mats ;;
       Ok (materials ++ somes built)).
Proof.
  intros F doc mats materials Hmats Habsent. unfold material_read.
  rewrite Hmats. cbn [bind py_len]. rewrite Habsent. cbn [iter_values bind].
  rewrite material_read_loop_zip, combine_repeat, map_result_map. reflexivity.
Qed.

Lemma X12_witness :
  @material_read sample_factory
    (JDict [("materials", JList [JStr "skin"; JStr "hair"])]) []
  = Ok [(JStr "skin", gltf_shader); (JStr "hair", gltf_shader)].
Proof.
  refine (eq_trans (X12_material_read_without_properties sample_factory
                      (JDict [("materials", JList [JStr "skin"; JStr "hair"])])
                      [JStr "skin"; JStr "hair"] [] eq_refl _) _).
  - intros default. reflexivity.
  - reflexivity.
Defined.

(** X13. When the document holds something that is not a list where the
    VRM material properties are looked up, [material_read] asks the factory
    for nothing and adds no material: it takes the length of the
    document's materials, for the default of the lookup, and returns. So
    it returns the materials as they were when the document's materials
    are absent or have a length (a list, a dictionary, a text), and it
    raises the type error of [len] when they have none (a number, null). *)
Theorem X13_material_read_properties_not_a_list :
  forall (F : Factory) (doc : json) (properties : json) (materials : list Material),
    (forall default,
        json_get doc ["extensions"; "VRM"; "materialProperties"] default = properties) ->
    type_of properties <> TList ->
    material_read doc materials
    = (json_materials <- dict_get_default doc "materials" (JList []) ;;
       _ <- py_len json_materials ;;
       Ok materials)
    /\ (forall json_materials n,
          dict_get_default doc "materials" (JList []) = Ok json_materials ->
          py_len json_materials = Ok n ->
          material_read doc materials = Ok materials)
    /\ (forall json_materials,
          dict_get_default doc "materials" (JList []) = Ok json_materials ->
          is_ok (py_len json_materials) = false ->
          material_read doc materials = Raise TypeError).
Proof.
  intros F doc properties materials Hprops Hkind.
  assert (Heq : material_read doc materials
                = (json_materials <- dict_get_default doc "materials" (JList []) ;;
                   _ <- py_len json_materials ;;
                   Ok materials)).
  { unfold material_read.
    destruct (dict_get_default doc "materials" (JList [])) as [json_materials|];
      cbn [bind]; [|reflexivity].
    destruct (py_len json_materials) as [n|]; cbn [bind]; [|reflexivity].
    rewrite Hprops.
    destruct properties; try reflexivity. exfalso. apply Hkind. reflexivity. }
  split; [exact Heq|]. split.
  - intros json_materials n Hm Hn. rewrite Heq, Hm. cbn [bind].
    rewrite Hn. reflexivity.
  - intros json_materials Hm Hn. rewrite Heq, Hm. cbn [bind].
    destruct json_materials; cbn [py_len is_ok] in Hn; try discriminate; reflexivity.
Qed.

Lemma X13_witness :
  @material_read sample_factory
    (JDict [("materials", JList [JStr "skin"]);
            ("extensions",
             JDict [("VRM", JDict [("materialProperties", JDict [])])])]) []
  = Ok []
  /\ @material_read sample_factory
       (JDict [("materials", JInt 5);
               ("extensions",
                JDict [("VRM", JDict [("materialProperties", JDict [])])])]) []
     = Raise TypeError.
Proof.
  split.
  - refine (proj1 (proj2 (X13_material_read_properties_not_a_list sample_factory
             (JDict [("materials", JList [JStr "skin"]);
                     ("extensions",
                      JDict [("VRM", JDict [("materialProperties", JDict [])])])])
             (JDict []) [] _ _)) (JList [JStr "skin"]) 1%nat eq_refl eq_refl).
    + intros default. reflexivity.
    + discriminate.
  - refine (proj2 (proj2 (X13_material_read_properties_not_a_list sample_factory
             (JDict [("materials", JInt 5);
                     ("extensions",
                      JDict [("VRM", JDict [("materialProperties", JDict [])])])])
             (JDict []) [] _ _)) (JInt 5) eq_refl eq_refl).
    + intros default. reflexivity.
    + discriminate.
Defined.

(** X14. [material_read] only appends: when it returns, the list it was
    given is the front of the list it gives, and it has added at most one
    material for each entry of the document's materials. *)
Theorem X14_material_read_appends :
  forall (F : Factory) (doc : json) (materials result_materials : list Material),
    material_read doc materials = Ok result_materials ->
    exists (added : list Material) (n : nat),
      result_materials = materials ++ added
      /\ (json_materials <- dict_get_default doc "materials" (JList []) ;;
          py_len json_materials) = Ok n
      /\ (List.length added <= n)%nat.
Proof.
  intros F doc materials result_materials. unfold material_read.
  destruct (dict_get_default doc "materials" (JList [])) as [json_materials|];
    cbn [bind]; [|discriminate].
  destruct (py_len json_materials) as [n|] eqn:En; cbn [bind]; [|discriminate].
  destruct (json_get doc _ _) as [| | | | |ext_mats|];
    try (intros [= <-]; exists [], n; rewrite app_nil_r; cbn; repeat split; lia).
  destruct (iter_values json_materials) as [mats|] eqn:Em; cbn [bind]; [|discriminate].
  rewrite material_read_loop_zip.
  destruct (map_result _ (combine mats ext_mats)) as [built|] eqn:Eb; cbn [bind];
    [|discriminate].
  intros [= <-]. exists (somes built), n. repeat split.
  pose proof (somes_length built) as Hs.
  apply map_result_length in Eb. rewrite length_combine in Eb.
  pose proof (py_len_iter_values _ _ _ En Em). lia.
Qed.

Lemma X14_witness :
  exists (added : list (@Material sample_factory)),
    [(JStr "skin", gltf_shader)] = [] ++ added /\ (List.length added <= 1)%nat.
Proof.
  destruct (X14_material_read_appends sample_factory
              (JDict [("materials", JList [JStr "skin"])]) []
              [(JStr "skin", gltf_shader)] eq_refl) as (added & n & Happ & Hn & Hle).
  injection Hn as <-. exists added. split; assumption.
Defined.

Module ReadFacts.
Import Scene Container.

Lemma requires_draco_listed `{Factory} `{Runtime} doc required :
  getkey doc "extensionsRequired" = Ok (JList required) ->
  In (JStr "KHR_DRACO_MESH_COMPRESSION") required ->
  requires_draco doc = Ok true.
Proof.
  intros Hkey Hin. unfold requires_draco.
  destruct (SceneFacts.getkey_ok_dict _ _ _ Hkey) as (d & -> & Hd).
  cbn [str_in bind]. unfold dict_mem. rewrite Hd. rewrite Hkey. cbn [bind str_in].
  f_equal. apply existsb_exists. eexists. split; [exact Hin|]. reflexivity.
Qed.

End ReadFacts.

Import ReadFacts.

(** X15. A container whose document lists KHR_DRACO_MESH_COMPRESSION among
    its required extensions is refused by [read_vrm], with or without the
    license check, and before the license is looked at or a material is
    built. *)
Theorem X15_read_vrm_refuses_draco :
  forall (F : Factory) (R : Runtime) (data body : bytes) (doc : json)
         (required : list json) (license_check : bool),
    parse_glb data = Ok (doc, body) ->
    getkey doc "extensionsRequired" = Ok (JList required) ->
    In (JStr "KHR_DRACO_MESH_COMPRESSION") required ->
    read_vrm data license_check = Raise DracoCompression.
Proof.
  intros F R data body doc required license_check Hglb Hkey Hin.
  unfold read_vrm. rewrite Hglb. cbn [bind].
  rewrite (requires_draco_listed doc required Hkey Hin). reflexivity.
Qed.

Lemma X15_witness :
  @read_vrm sample_factory fixture_runtime
    (encode_glb [json_chunk draco_text; bin_chunk sample_binary]) false
  = Raise DracoCompression.
Proof.
  apply (X15_read_vrm_refuses_draco sample_factory fixture_runtime
           (encode_glb [json_chunk draco_text; bin_chunk sample_binary])
           sample_binary draco_document
           [JStr "KHR_DRACO_MESH_COMPRESSION"] false).
  - vm_compute. reflexivity.
  - reflexivity.
  - left. reflexivity.
Defined.

(** X16. The license check of [read_vrm] does nothing but raise: with the
    check, [read_vrm] either gives exactly what it gives without the check,
    or it raises the license confirmation with all the findings on the
    document of the container, which is then not empty. So reading again
    without the check, after the confirmation, gives what the first
    reading would have given. *)
Theorem X16_read_vrm_license_check_only_raises :
  forall (F : Factory) (R : Runtime) (data : bytes),
    read_vrm data true = read_vrm data false
    \/ exists (doc : json) (body : bytes),
         parse_glb data = Ok (doc, body)
         /\ confirmations_of doc <> []
         /\ read_vrm data true
            = Raise (LicenseConfirmationRequired (confirmations_of doc)).
Proof.
  intros F R data. unfold read_vrm.
  destruct (parse_glb data) as [[doc body]|]; cbn [bind]; [|left; reflexivity].
  destruct (requires_draco doc) as [[|]|]; cbn [bind]; try (left; reflexivity).
  unfold validate_license.
  destruct (confirmations_of doc) as [|prop props] eqn:Ec; cbn [bind];
    [left; reflexivity|].
  right. exists doc, body. rewrite Ec.
  split; [reflexivity|]. split; [discriminate|reflexivity].
Qed.

Module DiffFacts.
Import Diff Text.

(** Induction on a document, with the property at hand for the members of
    a list and the values of a dictionary. *)
Lemma json_nested_ind (P : json -> Prop) :
  P JNull -> (forall b, P (JBool b)) -> (forall z, P (JInt z)) ->
  (forall f, P (JFloat f)) -> (forall s, P (JStr s)) ->
  (forall l, Forall P l -> P (JList l)) ->
  (forall d, Forall (fun kv => P (snd kv)) d -> P (JDict d)) ->
  forall v, P v.
Proof.
  intros Hnull Hbool Hint Hfloat Hstr Hlist Hdict.
  fix rec 1. intros [|b|z|f|s|l|d].
  - exact Hnull.
  - apply Hbool.
  - apply Hint.
  - apply Hfloat.
  - apply Hstr.
  - apply Hlist. induction l as [|a l IH]; constructor; [apply rec|exact IH].
  - apply Hdict. induction d as [|[k v] d IH]; constructor; [apply rec|exact IH].
Qed.

Lemma vrm_dict_diff_list l r path float_tolerance :
  vrm_dict_diff (JList l) (JList r) path float_tolerance
  = if negb (List.length l =? List.length r)%nat
    then Ok [LengthDiffers path (List.length l) (List.length r)]
    else diff_items path float_tolerance l r 0.
Proof.
  cbn [vrm_dict_diff]. destruct (negb _); [reflexivity|].
  generalize 0%nat as i. revert r.
  induction l as [|a l IH]; intros r i; cbn [diff_items]; [reflexivity|].
  destruct r as [|b r]; [reflexivity|]. rewrite IH. reflexivity.
Qed.

Lemma vrm_dict_diff_dict d rd path float_tolerance :
  vrm_dict_diff (JDict d) (JDict rd) path float_tolerance
  = diff_keys (map (fun kv => (fst kv, vrm_dict_diff (snd kv))) d) rd path
      float_tolerance (sorted_set (map fst d ++ map fst rd)).
Proof.
  cbn [vrm_dict_diff].
  match goal with
  | |- context [dict_get ?calls _] =>
      replace calls with (map (fun kv => (fst kv, vrm_dict_diff (snd kv))) d)
  end.
  - generalize (sorted_set (map fst d ++ map fst rd)) as ks.
    induction ks as [|key ks IH]; cbn [diff_keys]; [reflexivity|].
    rewrite IH. reflexivity.
  - induction d as [|[k v] d IH]; cbn [map fst snd]; [reflexivity|].
    rewrite IH. reflexivity.
Qed.

Lemma dict_get_calls {V W} (f : V -> W) (d : list (string * V)) k :
  dict_get (map (fun kv => (fst kv, f (snd kv))) d) k = option_map f (dict_get d k).
Proof.
  induction d as [|[k' v] d IH]; cbn [map dict_get fst snd]; [reflexivity|].
  destruct (String.eqb k k'); [reflexivity|exact IH].
Qed.

Lemma dict_get_member {V} (d : list (string * V)) k v :
  dict_get d k = Some v -> In (k, v) d.
Proof.
  induction d as [|[k' v'] d IH]; cbn [dict_get]; [discriminate|].
  destruct (String.eqb k k') eqn:E.
  - apply String.eqb_eq in E. intros [= <-]. subst. left. reflexivity.
  - intros Hd. right. auto.
Qed.

Lemma dict_get_of_key {V} (d : list (string * V)) k :
  In k (map fst d) -> exists v, dict_get d k = Some v.
Proof.
  induction d as [|[k' v'] d IH]; cbn [map fst dict_get In]; [contradiction|].
  intros [<-|Hin].
  - rewrite String.eqb_refl. eauto.
  - destruct (String.eqb k k'); eauto.
Qed.

Lemma insert_key_in k k' l : In k (insert_key k' l) -> k = k' \/ In k l.
Proof.
  induction l as [|a l IH]; cbn [insert_key In].
  - intros [<-|[]]. left. reflexivity.
  - destruct (String.compare k' a); cbn [In]; intuition auto.
Qed.

Lemma sorted_set_in k keys : In k (sorted_set keys) -> In k keys.
Proof.
  unfold sorted_set. induction keys as [|a keys IH]; cbn [fold_right In]; [auto|].
  intros Hin. apply insert_key_in in Hin as [->|Hin]; auto.
Qed.

(** *** Paths *)

Lemma startswith_refl s : startswith s s = true.
Proof.
  induction s as [|c s IH]; cbn [startswith]; [reflexivity|].
  rewrite Ascii.eqb_refl. exact IH.
Qed.

Lemma startswith_app p x : startswith (p ++ x)%string p = true.
Proof.
  induction p as [|c p IH]; cbn [String.append]; [destruct x; reflexivity|].
  cbn [startswith]. rewrite Ascii.eqb_refl. exact IH.
Qed.

Lemma startswith_trans a : forall b c,
  startswith b a = true -> startswith c b = true -> startswith c a = true.
Proof.
  induction a as [|x a IH]; intros b c; [destruct c; reflexivity|].
  destruct b as [|y b]; [discriminate|].
  destruct c as [|z c]; [discriminate|]. cbn [startswith].
  intros Hba Hcb. apply andb_true_iff in Hba as [Hyx Hba].
  apply andb_true_iff in Hcb as [Hzy Hcb].
  apply Ascii.eqb_eq in Hyx, Hzy. subst. rewrite Ascii.eqb_refl.
  cbn [andb]. eauto.
Qed.

Lemma under_extends path longer ds :
  startswith longer path = true -> under longer ds -> under path ds.
Proof.
  intros Hp. apply Forall_impl. intros d Hd. eapply startswith_trans; eauto.
Qed.

Lemma under_one path d : path_of d = path -> under path [d].
Proof. intros <-. repeat constructor. apply startswith_refl. Qed.

Lemma leaf_diff_under left right path float_tolerance ds :
  leaf_diff left right path float_tolerance = Ok ds -> under path ds.
Proof.
  unfold leaf_diff.
  destruct (is_none left && negb (is_none right)).
  { intros [= <-]. apply under_one. reflexivity. }
  destruct (is_int left && is_int right).
  { destruct (negb _); intros [= <-]; [apply under_one; reflexivity|constructor]. }
  destruct (is_int_or_float left && is_int_or_float right); [|discriminate].
  destruct (to_float left); cbn [bind]; [|discriminate].
  destruct (to_float right); cbn [bind]; [|discriminate].
  destruct (_ <? _)%float; intros [= <-]; [apply under_one; reflexivity|constructor].
Qed.

Lemma vrm_dict_diff_under left :
  forall right path float_tolerance ds,
    vrm_dict_diff left right path float_tolerance = Ok ds -> under path ds.
Proof.
  induction left as [|b|z|f|s|l IH|d IH] using json_nested_ind;
    intros right path float_tolerance ds;
    try (exact (leaf_diff_under _ right path float_tolerance ds)).
  - destruct right; cbn [vrm_dict_diff];
      try (intros [= <-]; apply under_one; reflexivity).
    destruct (negb _); intros [= <-]; [apply under_one; reflexivity|constructor].
  - destruct right; cbn [vrm_dict_diff];
      try (intros [= <-]; apply under_one; reflexivity).
    destruct (negb _); intros [= <-]; [apply under_one; reflexivity|constructor].
  - destruct right as [| | | | |r|];
      try (cbn [vrm_dict_diff]; intros [= <-]; apply under_one; reflexivity).
    rewrite vrm_dict_diff_list.
    destruct (negb _); [intros [= <-]; apply under_one; reflexivity|].
    generalize 0%nat as i. revert r ds.
    induction IH as [|a l Ha _ IHl]; intros r ds i; cbn [diff_items].
    + intros [= <-]. constructor.
    + destruct r as [|b r]; [intros [= <-]; constructor|].
      destruct (vrm_dict_diff a b _ _) as [da|] eqn:Ea; cbn [bind]; [|discriminate].
      destruct (diff_items _ _ l r _) as [dr|] eqn:Er; cbn [bind]; [|discriminate].
      intros [= <-]. apply Forall_app. split.
      * eapply under_extends; [|eapply Ha; exact Ea]. apply startswith_app.
      * eapply IHl. exact Er.
  - destruct right as [| | | | | |rd];
      try (cbn [vrm_dict_diff]; intros [= <-]; apply under_one; reflexivity).
    rewrite vrm_dict_diff_dict.
    generalize (sorted_set (map fst d ++ map fst rd)) as ks. intros ks. revert ds.
    induction ks as [|key ks IHk]; intros ds; cbn [diff_keys].
    + intros [= <-]. constructor.
    + rewrite dict_get_calls.
      destruct (dict_get d key) as [v|] eqn:Ev; cbn [option_map].
      * destruct (dict_get rd key) as [rv|].
        -- destruct (vrm_dict_diff v rv _ _) as [dv|] eqn:Edv; cbn [bind];
             [|discriminate].
           destruct (diff_keys _ rd _ _ ks) as [dr|]; cbn [bind]; [|discriminate].
           intros [= <-]. apply Forall_app. split; [|apply IHk; reflexivity].
           apply dict_get_member in Ev.
           rewrite Forall_forall in IH. specialize (IH _ Ev). cbn [snd] in IH.
           eapply under_extends; [|eapply IH; exact Edv]. apply startswith_app.
        -- destruct (diff_keys _ rd _ _ ks) as [dr|]; cbn [bind]; [|discriminate].
           intros [= <-]. constructor; [apply startswith_refl|apply IHk; reflexivity].
      * destruct (diff_keys _ rd _ _ ks) as [dr|]; cbn [bind]; [|discriminate].
        intros [= <-]. constructor; [apply startswith_refl|apply IHk; reflexivity].
Qed.

(** *** A document against itself *)

(** The error of a float against itself is zero or not a number, and so
    not above a tolerance that is not negative. *)
Lemma self_error_within (f float_tolerance : float) :
  (float_tolerance <? 0)%float = false ->
  (float_tolerance <? abs (f - f))%float = false.
Proof.
  rewrite !FloatAxioms.ltb_spec, FloatAxioms.abs_spec, FloatAxioms.sub_spec.
  change (Prim2SF 0) with (S754_zero false).
  unfold FloatAxioms.SF64sub. destruct (Prim2SF f) as [s|s| |s m e]; cbn [SFsub].
  - destruct s; cbn [SFabs]; auto.
  - destruct s; cbn [SFabs]; unfold SFltb, SFcompare;
      destruct (Prim2SF float_tolerance); reflexivity.
  - unfold SFltb, SFcompare. destruct (Prim2SF float_tolerance); reflexivity.
  - cbv zeta. rewrite Z.sub_diag. cbn [binary_normalize SFabs]. auto.
Qed.

Lemma leaf_diff_self v path float_tolerance :
  null_free v = true -> is_int_or_float v = true ->
  (float_tolerance <? 0)%float = false ->
  leaf_diff v v path float_tolerance = Ok [].
Proof.
  intros _ Hnum Htol. destruct v; try discriminate; unfold leaf_diff;
    cbn [is_none is_int is_int_or_float andb negb int_value to_float bind].
  - destruct b; reflexivity.
  - rewrite Z.eqb_refl. reflexivity.
  - rewrite (self_error_within f float_tolerance Htol). reflexivity.
Qed.

Lemma vrm_dict_diff_self float_tolerance :
  (float_tolerance <? 0)%float = false ->
  forall v, null_free v = true ->
  forall path, vrm_dict_diff v v path float_tolerance = Ok [].
Proof.
  intros Htol.
  induction v as [|b|z|f|s|l IH|d IH] using json_nested_ind; intros Hfree path.
  - discriminate.
  - cbn [vrm_dict_diff]. rewrite Bool.eqb_reflx. reflexivity.
  - apply leaf_diff_self; auto.
  - apply leaf_diff_self; auto.
  - cbn [vrm_dict_diff]. rewrite String.eqb_refl. reflexivity.
  - rewrite vrm_dict_diff_list, Nat.eqb_refl. cbn [negb].
    cbn [null_free] in Hfree. generalize 0%nat as i.
    induction IH as [|a l Ha _ IHl]; intros i; cbn [diff_items]; [reflexivity|].
    cbn [forallb] in Hfree. apply andb_true_iff in Hfree as [Hfa Hfl].
    rewrite (Ha Hfa), (IHl Hfl). reflexivity.
  - rewrite vrm_dict_diff_dict. cbn [null_free] in Hfree.
    assert (Hks : Forall (fun k => In k (map fst d))
                    (sorted_set (map fst d ++ map fst d))).
    { apply Forall_forall. intros k Hin. apply sorted_set_in in Hin.
      apply in_app_or in Hin. tauto. }
    revert Hks. generalize (sorted_set (map fst d ++ map fst d)) as ks.
    induction ks as [|key ks IHk]; intros Hks; cbn [diff_keys]; [reflexivity|].
    inversion Hks as [|? ? Hkey Hrest]; subst.
    rewrite dict_get_calls.
    destruct (dict_get_of_key d key Hkey) as [v Hv]. rewrite Hv. cbn [option_map].
    apply dict_get_member in Hv.
    rewrite Forall_forall in IH. specialize (IH _ Hv). cbn [snd] in IH.
    rewrite forallb_forall in Hfree. specialize (Hfree _ Hv). cbn [snd] in Hfree.
    rewrite (IH Hfree), (IHk Hrest). reflexivity.
Qed.

End DiffFacts.

Import DiffFacts.

(** X17. Every line that [vrm_dict_diff] reports is about the given path
    or a place below it: the path of each reported difference starts with
    the path the comparison was called with. *)
Theorem X17_vrm_dict_diff_reports_below_path :
  forall (left right : json) (path : string) (float_tolerance : float)
         (diffs : list difference),
    vrm_dict_diff left right path float_tolerance = Ok diffs ->
    Forall (fun d => Text.startswith (path_of d) path = true) diffs.
Proof.
  intros left right path float_tolerance diffs Hdiff.
  exact (vrm_dict_diff_under left right path float_tolerance diffs Hdiff).
Qed.

Lemma X17_witness :
  Forall (fun d => Text.startswith (path_of d) "root" = true)
    [ValueDiffers (index_path (key_path "root" "a") 0) (JInt 1) (JInt 2);
     NotInRight "root" "b"].
Proof.
  apply (X17_vrm_dict_diff_reports_below_path
           (JDict [("a", JList [JInt 1]); ("b", JStr "x")])
           (JDict [("a", JList [JInt 2])]) "root" 0%float).
  vm_compute. reflexivity.
Defined.

(** X18. A document that holds no [None] compared with itself gives no
    difference, at every path and for every tolerance that is not
    negative: the error of a float against itself is zero or not a number,
    and neither is above the tolerance. *)
Theorem X18_vrm_dict_diff_against_itself :
  forall (document : json) (path : string) (float_tolerance : float),
    null_free document = true ->
    (float_tolerance <? 0)%float = false ->
    vrm_dict_diff document document path float_tolerance = Ok [].
Proof.
  intros document path float_tolerance Hfree Htol.
  apply vrm_dict_diff_self; assumption.
Qed.

Lemma X18_witness :
  vrm_dict_diff
    (JDict [("scale", JList [JFloat 0.5%float; JFloat infinity; JInt 2]);
            ("name", JStr "Body")])
    (JDict [("scale", JList [JFloat 0.5%float; JFloat infinity; JInt 2]);
            ("name", JStr "Body")]) "" 0%float
  = Ok [].
Proof.
  apply (X18_vrm_dict_diff_against_itself
           (JDict [("scale", JList [JFloat 0.5%float; JFloat infinity; JInt 2]);
                   ("name", JStr "Body")]) "" 0%float); reflexivity.
Defined.

Module CreateFacts.

Lemma dict_get_set_same {V} (d : list (string * V)) k v :
  dict_get (dict_set d k v) k = Some v.
Proof.
  induction d as [|[k' v'] d IH]; cbn [dict_set dict_get].
  - rewrite String.eqb_refl. reflexivity.
  - destruct (String.eqb k k') eqn:E; cbn [dict_get].
    + rewrite String.eqb_refl. reflexivity.
    + rewrite E. exact IH.
Qed.

Lemma dict_get_set_other {V} (d : list (string * V)) k v k' :
  k' <> k -> dict_get (dict_set d k v) k' = dict_get d k'.
Proof.
  intros Hne. induction d as [|[k0 v0] d IH]; cbn [dict_set dict_get].
  - apply String.eqb_neq in Hne. rewrite Hne. reflexivity.
  - destruct (String.eqb k k0) eqn:E; cbn [dict_get].
    + apply String.eqb_eq in E. subst k0.
      apply String.eqb_neq in Hne. rewrite Hne. reflexivity.
    + rewrite IH. reflexivity.
Qed.

End CreateFacts.

(** X19. [create_vrm_dict] gives the document of the container with one
    field set: the decoded accessors are found under ~accessors_decoded,
    and every other key is found as in the document that was parsed. *)
Theorem X19_create_vrm_dict_adds_decoded :
  forall (R : Runtime) (data body : bytes) (d : list (string * json))
         (decoded : list json),
    parse_glb data = Ok (JDict d, body) ->
    decode_bin (JDict d) body = Ok decoded ->
    exists d',
      create_vrm_dict data = Ok (JDict d')
      /\ dict_get d' "~accessors_decoded" = Some (JList decoded)
      /\ forall k, k <> "~accessors_decoded" -> dict_get d' k = dict_get d k.
Proof.
  intros R data body d decoded Hglb Hdec. unfold create_vrm_dict.
  rewrite Hglb. cbn [bind]. rewrite Hdec. cbn [bind].
  eexists. split; [reflexivity|]. split.
  - apply CreateFacts.dict_get_set_same.
  - intros k Hk. apply CreateFacts.dict_get_set_other. exact Hk.
Qed.

Lemma X19_witness :
  exists d',
    @create_vrm_dict fixture_runtime
      (encode_glb [json_chunk sample_text; bin_chunk sample_binary])
    = Ok (JDict d')
    /\ dict_get d' "~accessors_decoded"
       = Some (JList [JList [JInt 0; JInt 1; JInt 2];
                      JList [JList [JFloat u_02; JFloat v_m03]]]).
Proof.
  destruct (X19_create_vrm_dict_adds_decoded fixture_runtime
              (encode_glb [json_chunk sample_text; bin_chunk sample_binary])
              sample_binary
              [("bufferViews", sample_buffer_views);
               ("accessors", JList sample_accessors)]
              [JList [JInt 0; JInt 1; JInt 2];
               JList [JList [JFloat u_02; JFloat v_m03]]])
    as (d' & Hcreate & Hget & _).
  - vm_compute. reflexivity.
  - vm_compute. reflexivity.
  - exists d'. split; assumption.
Defined.

(** X20. [vrm_diff] of a container against itself reports nothing when
    the document built from it holds no [None] and the tolerance is not
    negative. *)
Theorem X20_vrm_diff_against_itself :
  forall (R : Runtime) (data : bytes) (document : json) (float_tolerance : float),
    create_vrm_dict data = Ok document ->
    null_free document = true ->
    (float_tolerance <? 0)%float = false ->
    vrm_diff data data float_tolerance = Ok [].
Proof.
  intros R data document float_tolerance Hcreate Hfree Htol.
  unfold vrm_diff. rewrite Hcreate. cbn [bind].
  apply vrm_dict_diff_self; assumption.
Qed.

Lemma X20_witness :
  @vrm_diff fixture_runtime
    (encode_glb [json_chunk sample_text; bin_chunk sample_binary])
    (encode_glb [json_chunk sample_text; bin_chunk sample_binary]) 0%float
  = Ok [].
Proof.
  apply (X20_vrm_diff_against_itself fixture_runtime
           (encode_glb [json_chunk sample_text; bin_chunk sample_binary])
           (JDict [("bufferViews", sample_buffer_views);
                   ("accessors", JList sample_accessors);
                   ("~accessors_decoded",
                    JList [JList [JInt 0; JInt 1; JInt 2];
                           JList [JList [JFloat u_02; JFloat v_m03]]])])
           0%float).
  - vm_compute. reflexivity.
  - reflexivity.
  - reflexivity.
Defined.

Module HeaderFacts.
Import BinaryReader Container Glb ReaderFacts.

(** The chunk loop on the encoding of well-formed chunks followed by
    anything is the loop on the chunks. *)
Lemma read_chunks_encoded_then cs : forall fuel pre post json_str body,
  forallb chunk_ok cs = true ->
  (List.length cs <= fuel)%nat ->
  read_chunks fuel (standing pre (encode_chunks cs ++ post))
    (Z.of_nat (List.length (encode_chunks cs))) json_str body
  = demux cs json_str body.
Proof.
  induction cs as [|[tag payload] cs IH]; intros fuel pre post json_str body Hok Hfuel.
  - destruct fuel; reflexivity.
  - cbn [forallb] in Hok. apply andb_prop in Hok as [Hc Hcs].
    unfold chunk_ok in Hc; cbn [fst snd] in Hc.
    apply andb_prop in Hc as [Hc Hsize]. apply andb_prop in Hc as [Hlen Hutf].
    apply Nat.eqb_eq in Hlen. apply Z.ltb_lt in Hsize.
    destruct fuel as [|fuel]; [cbn [List.length] in Hfuel; lia|].
    cbn [List.length] in Hfuel.
    cbn [encode_chunks concat map]. fold (encode_chunks cs).
    cbn [read_chunks demux].
    assert (Hpos : (Z.of_nat (List.length (encode_chunk (tag, payload)
                                             ++ encode_chunks cs)) >? 0) = true).
    { apply Z.gtb_lt. rewrite length_app, GlbFacts.length_encode_chunk. lia. }
    rewrite Hpos.
    destruct (is_some json_str && is_some body); [reflexivity|].
    unfold encode_chunk; cbn [fst snd]. rewrite <- !app_assoc.
    rewrite read_unsigned_int_standing by lia. cbn [bind].
    rewrite read_str_standing by (assumption || lia). cbn [bind].
    rewrite read_binary_standing. cbn [bind].
    replace (Z.of_nat (List.length (u32 (Z.of_nat (List.length payload))
               ++ list_byte_of_string tag ++ payload ++ encode_chunks cs))
             - 4 - 4 - Z.of_nat (List.length payload))
      with (Z.of_nat (List.length (encode_chunks cs)))
      by (rewrite !length_app, length_u32, Hlen; lia).
    destruct (String.eqb tag BIN_tag); [apply IH; [assumption|lia]|].
    destruct (String.eqb tag "JSON"); [|reflexivity].
    destruct (decode_utf8 payload); cbn [bind]; [|reflexivity].
    apply IH; [assumption|lia].
Qed.

Lemma parse_glb_encoded_then `{Runtime} cs post :
  glb_ok cs = true ->
  parse_glb (encode_glb cs ++ post)
  = ('(json_str, body) <- demux cs None None ;; load_json json_str body).
Proof.
  intros Hok. unfold glb_ok in Hok. apply andb_prop in Hok as [Hcs Htotal].
  apply Z.ltb_lt in Htotal.
  unfold parse_glb, encode_glb. rewrite <- !app_assoc.
  change (init ?d) with (standing [] d).
  rewrite read_str_standing by reflexivity. cbn [bind negb String.eqb].
  change (negb (String.eqb "glTF" "glTF")) with false. cbv iota.
  unfold read_as_data_type.
  change (GlConstants.UNSIGNED_INT =? GlConstants.UNSIGNED_INT) with true. cbv iota.
  fold (read_unsigned_int (standing ([] ++ list_byte_of_string "glTF")
          (u32 2 ++ u32 (12 + Z.of_nat (List.length (encode_chunks cs)))
             ++ encode_chunks cs ++ post))).
  rewrite read_unsigned_int_standing by lia. cbn [bind eq_int].
  change (negb (2 =? 2)) with false. cbv iota.
  fold (read_unsigned_int (standing (([] ++ list_byte_of_string "glTF") ++ u32 2)
          (u32 (12 + Z.of_nat (List.length (encode_chunks cs)))
             ++ encode_chunks cs ++ post))).
  rewrite read_unsigned_int_standing by lia. cbn [bind as_index].
  replace (12 + Z.of_nat (List.length (encode_chunks cs)) - 12)
    with (Z.of_nat (List.length (encode_chunks cs))) by lia.
  rewrite read_chunks_encoded_then; [reflexivity|assumption|].
  pose proof (GlbFacts.length_encode_chunks cs). rewrite !length_app. lia.
Qed.

Lemma read_binary_value br size bs br' :
  read_binary br size = Ok (bs, br') ->
  bs = firstn (Z.to_nat size) (skipn (Z.to_nat (pos br)) (data br))
  /\ br' = mk (data br) (pos br + size)
  /\ 0 <= pos br /\ 0 <= size
  /\ pos br + size <= Z.of_nat (List.length (data br)).
Proof.
  intros Hread. pose proof (GlbFacts.read_binary_ok _ _ _ _ Hread) as (_ & _ & H1 & H2 & H3).
  unfold read_binary in Hread. destruct (_ || _); [discriminate|].
  injection Hread as <- <-. repeat split; assumption.
Qed.

Lemma load_json_dict `{Runtime} json_str body doc payload :
  load_json json_str body = Ok (doc, payload) -> type_of doc = TDict.
Proof.
  unfold load_json. destruct json_str as [[|c s]|]; try discriminate.
  destruct (json_loads _) as [json_obj|]; cbn [bind]; [|discriminate].
  destruct json_obj; try discriminate. intros [= <- _]. reflexivity.
Qed.

End HeaderFacts.

(** X21. On a well-formed container, one whose chunks fill the length its
    header declares, followed by any bytes, [parse_glb] gives what it
    gives on the container alone: the bytes after the last chunk are not
    looked at. *)
Theorem X21_parse_glb_ignores_trailing_bytes :
  forall (R : Runtime) (cs : list chunk) (trailing : bytes),
    glb_ok cs = true ->
    parse_glb (encode_glb cs ++ trailing) = parse_glb (encode_glb cs).
Proof.
  intros R cs trailing Hok.
  rewrite HeaderFacts.parse_glb_encoded_then by assumption.
  rewrite parse_glb_encoded by assumption. reflexivity.
Qed.

Lemma X21_witness :
  @parse_glb Sample.runtime
    (encode_glb [json_chunk "{}"; bin_chunk sample_binary] ++ [xff; xff; xff])
  = @parse_glb Sample.runtime (encode_glb [json_chunk "{}"; bin_chunk sample_binary]).
Proof.
  apply (X21_parse_glb_ignores_trailing_bytes Sample.runtime
           [json_chunk "{}"; bin_chunk sample_binary] [xff; xff; xff]).
  vm_compute. reflexivity.
Defined.

(** X22. What [parse_glb] accepts: whenever it returns, the data starts
    with the four bytes of the signature glTF, the next four bytes are the
    number 2 in little-endian order, the data holds at least the twelve
    bytes of the header, and the document returned is a dictionary. *)
Theorem X22_parse_glb_accepts_only_version_2_containers :
  forall (R : Runtime) (data body : bytes) (doc : json),
    parse_glb data = Ok (doc, body) ->
    firstn 4 data = list_byte_of_string "glTF"
    /\ le_uint (firstn 4 (skipn 4 data)) = 2
    /\ (12 <= List.length data)%nat
    /\ type_of doc = TDict.
Proof.
  intros R data body doc. unfold parse_glb.
  unfold read_str at 1.
  destruct (read_binary (init data) 4) as [[magic_bytes r1]|] eqn:E1; cbn [bind];
    [|discriminate].
  apply HeaderFacts.read_binary_value in E1 as (-> & -> & _ & _ & _).
  cbn [init BinaryReader.data pos skipn Z.to_nat Pos.to_nat Pos.iter_op Nat.add].
  unfold decode_utf8. destruct (utf8_valid _); cbn [bind]; [|discriminate].
  destruct (String.eqb _ "glTF") eqn:Emagic; cbn [negb]; [|discriminate].
  apply String.eqb_eq in Emagic.
  apply (f_equal list_byte_of_string) in Emagic.
  rewrite list_byte_of_string_of_list_byte in Emagic.
  unfold read_as_data_type.
  change (GlConstants.UNSIGNED_INT =? GlConstants.UNSIGNED_INT) with true. cbv iota.
  unfold read_uint.
  destruct (read_binary _ 4) as [[version_bytes r2]|] eqn:E2; cbn [bind];
    [|discriminate].
  apply HeaderFacts.read_binary_value in E2 as (-> & -> & _ & _ & _).
  cbn [BinaryReader.data pos eq_int].
  destruct (le_uint _ =? 2) eqn:Eversion; cbn [negb]; [|discriminate].
  apply Z.eqb_eq in Eversion.
  destruct (read_binary _ 4) as [[size_bytes r3]|] eqn:E3; cbn [bind];
    [|discriminate].
  apply HeaderFacts.read_binary_value in E3 as (-> & -> & _ & _ & Hlen).
  cbn [BinaryReader.data pos as_index bind] in *.
  destruct (read_chunks _ _ _ None None) as [[json_str payload]|]; cbn [bind];
    [|discriminate].
  intros Hload. apply HeaderFacts.load_json_dict in Hload.
  repeat split; try assumption. lia.
Qed.

Lemma X22_witness :
  firstn 4 (encode_glb [json_chunk "{}"; bin_chunk sample_binary])
  = list_byte_of_string "glTF"
  /\ le_uint (firstn 4 (skipn 4 (encode_glb [json_chunk "{}"; bin_chunk sample_binary])))
     = 2.
Proof.
  destruct (X22_parse_glb_accepts_only_version_2_containers Sample.runtime
              (encode_glb [json_chunk "{}"; bin_chunk sample_binary])
              sample_binary (JDict []))
    as (Hmagic & Hversion & _).
  - vm_compute. reflexivity.
  - split; assumption.
Defined.

Module AccessorFacts.
Import BinaryReader Decode Container ReaderFacts.

Lemma read_scalars values : forall pre post count,
  Forall (fun v => 0 <= v < 2 ^ 32) values ->
  read_data_list (List.length values) 1 (standing pre (encode_scalars values ++ post))
    (scalar_accessor count)
  = Ok (map JInt values, standing (pre ++ encode_scalars values) post).
Proof.
  unfold encode_scalars.
  induction values as [|v values IH]; intros pre post count Hvalues;
    cbn [List.length read_data_list map concat app].
  - rewrite app_nil_r. reflexivity.
  - inversion Hvalues as [|? ? Hv Hrest]; subst.
    unfold read_data. change (1 =? 1) with true. cbv iota.
    unfold read_component, scalar_accessor. cbn [getkey getitem dict_get String.eqb
      Ascii.eqb Bool.eqb bind].
    change (getkey (JDict ?d) "componentType") with (Ok (JInt GlConstants.UNSIGNED_INT)).
    cbn [bind]. unfold read_as_data_type.
    change (GlConstants.UNSIGNED_INT =? GlConstants.UNSIGNED_INT) with true. cbv iota.
    fold (read_unsigned_int (standing pre ((u32 v ++ concat (map u32 values)) ++ post))).
    rewrite <- app_assoc.
    rewrite read_unsigned_int_standing by assumption. cbn [bind].
    fold (scalar_accessor count).
    rewrite (IH (pre ++ u32 v) post count Hrest). cbn [bind].
    rewrite <- app_assoc. reflexivity.
Qed.

Lemma read_component_same a a' br :
  same_fields a a' -> read_component br a = read_component br a'.
Proof.
  intros Hsame. unfold read_component.
  rewrite (Hsame "componentType") by (cbn; tauto). reflexivity.
Qed.

Lemma read_group_same a a' n : forall br,
  same_fields a a' -> read_group n br a = read_group n br a'.
Proof.
  induction n as [|n IH]; intros br Hsame; cbn [read_group]; [reflexivity|].
  rewrite (read_component_same a a' br Hsame).
  destruct (read_component br a') as [[v br1]|]; cbn [bind]; [|reflexivity].
  rewrite (IH br1 Hsame). reflexivity.
Qed.

Lemma read_data_list_same a a' type_num count : forall br,
  same_fields a a' ->
  read_data_list count type_num br a = read_data_list count type_num br a'.
Proof.
  induction count as [|count IH]; intros br Hsame; cbn [read_data_list];
    [reflexivity|].
  unfold read_data.
  rewrite (read_component_same a a' br Hsame), (read_group_same a a' _ br Hsame).
  destruct (if type_num =? 1 then _ else _) as [[d br1]|]; cbn [bind]; [|reflexivity].
  rewrite (IH br1 Hsame). reflexivity.
Qed.

Lemma decode_accessor_same buffer_views br a a' :
  same_fields a a' ->
  decode_accessor buffer_views br a = decode_accessor buffer_views br a'.
Proof.
  intros Hsame. unfold decode_accessor.
  pose proof (Hsame "type" ltac:(cbn; tauto)) as Htype.
  pose proof (Hsame "bufferView" ltac:(cbn; tauto)) as Hview.
  pose proof (Hsame "count" ltac:(cbn; tauto)) as Hcount.
  rewrite <- Htype.
  destruct (getkey a "type") as [type_tag|] eqn:Et; cbn [bind]; [|reflexivity].
  destruct (SceneFacts.getkey_ok_dict _ _ _ Et) as (d & -> & _).
  symmetry in Htype.
  destruct (SceneFacts.getkey_ok_dict _ _ _ Htype) as (d' & -> & _).
  destruct (type_num_of type_tag) as [type_num|]; cbn [bind]; [|reflexivity].
  cbn [contains bind]. unfold dict_mem.
  rewrite <- Hview, <- Hcount. rewrite !SceneFacts.getkey_dict in *.
  destruct (dict_get d "bufferView") as [view_index|];
    destruct (dict_get d' "bufferView") as [view_index'|]; try discriminate;
    cbn [negb bind]; [|reflexivity].
  destruct (getitem buffer_views view_index) as [view|]; cbn [bind]; [|reflexivity].
  destruct (getkey view "byteOffset") as [offset|]; cbn [bind]; [|reflexivity].
  destruct (seek br offset) as [br1|]; cbn [bind]; [|reflexivity].
  destruct (dict_get d "count") as [count|]; cbn [bind]; [|reflexivity].
  destruct (range_len count) as [n|]; cbn [bind]; [|reflexivity].
  rewrite (read_data_list_same (JDict d) (JDict d') type_num n br1 Hsame).
  reflexivity.
Qed.

Lemma decode_accessors_same buffer_views accessors accessors' :
  Forall2 same_fields accessors accessors' ->
  forall br,
    decode_accessors buffer_views br accessors
    = decode_accessors buffer_views br accessors'.
Proof.
  induction 1 as [|a a' l l' Ha _ IH]; intros br; cbn [decode_accessors];
    [reflexivity|].
  rewrite (decode_accessor_same buffer_views br a a' Ha).
  destruct (decode_accessor buffer_views br a') as [[decoded br1]|]; cbn [bind];
    [|reflexivity].
  rewrite IH. reflexivity.
Qed.

End AccessorFacts.

Import AccessorFacts.

(** X23. Decoding gives back what was encoded: for a buffer view at the
    offset where the four-byte little-endian encodings of some numbers
    below 2^32 start, and an accessor of as many unsigned 32-bit scalars,
    [decode_bin] returns exactly those numbers, whatever bytes come before
    and after them. *)
Theorem X23_decode_bin_scalars_round_trip :
  forall (before after : bytes) (values : list Z),
    Forall (fun v => 0 <= v < 2 ^ 32) values ->
    decode_bin
      (scalar_document (Z.of_nat (List.length before))
         (Z.of_nat (List.length values)))
      (before ++ encode_scalars values ++ after)
    = Ok [JList (map JInt values)].
Proof.
  intros before after values Hvalues.
  unfold decode_bin, scalar_document.
  change (getkey (JDict ?d) "bufferViews")
    with (Ok (JList [JDict [("byteOffset", JInt (Z.of_nat (List.length before)))]])).
  cbn [bind].
  change (getkey (JDict ?d) "accessors")
    with (Ok (JList [scalar_accessor (Z.of_nat (List.length values))])).
  cbn [bind iter_values decode_accessors].
  unfold decode_accessor at 1.
  change (getkey (scalar_accessor ?c) "type") with (Ok (JStr "SCALAR")).
  cbn [bind]. change (type_num_of (JStr "SCALAR")) with (Ok 1). cbn [bind].
  change (contains (scalar_accessor ?c) "bufferView") with (Ok true).
  cbn [bind negb].
  change (getkey (scalar_accessor ?c) "bufferView") with (Ok (JInt 0)).
  cbn [bind].
  change (getitem (JList [?v]) (JInt 0)) with (Ok v). cbn [bind].
  change (getkey (JDict [("byteOffset", ?o)]) "byteOffset") with (Ok o).
  cbn [bind seek as_index].
  change (getkey (scalar_accessor ?c) "count") with (Ok (JInt c)).
  cbn [bind range_len as_index]. rewrite Nat2Z.id.
  change (set_pos (init ?b) (Z.of_nat (List.length before)))
    with (standing before (encode_scalars values ++ after)).
  rewrite (read_scalars values before after _ Hvalues). reflexivity.
Qed.

Lemma X23_witness :
  decode_bin (scalar_document 2 3)
    ([xff; xff] ++ encode_scalars [7; 65536; 4294967295] ++ [xff])
  = Ok [JList [JInt 7; JInt 65536; JInt 4294967295]].
Proof.
  apply (X23_decode_bin_scalars_round_trip [xff; xff] [xff] [7; 65536; 4294967295]).
  repeat constructor; lia.
Defined.

(** X24. Of an accessor, [decode_bin] reads the fields type, bufferView,
    count and componentType and nothing else: two documents with the same
    buffer views, whose accessors agree one by one on these four fields,
    decode to the same on every payload. So an accessor's own byteOffset,
    among others, has no effect on what is decoded. *)
Theorem X24_decode_bin_reads_four_fields :
  forall (json_data json_data' : json) (binary : bytes)
         (accessors accessors' : list json),
    getkey json_data "bufferViews" = getkey json_data' "bufferViews" ->
    getkey json_data "accessors" = Ok (JList accessors) ->
    getkey json_data' "accessors" = Ok (JList accessors') ->
    Forall2 same_fields accessors accessors' ->
    decode_bin json_data binary = decode_bin json_data' binary.
Proof.
  intros json_data json_data' binary accessors accessors' Hviews Ha Ha' Hsame.
  unfold decode_bin. rewrite <- Hviews, Ha, Ha'.
  destruct (getkey json_data "bufferViews") as [buffer_views|]; cbn [bind iter_values];
    [|reflexivity].
  apply decode_accessors_same. exact Hsame.
Qed.

Lemma X24_witness :
  decode_bin
    (JDict [("bufferViews", sample_buffer_views);
            ("accessors",
             JList [JDict [("bufferView", JInt 0); ("byteOffset", JInt 2);
                           ("componentType", JInt 5123);
                           ("count", JInt 3); ("type", JStr "SCALAR")]])])
    sample_binary
  = decode_bin
      (JDict [("bufferViews", sample_buffer_views);
              ("accessors", JList (firstn 1 sample_accessors))])
      sample_binary.
Proof.
  apply (X24_decode_bin_reads_four_fields
           (JDict [("bufferViews", sample_buffer_views);
                   ("accessors",
                    JList [JDict [("bufferView", JInt 0); ("byteOffset", JInt 2);
                                  ("componentType", JInt 5123);
                                  ("count", JInt 3); ("type", JStr "SCALAR")]])])
           (JDict [("bufferViews", sample_buffer_views);
                   ("accessors", JList (firstn 1 sample_accessors))])
           sample_binary
           [JDict [("bufferView", JInt 0); ("byteOffset", JInt 2);
                   ("componentType", JInt 5123);
                   ("count", JInt 3); ("type", JStr "SCALAR")]]
           (firstn 1 sample_accessors) eq_refl eq_refl eq_refl).
  constructor; [|constructor].
  intros k Hk. cbn [decoded_fields In] in Hk.
  destruct Hk as [<-|[<-|[<-|[<-|[]]]]]; reflexivity.
Defined.

Module PrimitiveFacts.
Import Mesh.

Section WithRuntime.
Context `{Runtime}.

Ltac next_bind :=
  lazymatch goal with
  | |- bind ?m _ = Ok _ -> _ =>
      let E := fresh "E" in
      destruct m eqn:E; cbn [bind]; [|discriminate]
  end.

Lemma read_primitive_built doc decoded_binary n j mesh primitive vrm_mesh store' :
  read_primitive doc decoded_binary n j mesh primitive = Ok (vrm_mesh, store') ->
  built_from primitive vrm_mesh.
Proof.
  unfold read_primitive, built_from, position_of.
  do 3 next_bind.
  destruct (negb _); [next_bind; discriminate|].
  do 8 next_bind.
  lazymatch goal with
  | |- bind (dict_get_default _ "POSITION" _) _ = Ok _ -> _ => idtac
  end.
  next_bind. next_bind.
  lazymatch goal with
  | Em : getkey primitive "material" = Ok ?m,
    Ep : dict_get_default _ "POSITION" _ = Ok ?p |- _ =>
      rename m into material; rename p into position
  end.
  assert (Hset : forall (o : obj),
             dict_get (dict_set (dict_set o "material_index" (FVal material))
                         "POSITION_accessor" (FVal position)) "material_index"
             = Some (FVal material)
             /\ dict_get (dict_set (dict_set o "material_index" (FVal material))
                            "POSITION_accessor" (FVal position)) "POSITION_accessor"
                = Some (FVal position)).
  { intros o. split.
    - rewrite CreateFacts.dict_get_set_other by discriminate.
      apply CreateFacts.dict_get_set_same.
    - apply CreateFacts.dict_get_set_same. }
  lazymatch goal with
  | |- bind (if ?b then _ else _) _ = _ -> _ => destruct b
  end.
  - destruct (getkey primitive "targets") as [targets|]; cbn [bind]; [|discriminate].
    destruct (iter_values targets) as [targets0|]; cbn [bind]; [|discriminate].
    destruct (read_targets _ primitive targets0 0 []) as [morphs|]; cbn [bind];
      [|discriminate].
    intros [= <- _]. exists material, position.
    split; [reflexivity|]. split; [reflexivity|].
    rewrite !(CreateFacts.dict_get_set_other _
                "morph_target_point_list_and_accessor_index_dict") by discriminate.
    apply Hset.
  - cbn [bind]. intros [= <- _]. exists material, position.
    split; [reflexivity|]. split; [reflexivity|]. apply Hset.
Qed.

Lemma read_primitives_built doc n mesh primitives :
  forall decoded_binary j built store',
    read_primitives doc decoded_binary n j mesh primitives = Ok (built, store') ->
    Forall2 built_from primitives built.
Proof.
  induction primitives as [|primitive rest IH]; intros decoded_binary j built store';
    cbn [read_primitives].
  - intros [= <- _]. constructor.
  - destruct (read_primitive doc decoded_binary n j mesh primitive)
      as [[vrm_mesh store1]|] eqn:E1; cbn [bind]; [|discriminate].
    destruct (read_primitives doc store1 n (S j) mesh rest)
      as [[others store2]|] eqn:E2; cbn [bind]; [|discriminate].
    intros [= <- _]. constructor.
    + eapply read_primitive_built; eassumption.
    + eapply IH; eassumption.
Qed.

Lemma read_meshes_built doc meshes :
  forall decoded_binary n built store',
    read_meshes doc decoded_binary n meshes = Ok (built, store') ->
    Forall2 mesh_built meshes built.
Proof.
  induction meshes as [|mesh rest IH]; intros decoded_binary n built store';
    cbn [read_meshes].
  - intros [= <- _]. constructor.
  - destruct (dict_get_default mesh "primitives" (JList [])) as [primitives|] eqn:E0;
      cbn [bind]; [|discriminate].
    destruct (iter_values primitives) as [prims|] eqn:E1; cbn [bind]; [|discriminate].
    destruct (read_primitives doc decoded_binary n 0 mesh prims)
      as [[objs store1]|] eqn:E2; cbn [bind]; [|discriminate].
    destruct (read_meshes doc store1 (S n) rest)
      as [[others store2]|] eqn:E3; cbn [bind]; [|discriminate].
    intros [= <- _]. constructor.
    + exists prims. split.
      * unfold primitives_of. rewrite E0. cbn [bind]. exact E1.
      * eapply read_primitives_built; eassumption.
    + eapply IH; eassumption.
Qed.

(** *** A primitive that is not a list of triangles *)

Lemma read_primitive_mode doc decoded_binary n j mesh primitive mode :
  dict_get_default primitive "mode" (JInt 4) = Ok mode ->
  eq_int mode GlConstants.TRIANGLES = false ->
  is_ok (read_primitive doc decoded_binary n j mesh primitive) = false
  /\ forall name,
       getkey mesh "name" = Ok name -> j = 0%nat ->
       read_primitive doc decoded_binary n j mesh primitive
       = Raise (UnsupportedPolygonType mode).
Proof.
  intros Hmode Hne. unfold read_primitive. rewrite Hmode.
  assert (Hget : getkey primitive "mode" = Ok mode).
  { unfold dict_get_default in Hmode. destruct primitive; try discriminate.
    rewrite SceneFacts.getkey_dict.
    destruct (dict_get d "mode"); [congruence|].
    injection Hmode as <-. discriminate. }
  split.
  - destruct (getkey mesh "name"); cbn [bind]; [|reflexivity].
    destruct (if (j =? 0)%nat then _ else _); cbn [bind]; [|reflexivity].
    rewrite Hne, Hget. reflexivity.
  - intros name Hname ->. rewrite Hname. cbn [bind Nat.eqb].
    rewrite Hne, Hget. reflexivity.
Qed.

Lemma read_primitives_mode doc n mesh before primitive after mode :
  dict_get_default primitive "mode" (JInt 4) = Ok mode ->
  eq_int mode GlConstants.TRIANGLES = false ->
  forall decoded_binary j,
    is_ok (read_primitives doc decoded_binary n j mesh (before ++ primitive :: after))
    = false.
Proof.
  intros Hmode Hne.
  induction before as [|other before IH]; intros decoded_binary j;
    cbn [app read_primitives].
  - destruct (read_primitive_mode doc decoded_binary n j mesh primitive mode Hmode Hne)
      as [Hraise _].
    destruct (read_primitive doc decoded_binary n j mesh primitive); [discriminate|].
    reflexivity.
  - destruct (read_primitive doc decoded_binary n j mesh other) as [[o store1]|];
      cbn [bind]; [|reflexivity].
    specialize (IH store1 (S j)).
    destruct (read_primitives doc store1 n (S j) mesh (before ++ primitive :: after))
      as [[others store2]|]; [discriminate|reflexivity].
Qed.

Lemma read_meshes_mode doc before mesh after primitives_before primitive
      primitives_after mode :
  dict_get_default mesh "primitives" (JList [])
  = Ok (JList (primitives_before ++ primitive :: primitives_after)) ->
  dict_get_default primitive "mode" (JInt 4) = Ok mode ->
  eq_int mode GlConstants.TRIANGLES = false ->
  forall decoded_binary n,
    is_ok (read_meshes doc decoded_binary n (before ++ mesh :: after)) = false.
Proof.
  intros Hprims Hmode Hne.
  induction before as [|other before IH]; intros decoded_binary n;
    cbn [app read_meshes].
  - rewrite Hprims. cbn [bind iter_values].
    pose proof (read_primitives_mode doc n mesh primitives_before primitive
                  primitives_after mode Hmode Hne decoded_binary 0%nat) as Hraise.
    destruct (read_primitives doc decoded_binary n 0 mesh _) as [[objs store1]|];
      [discriminate|reflexivity].
  - destruct (dict_get_default other "primitives" (JList [])); cbn [bind];
      [|reflexivity].
    destruct (iter_values _); cbn [bind]; [|reflexivity].
    destruct (read_primitives doc decoded_binary n 0 other _) as [[objs store1]|];
      cbn [bind]; [|reflexivity].
    specialize (IH store1 (S n)).
    destruct (read_meshes doc store1 (S n) (before ++ mesh :: after))
      as [[others store2]|]; [discriminate|reflexivity].
Qed.

End WithRuntime.
End PrimitiveFacts.

Import PrimitiveFacts.

(** X25. When [mesh_read] returns on a document whose meshes are a list,
    it has built one list per mesh and in it one object per primitive of
    that mesh, in order; each object has as [material_index] the material
    field of its primitive and as [POSITION_accessor] the POSITION entry
    of the primitive's attributes, or None when there is none. So every
    primitive of a document that is read has a material field. *)
Theorem X25_mesh_read_one_object_per_primitive :
  forall (R : Runtime) (doc : json) (meshes : list json)
         (decoded_binary store' : store) (built : list (list obj)),
    dict_get_default doc "meshes" (JList []) = Ok (JList meshes) ->
    mesh_read doc decoded_binary = Ok (built, store') ->
    Forall2 mesh_built meshes built.
Proof.
  intros R doc meshes decoded_binary store' built Hmeshes. unfold mesh_read.
  rewrite Hmeshes. cbn [bind iter_values]. apply read_meshes_built.
Qed.

Lemma X25_witness :
  Forall2 mesh_built
    [JDict [("name", JStr "Body"); ("primitives", JList [sample_primitive])]]
    [[ [("object_id", FVal (JInt 0)); ("name", FVal (JStr "Body"));
        ("face_indices", FArray [[JInt 0; JInt 1; JInt 2]]);
        ("TEXCOORD_0", FRef 1); ("material_index", FVal (JInt 0));
        ("POSITION_accessor", FVal JNull)] ]].
Proof.
  apply (X25_mesh_read_one_object_per_primitive Sample.runtime
           (mesh_document "UniGLTF-1.28" [sample_primitive])
           [JDict [("name", JStr "Body"); ("primitives", JList [sample_primitive])]]
           [JList [JInt 0; JInt 1; JInt 2]; JList [JList [JFloat u_02; JFloat v_m03]]]
           [JList [JInt 0; JInt 1; JInt 2]; JList [JList [JFloat u_02; JFloat v_m03]]]).
  - reflexivity.
  - vm_compute. reflexivity.
Defined.

(** X26. A document with a primitive whose mode is not 4, the list of
    triangles, is not read: [mesh_read] raises, wherever the primitive is.
    When it is the first primitive of the first mesh and the mesh has a
    name, the exception is the one for the unsupported polygon type, with
    the mode, and it comes before any decoded array is looked at. *)
Theorem X26_mesh_read_refuses_other_modes :
  forall (R : Runtime) (doc : json) (decoded_binary : store)
         (before after : list json) (mesh : json)
         (primitives_before primitives_after : list json) (primitive mode : json),
    dict_get_default doc "meshes" (JList []) = Ok (JList (before ++ mesh :: after)) ->
    dict_get_default mesh "primitives" (JList [])
    = Ok (JList (primitives_before ++ primitive :: primitives_after)) ->
    dict_get_default primitive "mode" (JInt 4) = Ok mode ->
    eq_int mode GlConstants.TRIANGLES = false ->
    is_ok (mesh_read doc decoded_binary) = false
    /\ (before = [] -> primitives_before = [] ->
        is_ok (getkey mesh "name") = true ->
        mesh_read doc decoded_binary = Raise (UnsupportedPolygonType mode)).
Proof.
  intros R doc decoded_binary before after mesh primitives_before primitives_after
    primitive mode Hmeshes Hprims Hmode Hne.
  unfold mesh_read. rewrite Hmeshes. cbn [bind iter_values]. split.
  - eapply read_meshes_mode; eassumption.
  - intros -> -> Hname. cbn [app read_meshes]. rewrite Hprims.
    cbn [bind iter_values app read_primitives].
    destruct (getkey mesh "name") as [name|] eqn:En; [|discriminate].
    destruct (read_primitive_mode doc decoded_binary 0 0 mesh primitive mode Hmode Hne)
      as [_ Hraise].
    rewrite (Hraise name En eq_refl). reflexivity.
Qed.

Lemma X26_witness :
  @mesh_read Sample.runtime
    (mesh_document "UniGLTF-1.28" [JDict [("mode", JInt 1); ("indices", JInt 0)]]) []
  = Raise (UnsupportedPolygonType (JInt 1)).
Proof.
  apply (X26_mesh_read_refuses_other_modes Sample.runtime
           (mesh_document "UniGLTF-1.28" [JDict [("mode", JInt 1); ("indices", JInt 0)]])
           [] [] []
           (JDict [("name", JStr "Body");
                   ("primitives",
                    JList [JDict [("mode", JInt 1); ("indices", JInt 0)]])])
           [] [] (JDict [("mode", JInt 1); ("indices", JInt 0)]) (JInt 1)
           eq_refl eq_refl eq_refl eq_refl); reflexivity.
Defined.

Module StoreFacts.
Import Mesh.

Lemma replace_nth_length {A} (k : nat) (a : A) (l : list A) :
  (k < List.length l)%nat -> List.length (replace_nth k a l) = List.length l.
Proof.
  intros Hk. unfold replace_nth.
  pose proof (firstn_skipn k l) as Hsplit.
  destruct (skipn k l) as [|b r] eqn:Es.
  - apply (f_equal (@List.length A)) in Hsplit.
    rewrite length_app, length_firstn in Hsplit. cbn [List.length] in Hsplit. lia.
  - rewrite <- Hsplit at 2. rewrite !length_app. reflexivity.
Qed.

Lemma fix_texcoord_length decoded_binary k store' :
  fix_texcoord decoded_binary k = Ok store' ->
  List.length store' = List.length decoded_binary.
Proof.
  unfold fix_texcoord.
  destruct (nth_error decoded_binary k) as [texcoord|] eqn:En; [|discriminate].
  assert (Hk : (k < List.length decoded_binary)%nat).
  { apply nth_error_Some. congruence. }
  destruct texcoord;
    try (destruct (iter_values _); cbn [bind]; [|discriminate];
         destruct (map_result fix_uv _); cbn [bind]; [|discriminate];
         intros [= <-]; reflexivity).
  destruct (map_result fix_uv l); cbn [bind]; [|discriminate].
  intros [= <-]. apply replace_nth_length. exact Hk.
Qed.

Lemma texcoord_loop_length fuel : forall vrm_mesh legacy uv_count decoded_binary store',
  texcoord_loop fuel vrm_mesh legacy uv_count decoded_binary = Ok store' ->
  List.length store' = List.length decoded_binary.
Proof.
  induction fuel as [|fuel IH]; intros vrm_mesh legacy uv_count decoded_binary store';
    cbn [texcoord_loop]; [discriminate|].
  destruct (dict_get vrm_mesh _) as [texcoord|]; [|intros [= <-]; reflexivity].
  destruct legacy.
  - destruct texcoord as [v|k|rows|targets]; cbn [bind]; try discriminate.
    destruct (fix_texcoord decoded_binary k) as [store1|] eqn:Ef; cbn [bind];
      [|discriminate].
    intros Hloop. apply IH in Hloop. apply fix_texcoord_length in Ef. congruence.
  - cbn [bind]. apply IH.
Qed.

Section WithRuntime.
Context `{Runtime}.

Ltac step_bind :=
  lazymatch goal with
  | |- bind ?m _ = Ok _ -> _ =>
      let E := fresh "E" in
      destruct m eqn:E; cbn [bind]; [|discriminate]
  end.

Lemma read_primitive_length doc decoded_binary n j mesh primitive vrm_mesh store' :
  read_primitive doc decoded_binary n j mesh primitive = Ok (vrm_mesh, store') ->
  List.length store' = List.length decoded_binary.
Proof.
  unfold read_primitive.
  do 3 step_bind.
  destruct (negb _); [step_bind; discriminate|].
  do 7 step_bind.
  lazymatch goal with
  | Et : texcoord_loop _ _ _ _ decoded_binary = Ok ?s |- _ =>
      apply texcoord_loop_length in Et; rename Et into Hlen
  end.
  do 4 step_bind. intros [= _ <-]. exact Hlen.
Qed.

Lemma read_primitives_length doc n mesh primitives :
  forall decoded_binary j built store',
    read_primitives doc decoded_binary n j mesh primitives = Ok (built, store') ->
    List.length store' = List.length decoded_binary.
Proof.
  induction primitives as [|primitive rest IH]; intros decoded_binary j built store';
    cbn [read_primitives].
  - intros [= _ <-]. reflexivity.
  - destruct (read_primitive doc decoded_binary n j mesh primitive)
      as [[vrm_mesh store1]|] eqn:E1; cbn [bind]; [|discriminate].
    destruct (read_primitives doc store1 n (S j) mesh rest)
      as [[others store2]|] eqn:E2; cbn [bind]; [|discriminate].
    intros [= _ <-]. apply read_primitive_length in E1. apply IH in E2. congruence.
Qed.

Lemma read_meshes_length doc meshes :
  forall decoded_binary n built store',
    read_meshes doc decoded_binary n meshes = Ok (built, store') ->
    List.length store' = List.length decoded_binary.
Proof.
  induction meshes as [|mesh rest IH]; intros decoded_binary n built store';
    cbn [read_meshes].
  - intros [= _ <-]. reflexivity.
  - destruct (dict_get_default mesh "primitives" (JList [])) as [primitives|];
      cbn [bind]; [|discriminate].
    destruct (iter_values primitives) as [prims|]; cbn [bind]; [|discriminate].
    destruct (read_primitives doc decoded_binary n 0 mesh prims)
      as [[objs store1]|] eqn:E2; cbn [bind]; [|discriminate].
    destruct (read_meshes doc store1 (S n) rest)
      as [[others store2]|] eqn:E3; cbn [bind]; [|discriminate].
    intros [= _ <-]. apply read_primitives_length in E2. apply IH in E3. congruence.
Qed.

End WithRuntime.
End StoreFacts.

(** X27. [mesh_read] keeps the number of decoded arrays: whatever it
    repairs, it repairs in place, so the accessor indices of the document
    stay valid in [decoded_binary] after it. *)
Theorem X27_mesh_read_keeps_the_decoded_arrays_in_place :
  forall (R : Runtime) (doc : json) (decoded_binary store' : store)
         (built : list (list obj)),
    mesh_read doc decoded_binary = Ok (built, store') ->
    List.length store' = List.length decoded_binary.
Proof.
  intros R doc decoded_binary store' built. unfold mesh_read.
  destruct (dict_get_default doc "meshes" (JList [])) as [meshes|]; cbn [bind];
    [|discriminate].
  destruct (iter_values meshes) as [ms|]; cbn [bind]; [|discriminate].
  apply StoreFacts.read_meshes_length.
Qed.

Lemma X27_witness :
  List.length [JList [JInt 0; JInt 1; JInt 2];
               JList [JList [JFloat u_02; JFloat (1 + v_m03)%float]]]
  = List.length [JList [JInt 0; JInt 1; JInt 2];
                 JList [JList [JFloat u_02; JFloat v_m03]]].
Proof.
  apply (X27_mesh_read_keeps_the_decoded_arrays_in_place Sample.runtime
           (mesh_document "UniGLTF-1.15" [sample_primitive])
           [JList [JInt 0; JInt 1; JInt 2]; JList [JList [JFloat u_02; JFloat v_m03]]]
           [JList [JInt 0; JInt 1; JInt 2];
            JList [JList [JFloat u_02; JFloat (1 + v_m03)%float]]]
           [[ [("object_id", FVal (JInt 0)); ("name", FVal (JStr "Body"));
               ("face_indices", FArray [[JInt 0; JInt 1; JInt 2]]);
               ("TEXCOORD_0", FRef 1); ("material_index", FVal (JInt 0));
               ("POSITION_accessor", FVal JNull)] ]]).
  vm_compute. reflexivity.
Defined.
